(** * Mutation resolvers of the shop backend (src/resolvers/Mutation.js)

    A shallow embedding of the twelve mutation resolvers.  Every resolver is
    an [async] function whose [await]s call collaborators (the Prisma
    binding [ctx.db], Stripe, bcrypt, jsonwebtoken, the mail transport).  A
    resolver is embedded as a program ([prog]) that lists those calls in the
    order the source makes them; an interpreter runs a program against a
    world made of the database, the gateway's ledger, the response cookies
    and the outbox. *)

From stdpp Require Import gmap strings list pretty.
From Stdlib Require Import ZArith Ascii String.

Open Scope string_scope.
Open Scope list_scope.
Open Scope Z_scope.

(** ** JavaScript values that occur in payloads *)

Abbreviation ID := string (only parsing).

(** A payload handed to the Prisma binding is a JS object; its fields hold
    strings, numbers, [{ connect: { id } }], [{ set: [...] }] or [null]. *)
Inductive jsval : Type :=
| VStr (s : string)
| VNum (n : Z)
| VConnect (id : ID)
| VSet (l : list string)
| VNull.

Global Instance jsval_eq_dec : EqDecision jsval.
Proof. solve_decision. Defined.

Abbreviation obj := (gmap string jsval) (only parsing).

Definition str_field (k : string) (o : obj) : string :=
  match o !! k with Some (VStr s) => s | _ => "" end.

Definition num_field (k : string) (o : obj) : Z :=
  match o !! k with Some (VNum n) => n | _ => 0 end.

Definition connect_field (k : string) (o : obj) : ID :=
  match o !! k with Some (VConnect i) => i | _ => "" end.

Definition set_field (k : string) (o : obj) : list string :=
  match o !! k with Some (VSet l) => l | _ => [] end.

(** Lowercasing of the ASCII letters: what [String.prototype.toLowerCase]
    does on a string of ASCII characters.  The resolvers reach the
    runtime's own [toLowerCase] through the collaborators; this function is
    the shop's instance of it, every string of the shop being ASCII. *)
Definition lower_ascii (c : ascii) : ascii :=
  let n := nat_of_ascii c in
  if ((65 <=? n)%nat && (n <=? 90)%nat)%bool then ascii_of_nat (n + 32) else c.

Fixpoint toLowerCase (s : string) : string :=
  match s with
  | EmptyString => EmptyString
  | String c r => String (lower_ascii c) (toLowerCase r)
  end.

(** ** JavaScript numbers

    A JS number is an IEEE 754 double.  The numbers the resolvers compute
    with are integers; an integer below 2^53 in magnitude is a double, and
    the sum or product of two doubles is the double nearest to the exact
    result, ties going to the even significand.  [js_round] takes an exact
    integer result to that double.  (Magnitudes of 2^1024 and more, which
    round to [Infinity], are outside what it describes: the datamodel's
    [Int] fields are 32-bit.) *)
Definition js_round (x : Z) : Z :=
  let a := Z.abs x in
  if a <? 2 ^ 53 then x
  else
    let e := Z.log2 a - 52 in
    let q := a / 2 ^ e in
    let r := a mod 2 ^ e in
    let half := 2 ^ (e - 1) in
    let q' := if r <? half then q
              else if half <? r then q + 1
              else if Z.even q then q else q + 1 in
    Z.sgn x * (q' * 2 ^ e).

Definition js_add (x y : Z) : Z := js_round (x + y).
Definition js_mul (x y : Z) : Z := js_round (x * y).

(** ** Data model: the nodes kept by the persistence collaborator

    Prices, quantities, totals and timestamps are integers ([Int] fields
    and millisecond clocks), taken in [Z]; the arithmetic the resolvers do
    on prices and quantities goes through [js_add] and [js_mul].  A time
    value is at most 8.64e15 in magnitude, so that the hour a resolver adds
    to or takes from the clock stays below 2^53: clock arithmetic is exact,
    and is written in [Z]. *)

Record User := mkUser {
  user_id : ID;
  user_name : string;
  user_email : string;
  user_password : string;
  user_permissions : list string;
  user_resetToken : option string;
  user_resetTokenExpiry : option Z
}.

Record Item := mkItem {
  item_id : ID;
  item_title : string;
  item_description : string;
  item_image : string;
  item_largeImage : string;
  item_price : Z;
  item_user : ID
}.

Record CartItem := mkCartItem {
  ci_id : ID;
  ci_quantity : Z;
  ci_item : ID;
  ci_user : ID
}.

Record OrderItem := mkOrderItem {
  oi_id : ID;
  oi_title : string;
  oi_description : string;
  oi_image : string;
  oi_largeImage : string;
  oi_price : Z;
  oi_quantity : Z;
  oi_user : ID
}.

Record Order := mkOrder {
  order_id : ID;
  order_total : Z;
  order_charge : string;
  order_items : list OrderItem;
  order_user : ID
}.

Global Instance User_eq_dec : EqDecision User.
Proof. solve_decision. Defined.
Global Instance Item_eq_dec : EqDecision Item.
Proof. solve_decision. Defined.
Global Instance CartItem_eq_dec : EqDecision CartItem.
Proof. solve_decision. Defined.
Global Instance OrderItem_eq_dec : EqDecision OrderItem.
Proof. solve_decision. Defined.
Global Instance Order_eq_dec : EqDecision Order.
Proof. solve_decision. Defined.

(** A cart entry as the checkout query selects it:
    [cart { id quantity item { title price id description image largeImage } }].
    The item is [null] when the cart item's item no longer exists. *)
Record CartEntry := mkCartEntry {
  ce_id : ID;
  ce_quantity : Z;
  ce_item : option Item
}.

(** The [data] of [createOrder]: scalar fields, the nested
    [items: { create: [...] }] and [user: { connect: { id } }]. *)
Record OrderCreate := mkOrderCreate {
  oc_total : Z;
  oc_charge : string;
  oc_items : list obj;
  oc_user : ID
}.

Inductive UserWhere : Type :=
| ById (id : ID)
| ByEmail (email : string).

(** ** The store *)

Record store := mkStore {
  items : list Item;
  users : list User;
  cartItems : list CartItem;
  orders : list Order;
  next_id : N
}.

(** Node identifiers are generated by the store and never reused. *)
Definition mkid (n : N) : ID := "c" +:+ pretty n.

Definition find_item (s : store) (id : ID) : option Item :=
  List.find (λ it, bool_decide (item_id it = id)) (items s).

Definition user_matches (w : UserWhere) (u : User) : bool :=
  match w with
  | ById i => bool_decide (user_id u = i)
  | ByEmail e => bool_decide (user_email u = e)
  end.

Definition find_user (s : store) (w : UserWhere) : option User :=
  List.find (user_matches w) (users s).

Definition find_cartItem (s : store) (id : ID) : option CartItem :=
  List.find (λ c, bool_decide (ci_id c = id)) (cartItems s).

(** [cartItems({ where: { user: { id }, item: { id } } })] *)
Definition cart_matches (uid iid : ID) (c : CartItem) : bool :=
  bool_decide (ci_user c = uid) && bool_decide (ci_item c = iid).

Definition query_cartItems (s : store) (uid iid : ID) : list CartItem :=
  List.filter (cart_matches uid iid) (cartItems s).

(** [users({ where: { resetToken, resetTokenExpiry_gte } })] *)
Definition reset_matches (tok : string) (bound : Z) (u : User) : bool :=
  bool_decide (user_resetToken u = Some tok) &&
  match user_resetTokenExpiry u with
  | Some e => (bound <=? e)%Z
  | None => false
  end.

Definition query_users_reset (s : store) (tok : string) (bound : Z) : list User :=
  List.filter (reset_matches tok bound) (users s).

(** The user's cart with the items embedded. *)
Definition entry_of (s : store) (c : CartItem) : CartEntry :=
  mkCartEntry (ci_id c) (ci_quantity c) (find_item s (ci_item c)).

Definition cart_of (s : store) (uid : ID) : list CartEntry :=
  entry_of s <$> List.filter (λ c, bool_decide (ci_user c = uid)) (cartItems s).

Definition query_user_cart (s : store) (uid : ID) : option (User * list CartEntry) :=
  match find_user s (ById uid) with
  | Some u => Some (u, cart_of s uid)
  | None => None
  end.

(** Field-wise overwrite of a node by an update payload: a field named in
    [data] takes the payload's value, any other field keeps its own. *)
Definition upd_str (k : string) (data : obj) (old : string) : string :=
  match data !! k with Some (VStr s) => s | _ => old end.

Definition upd_num (k : string) (data : obj) (old : Z) : Z :=
  match data !! k with Some (VNum n) => n | _ => old end.

Definition upd_opt_str (k : string) (data : obj) (old : option string) : option string :=
  match data !! k with
  | Some (VStr s) => Some s
  | Some VNull => None
  | _ => old
  end.

Definition upd_opt_num (k : string) (data : obj) (old : option Z) : option Z :=
  match data !! k with
  | Some (VNum n) => Some n
  | Some VNull => None
  | _ => old
  end.

Definition upd_set (k : string) (data : obj) (old : list string) : list string :=
  match data !! k with Some (VSet l) => l | _ => old end.

Definition apply_item_update (data : obj) (it : Item) : Item :=
  {| item_id := upd_str "id" data (item_id it);
     item_title := upd_str "title" data (item_title it);
     item_description := upd_str "description" data (item_description it);
     item_image := upd_str "image" data (item_image it);
     item_largeImage := upd_str "largeImage" data (item_largeImage it);
     item_price := upd_num "price" data (item_price it);
     item_user := item_user it |}.

Definition apply_user_update (data : obj) (u : User) : User :=
  {| user_id := upd_str "id" data (user_id u);
     user_name := upd_str "name" data (user_name u);
     user_email := upd_str "email" data (user_email u);
     user_password := upd_str "password" data (user_password u);
     user_permissions := upd_set "permissions" data (user_permissions u);
     user_resetToken := upd_opt_str "resetToken" data (user_resetToken u);
     user_resetTokenExpiry := upd_opt_num "resetTokenExpiry" data (user_resetTokenExpiry u) |}.

Definition apply_cartItem_update (data : obj) (c : CartItem) : CartItem :=
  {| ci_id := upd_str "id" data (ci_id c);
     ci_quantity := upd_num "quantity" data (ci_quantity c);
     ci_item := ci_item c;
     ci_user := ci_user c |}.

Definition item_of_data (id : ID) (data : obj) : Item :=
  {| item_id := id;
     item_title := str_field "title" data;
     item_description := str_field "description" data;
     item_image := str_field "image" data;
     item_largeImage := str_field "largeImage" data;
     item_price := num_field "price" data;
     item_user := connect_field "user" data |}.

Definition user_of_data (id : ID) (data : obj) : User :=
  {| user_id := id;
     user_name := str_field "name" data;
     user_email := str_field "email" data;
     user_password := str_field "password" data;
     user_permissions := set_field "permissions" data;
     user_resetToken := None;
     user_resetTokenExpiry := None |}.

(** Modelled from the spec: the datamodel (not among the sources) gives a
    cart item's quantity its default; the spec's add-to-cart creates the row
    "with quantity 1". *)
Definition default_quantity : Z := 1.

Definition cartItem_of_data (id : ID) (data : obj) : CartItem :=
  {| ci_id := id;
     ci_quantity := match data !! "quantity" with
                    | Some (VNum n) => n
                    | _ => default_quantity
                    end;
     ci_item := connect_field "item" data;
     ci_user := connect_field "user" data |}.

Definition orderItem_of_data (id : ID) (data : obj) : OrderItem :=
  {| oi_id := id;
     oi_title := str_field "title" data;
     oi_description := str_field "description" data;
     oi_image := str_field "image" data;
     oi_largeImage := str_field "largeImage" data;
     oi_price := num_field "price" data;
     oi_quantity := num_field "quantity" data;
     oi_user := connect_field "user" data |}.

(** The nested create assigns the identifiers after the order's own. *)
Fixpoint orderItems_of_data (n : N) (l : list obj) : list OrderItem :=
  match l with
  | [] => []
  | d :: r => orderItem_of_data (mkid n) d :: orderItems_of_data (N.succ n) r
  end.

Definition order_of_data (n : N) (d : OrderCreate) : Order :=
  {| order_id := mkid n;
     order_total := oc_total d;
     order_charge := oc_charge d;
     order_items := orderItems_of_data (N.succ n) (oc_items d);
     order_user := oc_user d |}.

Definition set_items (s : store) (l : list Item) : store :=
  mkStore l (users s) (cartItems s) (orders s) (next_id s).
Definition set_users (s : store) (l : list User) : store :=
  mkStore (items s) l (cartItems s) (orders s) (next_id s).
Definition set_cartItems (s : store) (l : list CartItem) : store :=
  mkStore (items s) (users s) l (orders s) (next_id s).
Definition set_orders (s : store) (l : list Order) : store :=
  mkStore (items s) (users s) (cartItems s) l (next_id s).
Definition bump (k : N) (s : store) : store :=
  mkStore (items s) (users s) (cartItems s) (orders s) (next_id s + k)%N.

(** Update every node the predicate selects (a unique [where] selects at
    most one). *)
Definition update_where {A} (p : A → bool) (f : A → A) (l : list A) : list A :=
  (λ x, if p x then f x else x) <$> l.

Definition remove_where {A} (p : A → bool) (l : list A) : list A :=
  List.filter (λ x, negb (p x)) l.

(** ** Collaborators and effects *)

(** What a resolver can throw.  [JsError msg] is [throw new Error(msg)] in
    the resolver itself; [TypeError] is a property read on [null]; the first
    three are the signals of the guard helpers of [../utils]. *)
Inductive error : Type :=
| NotAuthenticated
| OwnershipDenied
| PermissionDenied
| JsError (msg : string)
| TypeError
| PaymentFailed (reason : string)
| PersistenceError (reason : string).

Global Instance error_eq_dec : EqDecision error.
Proof. solve_decision. Defined.

Definition PasswordMismatch : error := JsError "Passwords do not match".
Definition InvalidOrExpiredToken : error :=
  JsError "This token is either invalid or expired".

Definition is_guard_failure (e : error) : bool :=
  match e with
  | NotAuthenticated | OwnershipDenied | PermissionDenied => true
  | _ => false
  end.

Record ChargeReq := mkChargeReq {
  cr_amount : Z;
  cr_currency : string;
  cr_source : string
}.

Record Charge := mkCharge {
  charge_id : string;
  charge_amount : Z
}.

Record Mail := mkMail {
  mail_from : string;
  mail_to : string;
  mail_subject : string;
  mail_html : string
}.

Global Instance ChargeReq_eq_dec : EqDecision ChargeReq.
Proof. solve_decision. Defined.

(** The mutations of the Prisma binding, as they are requested. *)
Inductive dbwrite : Type :=
| WCreateItem (data : obj)
| WUpdateItem (data : obj) (where_id : ID)
| WDeleteItem (where_id : ID)
| WCreateUser (data : obj)
| WUpdateUser (where_ : UserWhere) (data : obj)
| WUpdateCartItem (where_id : ID) (data : obj)
| WCreateCartItem (data : obj)
| WDeleteCartItem (where_id : ID)
| WCreateOrder (data : OrderCreate)
| WDeleteManyCartItems (id_in : list ID).

(** One constructor per awaited (or response) call of the source. *)
Inductive eff : Type → Type :=
| QItem (id : ID) : eff (option Item)
| QUser (w : UserWhere) : eff (option User)
| QUserCart (id : ID) : eff (option (User * list CartEntry))
| QUsers (resetToken : string) (resetTokenExpiry_gte : Z) : eff (list User)
| QCartItems (user item : ID) : eff (list CartItem)
| QCartItem (id : ID) : eff (option CartItem)
| MCreateItem (data : obj) : eff Item
| MUpdateItem (data : obj) (where_id : ID) : eff Item
| MDeleteItem (where_id : ID) : eff Item
| MCreateUser (data : obj) : eff User
| MUpdateUser (where_ : UserWhere) (data : obj) : eff User
| MUpdateCartItem (where_id : ID) (data : obj) : eff CartItem
| MCreateCartItem (data : obj) : eff CartItem
| MDeleteCartItem (where_id : ID) : eff CartItem
| MCreateOrder (data : OrderCreate) : eff Order
| MDeleteManyCartItems (id_in : list ID) : eff Z
| StripeCharge (req : ChargeReq) : eff Charge
| BcryptHash (password : string) : eff string
| BcryptCompare (password hash : string) : eff bool
| JwtSign (userId : option ID) : eff string
| ToLowerCase (s : string) : eff string
| SetCookie (token : string) : eff unit
| ClearCookie : eff unit
| RandomHex (bytes : nat) : eff string
| DateNow : eff Z
| SendMail (m : Mail) : eff unit.

Inductive prog (A : Type) : Type :=
| Ret (a : A)
| Throw (e : error)
| Vis {X : Type} (c : eff X) (k : X → prog A).

Arguments Ret {A} a.
Arguments Throw {A} e.
Arguments Vis {A X} c k.

Fixpoint prog_bind {A B} (f : A → prog B) (p : prog A) : prog B :=
  match p with
  | Ret a => f a
  | Throw e => Throw e
  | Vis c k => Vis c (λ x, prog_bind f (k x))
  end.

Global Instance prog_ret : MRet prog := @Ret.
Global Instance prog_mbind : MBind prog := @prog_bind.

Definition call {X} (c : eff X) : prog X := Vis c Ret.

(** The world a request runs in. *)
Record world := mkWorld {
  db : store;
  writes : list dbwrite;
  charges : list ChargeReq;
  cookies : list (option string);
  outbox : list Mail;
  clock : Z;
  entropy : nat
}.

Definition set_db (w : world) (s : store) : world :=
  mkWorld s (writes w) (charges w) (cookies w) (outbox w) (clock w) (entropy w).
Definition log_write (x : dbwrite) (w : world) : world :=
  mkWorld (db w) (writes w ++ [x]) (charges w) (cookies w) (outbox w) (clock w) (entropy w).
Definition log_charge (r : ChargeReq) (w : world) : world :=
  mkWorld (db w) (writes w) (charges w ++ [r]) (cookies w) (outbox w) (clock w) (entropy w).
Definition log_cookie (c : option string) (w : world) : world :=
  mkWorld (db w) (writes w) (charges w) (cookies w ++ [c]) (outbox w) (clock w) (entropy w).
Definition log_mail (m : Mail) (w : world) : world :=
  mkWorld (db w) (writes w) (charges w) (cookies w) (outbox w ++ [m]) (clock w) (entropy w).
Definition use_entropy (w : world) : world :=
  mkWorld (db w) (writes w) (charges w) (cookies w) (outbox w) (clock w) (S (entropy w)).

(** The external collaborators: the payment gateway (its answer may depend
    on the requests it has seen), bcryptjs, jsonwebtoken (signing a payload
    with a user id, or with [userId: undefined]), [crypto.randomBytes], the
    mail template of [../mail] and the runtime's
    [String.prototype.toLowerCase]. *)
Record collaborators := mkCollaborators {
  stripe_charges_create : list ChargeReq → ChargeReq → string + Charge;
  bcrypt_hash : string → string;
  bcrypt_compare : string → string → bool;
  jwt_sign : ID → string;
  jwt_sign_undefined : string;
  randomBytes_hex : nat → nat → string;
  makeANiceEmail : string → string;
  FRONTEND_URL : string;
  String_toLowerCase : string → string
}.

(** ** The persistence collaborator's mutations on the store

    The Prisma binding is an external collaborator.  Its mutations act on
    the store as follows: a create appends a node under a fresh identifier,
    an update overwrites the named fields of the node its unique [where]
    selects, a delete removes that node, and an update or a delete whose
    [where] selects no node is rejected. *)

Definition db_createItem (data : obj) (s : store) : Item * store :=
  let it := item_of_data (mkid (next_id s)) data in
  (it, bump 1 (set_items s (items s ++ [it]))).

Definition db_updateItem (data : obj) (id : ID) (s : store) : error + Item * store :=
  match find_item s id with
  | None => inl (PersistenceError "No Node for the model Item")
  | Some it =>
      inr (apply_item_update data it,
           set_items s (update_where (λ x, bool_decide (item_id x = id))
                                     (apply_item_update data) (items s)))
  end.

Definition db_deleteItem (id : ID) (s : store) : error + Item * store :=
  match find_item s id with
  | None => inl (PersistenceError "No Node for the model Item")
  | Some it =>
      inr (it, set_items s (remove_where (λ x, bool_decide (item_id x = id)) (items s)))
  end.

(** [email] is a unique field ([user({ where: { email } })] needs it). *)
Definition db_createUser (data : obj) (s : store) : error + User * store :=
  let u := user_of_data (mkid (next_id s)) data in
  match find_user s (ByEmail (user_email u)) with
  | Some _ => inl (PersistenceError "A unique constraint would be violated on User")
  | None => inr (u, bump 1 (set_users s (users s ++ [u])))
  end.

Definition db_updateUser (w : UserWhere) (data : obj) (s : store) : error + User * store :=
  match find_user s w with
  | None => inl (PersistenceError "No Node for the model User")
  | Some u =>
      inr (apply_user_update data u,
           set_users s (update_where (user_matches w) (apply_user_update data) (users s)))
  end.

Definition db_updateCartItem (id : ID) (data : obj) (s : store) : error + CartItem * store :=
  match find_cartItem s id with
  | None => inl (PersistenceError "No Node for the model CartItem")
  | Some c =>
      inr (apply_cartItem_update data c,
           set_cartItems s (update_where (λ x, bool_decide (ci_id x = id))
                                         (apply_cartItem_update data) (cartItems s)))
  end.

Definition db_createCartItem (data : obj) (s : store) : CartItem * store :=
  let c := cartItem_of_data (mkid (next_id s)) data in
  (c, bump 1 (set_cartItems s (cartItems s ++ [c]))).

Definition db_deleteCartItem (id : ID) (s : store) : error + CartItem * store :=
  match find_cartItem s id with
  | None => inl (PersistenceError "No Node for the model CartItem")
  | Some c =>
      inr (c, set_cartItems s (remove_where (λ x, bool_decide (ci_id x = id)) (cartItems s)))
  end.

Definition db_createOrder (data : OrderCreate) (s : store) : Order * store :=
  let o := order_of_data (next_id s) data in
  (o, bump (1 + N.of_nat (List.length (oc_items data))) (set_orders s (orders s ++ [o]))).

(** [deleteManyCartItems({ where: { id_in } })] answers with the count. *)
Definition db_deleteManyCartItems (ids : list ID) (s : store) : Z * store :=
  let hit := λ c : CartItem, bool_decide (ci_id c ∈ ids) in
  (Z.of_nat (List.length (List.filter hit (cartItems s))),
   set_cartItems s (remove_where hit (cartItems s))).

Section Interpreter.
Context (E : collaborators).

Definition ok {X} (x : X) (w : world) : (error + X) * world := (inr x, w).

Definition wrote {X} (x : dbwrite) (r : error + X * store) (w : world)
  : (error + X) * world :=
  match r with
  | inl e => (inl e, log_write x w)
  | inr (v, s) => (inr v, log_write x (set_db w s))
  end.

(** The answer of the collaborators to a call they serve.  (That a call
    is not served at all is the matter of [run_faulty] below.) *)
Definition handle {X} (c : eff X) (w : world) : (error + X) * world :=
  match c in eff X return (error + X) * world with
  | QItem id => ok (find_item (db w) id) w
  | QUser wh => ok (find_user (db w) wh) w
  | QUserCart id => ok (query_user_cart (db w) id) w
  | QUsers tok bound => ok (query_users_reset (db w) tok bound) w
  | QCartItems u i => ok (query_cartItems (db w) u i) w
  | QCartItem id => ok (find_cartItem (db w) id) w
  | MCreateItem data => wrote (WCreateItem data) (inr (db_createItem data (db w))) w
  | MUpdateItem data id => wrote (WUpdateItem data id) (db_updateItem data id (db w)) w
  | MDeleteItem id => wrote (WDeleteItem id) (db_deleteItem id (db w)) w
  | MCreateUser data => wrote (WCreateUser data) (db_createUser data (db w)) w
  | MUpdateUser wh data => wrote (WUpdateUser wh data) (db_updateUser wh data (db w)) w
  | MUpdateCartItem id data =>
      wrote (WUpdateCartItem id data) (db_updateCartItem id data (db w)) w
  | MCreateCartItem data =>
      wrote (WCreateCartItem data) (inr (db_createCartItem data (db w))) w
  | MDeleteCartItem id => wrote (WDeleteCartItem id) (db_deleteCartItem id (db w)) w
  | MCreateOrder data => wrote (WCreateOrder data) (inr (db_createOrder data (db w))) w
  | MDeleteManyCartItems ids =>
      wrote (WDeleteManyCartItems ids) (inr (db_deleteManyCartItems ids (db w))) w
  | StripeCharge req =>
      match stripe_charges_create E (charges w) req with
      | inl reason => (inl (PaymentFailed reason), log_charge req w)
      | inr ch => (inr ch, log_charge req w)
      end
  | BcryptHash p => ok (bcrypt_hash E p) w
  | BcryptCompare p h => ok (bcrypt_compare E p h) w
  | JwtSign (Some uid) => ok (jwt_sign E uid) w
  | JwtSign None => ok (jwt_sign_undefined E) w
  | ToLowerCase s => ok (String_toLowerCase E s) w
  | SetCookie t => ok tt (log_cookie (Some t) w)
  | ClearCookie => ok tt (log_cookie None w)
  | RandomHex n => ok (randomBytes_hex E (entropy w) n) (use_entropy w)
  | DateNow => ok (clock w) w
  | SendMail m => ok tt (log_mail m w)
  end.

(** A request that runs alone. *)
Fixpoint run {A} (p : prog A) (w : world) : (error + A) * world :=
  match p with
  | Ret a => (inr a, w)
  | Throw e => (inl e, w)
  | Vis c k =>
      match handle c w with
      | (inl e, w') => (inl e, w')
      | (inr x, w') => run (k x) w'
      end
  end.

(** A request that runs among others: before its [n]-th call the rest of
    the system has turned the world into [env n w].  The worlds the calls
    were made in are returned, in order. *)
Fixpoint run_env {A} (env : nat → world → world) (n : nat) (p : prog A) (w : world)
  : (error + A) * world * list world :=
  match p with
  | Ret a => (inr a, w, [])
  | Throw e => (inl e, w, [])
  | Vis c k =>
      let w0 := env n w in
      match handle c w0 with
      | (inl e, w') => (inl e, w', [w0])
      | (inr x, w') =>
          let '(r, wf, h) := run_env env (S n) (k x) w' in (r, wf, w0 :: h)
      end
  end.

(** A call that is not served.  [handle] is the answer of a collaborator
    that is up; the binding can also reject any call (the server is down,
    the connection lost), and so can the gateway and the mail transport.
    [faults] tells which call rejects, in which world and with what error;
    a call that rejects has had no effect. *)
Definition faults : Type := ∀ X, eff X → world → option error.

Definition handle_faulty (F : faults) {X} (c : eff X) (w : world)
  : (error + X) * world :=
  match F X c w with
  | Some e => (inl e, w)
  | None => handle c w
  end.

(** A request that runs alone, some of its calls rejecting. *)
Fixpoint run_faulty (F : faults) {A} (p : prog A) (w : world) : (error + A) * world :=
  match p with
  | Ret a => (inr a, w)
  | Throw e => (inl e, w)
  | Vis c k =>
      match handle_faulty F c w with
      | (inl e, w') => (inl e, w')
      | (inr x, w') => run_faulty F (k x) w'
      end
  end.
End Interpreter.

(** No call rejects. *)
Definition no_fault : faults := λ _ _ _, None.

(** ** The resolvers *)

(** What a resolver receives besides its arguments.  [ctx.request]: the
    middleware puts the token's user id and the user (with its permissions)
    on the request; both are [undefined] for an anonymous caller.  [info]:
    the fields of the answer the client has selected; a call of the binding
    that is handed [info] answers with those fields only. *)
Record Context := mkContext {
  req_userId : option ID;
  req_user : option User;
  info : list string
}.

(** [user.id] of a user the binding answered under [info]: [undefined]
    when the selection leaves [id] out. *)
Definition selected_id (info : list string) (u : User) : option ID :=
  if bool_decide ("id" ∈ info) then Some (user_id u) else None.

(** A user the binding answered under [info], as a permission guard sees
    it: the permissions are there only when the selection names them. *)
Definition selected (info : list string) (u : User) : User :=
  if bool_decide ("permissions" ∈ info) then u
  else mkUser (user_id u) (user_name u) (user_email u) (user_password u) []
         (user_resetToken u) (user_resetTokenExpiry u).

(** JS truthiness of [ctx.request.userId]. *)
Definition truthy (o : option ID) : bool :=
  match o with
  | Some s => negb (bool_decide (s = ""))
  | None => false
  end.

(** The identifier a payload carries for [ctx.request.userId]. *)
Definition js_id (o : option ID) : ID := default "" o.

(** Modelled from the spec: [signInError] of [../utils] (not among the
    sources) raises the [NotAuthenticated] signal. *)
Definition signInError : prog unit := Throw NotAuthenticated.

(** Modelled from the spec: [itemOwnershipError] of [../utils] (not among
    the sources) raises the [OwnershipDenied] signal. *)
Definition itemOwnershipError : prog unit := Throw OwnershipDenied.

(** Modelled from the spec: [hasPermission] of [../utils] (not among the
    sources) is the PermissionGuard of section 4.1: it allows when the
    user's permissions meet the needed ones, rejects with [PermissionDenied]
    otherwise, and rejects with [NotAuthenticated] when there is no user. *)
Definition hasPermission (user : option User) (permissionsNeeded : list string)
  : prog unit :=
  match user with
  | None => Throw NotAuthenticated
  | Some u =>
      if existsb (λ p, bool_decide (p ∈ permissionsNeeded)) (user_permissions u)
      then Ret tt
      else Throw PermissionDenied
  end.

Definition when (b : bool) (p : prog unit) : prog unit :=
  if b then p else Ret tt.

Definition createItem (args : obj) (ctx : Context) : prog Item :=
  _ ← when (negb (truthy (req_userId ctx))) signInError;
  _ ← hasPermission (req_user ctx) ["ITEMCREATE"];
  let data := args ∪ {["user" := VConnect (js_id (req_userId ctx))]} in
  item ← call (MCreateItem data);
  Ret item.

Definition updateItem (args : obj) (ctx : Context) : prog Item :=
  let where_id := str_field "id" args in
  item ← call (QItem where_id);
  match item with
  | None => Throw TypeError
  | Some item =>
      let ownsItem := bool_decide (Some (item_user item) = req_userId ctx) in
      _ ← when (negb ownsItem) itemOwnershipError;
      _ ← hasPermission (req_user ctx) ["ITEMUPDATE"];
      let updates := delete "id" args in
      updatedItem ← call (MUpdateItem updates (str_field "id" args));
      Ret updatedItem
  end.

Definition deleteItem (args : obj) (ctx : Context) : prog Item :=
  let where_id := str_field "id" args in
  item ← call (QItem where_id);
  match item with
  | None => Throw TypeError
  | Some item =>
      let ownsItem := bool_decide (Some (item_user item) = req_userId ctx) in
      _ ← when (negb ownsItem) itemOwnershipError;
      _ ← hasPermission (req_user ctx) ["ITEMDELETE"];
      call (MDeleteItem where_id)
  end.

(** [args.email.toLowerCase()] throws a [TypeError] when [args.email] is
    not a string; [createUser] is handed [info], so the [user.id] that is
    signed is there only if the client selected [id]. *)
Definition signup (args : obj) (ctx : Context) : prog User :=
  password ← call (BcryptHash (str_field "password" args));
  match args !! "email" with
  | Some (VStr email) =>
      lowered ← call (ToLowerCase email);
      let data :=
        <["permissions" := VSet ["USER"; "ITEMCREATE"; "ITEMUPDATE"; "ITEMDELETE"]]>
          (<["password" := VStr password]>
             (<["email" := VStr lowered]> args)) in
      user ← call (MCreateUser data);
      token ← call (JwtSign (selected_id (info ctx) user));
      _ ← call (SetCookie token);
      Ret user
  | _ => Throw TypeError
  end.

Definition signin (args : obj) (ctx : Context) : prog User :=
  user ← call (QUser (ByEmail (str_field "email" args)));
  match user with
  | None => Throw (JsError ("No such user found for email " +:+ str_field "email" args))
  | Some user =>
      valid ← call (BcryptCompare (str_field "password" args) (user_password user));
      _ ← when (negb valid) (Throw (JsError "Invalid password!"));
      token ← call (JwtSign (Some (user_id user)));
      _ ← call (SetCookie token);
      Ret user
  end.

Definition signout (args : obj) (ctx : Context) : prog string :=
  _ ← call ClearCookie;
  Ret "Signed out successfully".

Definition dquote : string := String (ascii_of_nat 34) EmptyString.
Definition newline : string := String (ascii_of_nat 10) EmptyString.

Definition reset_mail_text (frontend resetToken : string) : string :=
  "Your Password Reset Token is here! " +:+ newline +:+ newline +:+ " <a href=" +:+ dquote
  +:+ frontend +:+ "/reset?resetToken=" +:+ resetToken +:+ dquote
  +:+ ">Click Here to Reset</a>".

Definition requestReset (E : collaborators) (args : obj) (ctx : Context) : prog string :=
  user ← call (QUser (ByEmail (str_field "email" args)));
  match user with
  | None => Throw (JsError ("No such user found for email " +:+ str_field "email" args))
  | Some user =>
      resetToken ← call (RandomHex 20);
      now ← call DateNow;
      let resetTokenExpiry := now + 3600000 in
      _ ← call (MUpdateUser (ByEmail (str_field "email" args))
                  (<["resetTokenExpiry" := VNum resetTokenExpiry]>
                     {["resetToken" := VStr resetToken]}));
      _ ← call (SendMail
                  (mkMail "help@hoodify.com" (user_email user) "Your Password Reset Token"
                     (makeANiceEmail E (reset_mail_text (FRONTEND_URL E) resetToken))));
      Ret "Success!"
  end.

Definition resetPassword (args : obj) (ctx : Context) : prog User :=
  _ ← when (negb (bool_decide (str_field "password" args = str_field "confirmPassword" args)))
        (Throw (JsError "Passwords do not match"));
  now ← call DateNow;
  found ← call (QUsers (str_field "resetToken" args) (now - 3600000));
  match found with
  | [] => Throw (JsError "This token is either invalid or expired")
  | user :: _ =>
      valid ← call (BcryptCompare (str_field "oldPassword" args) (user_password user));
      _ ← when (negb valid) (Throw (JsError "Invalid current password"));
      password ← call (BcryptHash (str_field "password" args));
      updatedUser ← call (MUpdateUser (ByEmail (user_email user))
                            (<["resetTokenExpiry" := VNull]>
                               (<["resetToken" := VNull]>
                                  {["password" := VStr password]})));
      token ← call (JwtSign (Some (user_id updatedUser)));
      _ ← call (SetCookie token);
      Ret updatedUser
  end.

(** The caller is queried under [info], so [currentUser] carries the
    fields the client selected. *)
Definition updatePermissions (args : obj) (ctx : Context) : prog User :=
  _ ← when (negb (truthy (req_userId ctx))) signInError;
  currentUser ← call (QUser (ById (js_id (req_userId ctx))));
  _ ← hasPermission (selected (info ctx) <$> currentUser) ["ADMIN"; "PERMISSIONUPDATE"];
  call (MUpdateUser (ById (str_field "userId" args))
          {["permissions" := VSet (set_field "permissions" args)]}).

Definition addToCart (args : obj) (ctx : Context) : prog CartItem :=
  let userId := req_userId ctx in
  _ ← when (negb (truthy userId)) signInError;
  found ← call (QCartItems (js_id userId) (str_field "id" args));
  match found with
  | existingCartItem :: _ =>
      call (MUpdateCartItem (ci_id existingCartItem)
              {["quantity" := VNum (js_add (ci_quantity existingCartItem) 1)]})
  | [] =>
      call (MCreateCartItem
              (<["item" := VConnect (str_field "id" args)]>
                 {["user" := VConnect (js_id userId)]}))
  end.

Definition removeFromCart (args : obj) (ctx : Context) : prog CartItem :=
  cartItem ← call (QCartItem (str_field "id" args));
  match cartItem with
  | None => Throw (JsError "No cart item found")
  | Some cartItem =>
      _ ← when (negb (bool_decide (Some (ci_user cartItem) = req_userId ctx)))
            itemOwnershipError;
      call (MDeleteCartItem (str_field "id" args))
  end.

(** [user.cart.reduce((total, cartItem) =>
       total + cartItem.item.price * cartItem.quantity, 0)], in JS numbers;
    reading [price] of a [null] item throws. *)
Fixpoint reduce_total (cart : list CartEntry) (total : Z) : option Z :=
  match cart with
  | [] => Some total
  | cartItem :: rest =>
      match ce_item cartItem with
      | None => None
      | Some item =>
          reduce_total rest (js_add total (js_mul (item_price item) (ce_quantity cartItem)))
      end
  end.

(** [{ ...cartItem.item }] over the fields the query selected. *)
Definition spread_item (it : option Item) : obj :=
  match it with
  | None => ∅
  | Some it =>
      <["title" := VStr (item_title it)]>
        (<["price" := VNum (item_price it)]>
           (<["id" := VStr (item_id it)]>
              (<["description" := VStr (item_description it)]>
                 (<["image" := VStr (item_image it)]>
                    {["largeImage" := VStr (item_largeImage it)]}))))
  end.

Definition orderItem_of (userId : ID) (cartItem : CartEntry) : obj :=
  let orderItem :=
    <["user" := VConnect userId]>
      (<["quantity" := VNum (ce_quantity cartItem)]> (spread_item (ce_item cartItem))) in
  delete "id" orderItem.

Definition createOrder (args : obj) (ctx : Context) : prog Order :=
  let userId := req_userId ctx in
  _ ← when (negb (truthy userId)) signInError;
  user ← call (QUserCart (js_id userId));
  match user with
  | None => Throw TypeError
  | Some (user, cart) =>
      match reduce_total cart 0 with
      | None => Throw TypeError
      | Some amount =>
          charge ← call (StripeCharge (mkChargeReq amount "USD" (str_field "token" args)));
          let orderItems := orderItem_of (js_id userId) <$> cart in
          order ← call (MCreateOrder
                          (mkOrderCreate (charge_amount charge) (charge_id charge)
                             orderItems (js_id userId)));
          let cartItemIds := ce_id <$> cart in
          _ ← call (MDeleteManyCartItems cartItemIds);
          Ret order
      end
  end.

(** The mutation type of the schema: one request per resolver. *)
Inductive mutation : Type :=
| CreateItem | UpdateItem | DeleteItem | Signup | Signin | Signout
| RequestReset | ResetPassword | UpdatePermissions | AddToCart
| RemoveFromCart | CreateOrder.

Inductive response : Type :=
| RItem (i : Item)
| RUser (u : User)
| RMessage (m : string)
| RCartItem (c : CartItem)
| ROrder (o : Order).

Definition resolve (E : collaborators) (m : mutation) (args : obj) (ctx : Context)
  : prog response :=
  match m with
  | CreateItem => x ← createItem args ctx; Ret (RItem x)
  | UpdateItem => x ← updateItem args ctx; Ret (RItem x)
  | DeleteItem => x ← deleteItem args ctx; Ret (RItem x)
  | Signup => x ← signup args ctx; Ret (RUser x)
  | Signin => x ← signin args ctx; Ret (RUser x)
  | Signout => x ← signout args ctx; Ret (RMessage x)
  | RequestReset => x ← requestReset E args ctx; Ret (RMessage x)
  | ResetPassword => x ← resetPassword args ctx; Ret (RUser x)
  | UpdatePermissions => x ← updatePermissions args ctx; Ret (RUser x)
  | AddToCart => x ← addToCart args ctx; Ret (RCartItem x)
  | RemoveFromCart => x ← removeFromCart args ctx; Ret (RCartItem x)
  | CreateOrder => x ← createOrder args ctx; Ret (ROrder x)
  end.

(** ** The sum the spec speaks of *)

(** [item.price * quantity] of one cart entry. *)
Definition line_total (c : CartEntry) : Z :=
  match ce_item c with
  | Some it => item_price it * ce_quantity c
  | None => 0
  end.

(** The sum over all cart entries of [item.price * quantity]. *)
Definition cart_sum (cart : list CartEntry) : Z :=
  foldr Z.add 0 (line_total <$> cart).

(** The magnitudes of the lines, added up. *)
Definition cart_magnitude (cart : list CartEntry) : Z :=
  foldr Z.add 0 ((λ c, Z.abs (line_total c)) <$> cart).

(** A cart whose lines stay, in magnitude and added up, within the integers
    a JS number holds exactly: no product and no partial sum of the
    reduction is rounded. *)
Definition sums_exactly (cart : list CartEntry) : Prop :=
  cart_magnitude cart ≤ 2 ^ 53.

(** ** Checkout, the guard discharged *)

(** The program of a signed-in caller, guard discharged. *)
Definition checkout_body (args : obj) (uid : ID) : prog Order :=
  user ← call (QUserCart uid);
  match user with
  | None => Throw TypeError
  | Some (user, cart) =>
      match reduce_total cart 0 with
      | None => Throw TypeError
      | Some amount =>
          charge ← call (StripeCharge (mkChargeReq amount "USD" (str_field "token" args)));
          order ← call (MCreateOrder
                          (mkOrderCreate (charge_amount charge) (charge_id charge)
                             (orderItem_of uid <$> cart) uid));
          _ ← call (MDeleteManyCartItems (ce_id <$> cart));
          Ret order
      end
  end.

(** The identifiers of the cart items are distinct and were generated by
    the store: none is an identifier the store has yet to hand out. *)
Definition cart_ids_wf (s : store) : Prop :=
  NoDup (ci_id <$> cartItems s) ∧
  ∀ n, (next_id s ≤ n)%N → mkid n ∉ ci_id <$> cartItems s.

(** The identifiers of the items, and of the users, were generated by the
    store: none is an identifier the store has yet to hand out. *)
Definition item_ids_generated (s : store) : Prop :=
  ∀ n, (next_id s ≤ n)%N → mkid n ∉ item_id <$> items s.

Definition user_ids_generated (s : store) : Prop :=
  ∀ n, (next_id s ≤ n)%N → mkid n ∉ user_id <$> users s.

(** The cart item with [quantity + 1], in JS numbers, as its quantity. *)
Definition incremented (c : CartItem) : CartItem :=
  mkCartItem (ci_id c) (js_add (ci_quantity c) 1) (ci_item c) (ci_user c).

(** ** Guards come before writes: the discipline *)

(** The calls that leave the world as it is and cannot fail: the queries
    and the pure helpers. *)
Definition reads_only {X} (c : eff X) : bool :=
  match c with
  | QItem _ | QUser _ | QUserCart _ | QUsers _ _ | QCartItems _ _ | QCartItem _
  | BcryptHash _ | BcryptCompare _ _ | JwtSign _ | ToLowerCase _ | DateNow => true
  | _ => false
  end.

(** No guard signal is raised anywhere in the program. *)
Fixpoint never_guard {A} (p : prog A) : Prop :=
  match p with
  | Ret _ => True
  | Throw e => is_guard_failure e = false
  | Vis c k => ∀ x, never_guard (k x)
  end.

(** Every guard signal the program can raise is raised while all the calls
    made so far were read-only ones. *)
Fixpoint guards_first {A} (p : prog A) : Prop :=
  match p with
  | Ret _ => True
  | Throw _ => True
  | Vis c k => if reads_only c then ∀ x, guards_first (k x) else ∀ x, never_guard (k x)
  end.

(** ** A shop to run the resolvers in *)

(** A gateway that accepts any charge of at least 50 minor units. *)
Definition accepting_gateway (seen : list ChargeReq) (req : ChargeReq) : string + Charge :=
  if cr_amount req <? 50 then inl "amount_too_small"
  else inr (mkCharge ("ch_" +:+ pretty (List.length seen)) (cr_amount req)).

Definition declining_gateway (seen : list ChargeReq) (req : ChargeReq) : string + Charge :=
  inl "card_declined".

Definition shop_collaborators (gateway : list ChargeReq → ChargeReq → string + Charge)
  : collaborators :=
  {| stripe_charges_create := gateway;
     bcrypt_hash := λ p, "$2a$10$" +:+ p;
     bcrypt_compare := λ p h, bool_decide (h = "$2a$10$" +:+ p);
     jwt_sign := λ uid, "jwt." +:+ uid;
     jwt_sign_undefined := "jwt";
     randomBytes_hex := λ e n, pretty e;
     makeANiceEmail := λ text, "<div>" +:+ text +:+ "</div>";
     FRONTEND_URL := "http://localhost:7777";
     String_toLowerCase := toLowerCase |}.

Definition shopE : collaborators := shop_collaborators accepting_gateway.
Definition declinedE : collaborators := shop_collaborators declining_gateway.

Definition ann : User :=
  mkUser "u1" "Ann" "ann@shop.org" "$2a$10$pw1"
    ["USER"; "ITEMCREATE"; "ITEMUPDATE"] None None.
Definition bob : User :=
  mkUser "u2" "Bob" "bob@shop.org" "$2a$10$pw2"
    ["USER"; "ITEMCREATE"; "ITEMUPDATE"; "ITEMDELETE"] (Some "tok") (Some 9999999).
Definition cat : User :=
  mkUser "u3" "Cat" "cat@shop.org" "$2a$10$pw3" ["USER"] None None.

Definition hat : Item := mkItem "i1" "Hat" "A hat" "hat.png" "hat-l.png" 500 "u1".
Definition sock : Item := mkItem "i2" "Sock" "A sock" "sock.png" "sock-l.png" 300 "u2".
Definition scarf : Item := mkItem "i3" "Scarf" "A scarf" "scarf.png" "scarf-l.png" 700 "u2".

(** Ann's cart is the one of the spec's example: (500, 2) and (300, 1).
    The clock stands one millisecond after the expiry of Bob's token. *)
Definition shop : world :=
  {| db := {| items := [hat; sock; scarf];
              users := [ann; bob; cat];
              cartItems := [mkCartItem "k1" 2 "i1" "u1"; mkCartItem "k2" 1 "i2" "u1";
                            mkCartItem "k3" 1 "i2" "u2"];
              orders := [];
              next_id := 10 |};
     writes := [];
     charges := [];
     cookies := [];
     outbox := [];
     clock := 10000000;
     entropy := 0 |}.

(** The shop's client selects these fields of a user it is answered. *)
Definition user_fields : list string := ["id"; "name"; "email"; "permissions"].

Definition ann_ctx : Context := mkContext (Some "u1") (Some ann) user_fields.
Definition bob_ctx : Context := mkContext (Some "u2") (Some bob) user_fields.
Definition cat_ctx : Context := mkContext (Some "u3") (Some cat) user_fields.
Definition anonymous : Context := mkContext None None user_fields.

Definition token_args : obj := {["token" := VStr "tok_visa"]}.

Definition ann_order : Order :=
  mkOrder "c10" 1300 "ch_0"
    [mkOrderItem "c11" "Hat" "A hat" "hat.png" "hat-l.png" 500 2 "u1";
     mkOrderItem "c12" "Sock" "A sock" "sock.png" "sock-l.png" 300 1 "u1"]
    "u1".

(** Between the charge and the order creation of Ann's checkout, another
    request of Ann's puts a scarf in her cart. *)
Definition scarf_added (n : nat) (w : world) : world :=
  if bool_decide (n = 2%nat)
  then (run shopE (addToCart {["id" := VStr "i3"]} ann_ctx) w).2
  else w.

Definition reset_args : obj :=
  <["resetToken" := VStr "tok"]>
    (<["password" := VStr "fresh"]>
       (<["confirmPassword" := VStr "fresh"]> {["oldPassword" := VStr "pw2"]})).

Definition dora_args (email : string) : obj :=
  <["email" := VStr email]>
    (<["name" := VStr "Dora"]> {["password" := VStr "pw4"]}).

Definition dora : User :=
  mkUser "c10" "Dora" "dora@shop.org" "$2a$10$pw4"
    ["USER"; "ITEMCREATE"; "ITEMUPDATE"; "ITEMDELETE"] None None.

Definition ann_cart : list CartEntry :=
  [mkCartEntry "k1" 2 (Some hat); mkCartEntry "k2" 1 (Some sock)].

Definition ann_checkout : (error + Order) * world :=
  run shopE (createOrder token_args ann_ctx) shop.

Definition ann_order_after_scarf : Order :=
  mkOrder "c11" 1300 "ch_0"
    [mkOrderItem "c12" "Hat" "A hat" "hat.png" "hat-l.png" 500 2 "u1";
     mkOrderItem "c13" "Sock" "A sock" "sock.png" "sock-l.png" 300 1 "u1"]
    "u1".

Definition ann_checkout_interleaved : (error + Order) * world * list world :=
  run_env shopE scarf_added 0 (createOrder token_args ann_ctx) shop.

Definition hat_args : obj := {["id" := VStr "i1"]}.
Definition scarf_args : obj := {["id" := VStr "i3"]}.
Definition cap_args : obj := <["title" := VStr "Cap"]> {["id" := VStr "i1"]}.

(** A shop at the end of the datamodel's [Int] range: one item whose price
    is the largest 32-bit integer, in Ann's cart in that quantity. *)
Definition yacht : Item :=
  mkItem "i7" "Yacht" "A yacht" "yacht.png" "yacht-l.png" 2147483647 "u2".

Definition marina : world :=
  {| db := {| items := [yacht];
              users := [ann; bob];
              cartItems := [mkCartItem "k7" 2147483647 "i7" "u1"];
              orders := [];
              next_id := 10 |};
     writes := [];
     charges := [];
     cookies := [];
     outbox := [];
     clock := 10000000;
     entropy := 0 |}.

Definition yacht_cart : list CartEntry :=
  [mkCartEntry "k7" 2147483647 (Some yacht)].

(** ** Notions for the resolvers at large *)

(** Time passes: the clock shows [t] and nothing else has changed. *)
Definition set_clock (w : world) (t : Z) : world :=
  mkWorld (db w) (writes w) (charges w) (cookies w) (outbox w) t (entropy w).

(** The sum over an order's items of [price * quantity]. *)
Definition order_items_sum (o : Order) : Z :=
  foldr Z.add 0 ((λ oi, oi_price oi * oi_quantity oi) <$> order_items o).

(** The program makes none of the calls [bad] singles out. *)
Fixpoint calls_none {A} (bad : ∀ X, eff X → bool) (p : prog A) : Prop :=
  match p with
  | Ret _ => True
  | Throw _ => True
  | Vis c k => bad _ c = false ∧ ∀ x, calls_none bad (k x)
  end.

Definition is_charge {X} (c : eff X) : bool :=
  match c with StripeCharge _ => true | _ => false end.

Definition creates_order {X} (c : eff X) : bool :=
  match c with MCreateOrder _ => true | _ => false end.

Definition writes_items {X} (c : eff X) : bool :=
  match c with MCreateItem _ | MUpdateItem _ _ | MDeleteItem _ => true | _ => false end.

Definition writes_users {X} (c : eff X) : bool :=
  match c with MCreateUser _ | MUpdateUser _ _ => true | _ => false end.

Definition writes_cart {X} (c : eff X) : bool :=
  match c with
  | MUpdateCartItem _ _ | MCreateCartItem _ | MDeleteCartItem _
  | MDeleteManyCartItems _ => true
  | _ => false
  end.

Definition sends_mail {X} (c : eff X) : bool :=
  match c with SendMail _ => true | _ => false end.

(** The order item is the copy of the cart entry's item: its title,
    description, images and price, with the entry's quantity, for [uid]. *)
Definition snapshot_of (uid : ID) (oi : OrderItem) (c : CartEntry) : Prop :=
  ∃ it, ce_item c = Some it ∧
        oi = mkOrderItem (oi_id oi) (item_title it) (item_description it)
               (item_image it) (item_largeImage it) (item_price it)
               (ce_quantity c) uid.

(** The payload of an order item made from a cart entry: the fields of the
    entry's item that the cart query selected, but for its [id], with the
    entry's quantity and the connection to [uid]. *)
Definition orderItem_payload (uid : ID) (it : Item) (quantity : Z) : obj :=
  <["user" := VConnect uid]>
    (<["quantity" := VNum quantity]>
       (<["title" := VStr (item_title it)]>
          (<["price" := VNum (item_price it)]>
             (<["description" := VStr (item_description it)]>
                (<["image" := VStr (item_image it)]>
                   {["largeImage" := VStr (item_largeImage it)]}))))).

Definition payload_of (uid : ID) (d : obj) (c : CartEntry) : Prop :=
  ∃ it, ce_item c = Some it ∧
        d = orderItem_payload uid it (ce_quantity c) ∧
        d !! "id" = None.

(** Another checkout of the same caller runs, start to end, between the
    cart query and the charge of the one observed; likewise another
    add-to-cart between the query and the write. *)
Definition overlapped (E : collaborators) (other : prog Order) (n : nat) (w : world)
  : world :=
  if bool_decide (n = 1%nat) then (run E other w).2 else w.

Definition overlapped_add (E : collaborators) (other : prog CartItem) (n : nat)
    (w : world) : world :=
  if bool_decide (n = 1%nat) then (run E other w).2 else w.

(** The tables a mutation is in a position to write. *)
Definition may_write_items (m : mutation) : bool :=
  match m with CreateItem | UpdateItem | DeleteItem => true | _ => false end.

Definition may_write_users (m : mutation) : bool :=
  match m with
  | Signup | RequestReset | ResetPassword | UpdatePermissions => true
  | _ => false
  end.

Definition may_write_cart (m : mutation) : bool :=
  match m with AddToCart | RemoveFromCart | CreateOrder => true | _ => false end.

Definition may_send_mail (m : mutation) : bool :=
  match m with RequestReset => true | _ => false end.

(** ** More of the shop *)

Definition mug : Item := mkItem "i4" "Mug" "A mug" "mug.png" "mug-l.png" 900 "u3".

(** Cat, who holds [USER] only, has put a mug on sale. *)
Definition shop_with_mug : world :=
  set_db shop (set_items (db shop) (items (db shop) ++ [mug])).

Definition eve : User :=
  mkUser "u9" "Eve" "eve@shop.org" "$2a$10$pw9" ["USER"; "ADMIN"] None None.

Definition shop_with_admin : world :=
  set_db shop (set_users (db shop) (users (db shop) ++ [eve])).

Definition eve_ctx : Context := mkContext (Some "u9") (Some eve) user_fields.

(** A request with Ann's identifier whose user claims Eve's permissions. *)
Definition forged_ctx : Context := mkContext (Some "u1") (Some eve) user_fields.

Definition k1_args : obj := {["id" := VStr "k1"]}.
Definition sock_args : obj := {["id" := VStr "i2"]}.
Definition mug_args : obj := {["id" := VStr "i4"]}.
Definition missing_args : obj := {["id" := VStr "nope"]}.

Definition glove_args : obj :=
  <["title" := VStr "Glove"]>
    (<["description" := VStr "A glove"]>
       (<["image" := VStr "glove.png"]>
          (<["largeImage" := VStr "glove-l.png"]> {["price" := VNum 450]}))).

Definition ann_signin_args : obj :=
  <["email" := VStr "ann@shop.org"]> {["password" := VStr "pw1"]}.

Definition nobody_args : obj := {["email" := VStr "nobody@shop.org"]}.

(** The first token the shop's [randomBytes] draws is "0", the second "1". *)
Definition ann_reset_args : obj :=
  <["resetToken" := VStr "0"]>
    (<["password" := VStr "fresh"]>
       (<["confirmPassword" := VStr "fresh"]> {["oldPassword" := VStr "pw1"]})).

Definition mismatch_args : obj :=
  <["resetToken" := VStr "tok"]>
    (<["password" := VStr "fresh"]>
       (<["confirmPassword" := VStr "stale"]> {["oldPassword" := VStr "pw2"]})).

Definition wrong_old_args : obj :=
  <["resetToken" := VStr "tok"]>
    (<["password" := VStr "fresh"]>
       (<["confirmPassword" := VStr "fresh"]> {["oldPassword" := VStr "guess"]})).

Definition grant_args : obj :=
  <["userId" := VStr "u3"]> {["permissions" := VSet ["USER"; "ITEMCREATE"]]}.

(** The mail transport refuses the connection. *)
Definition mail_down : faults :=
  λ X c w, match c with
           | SendMail _ => Some (JsError "connect ECONNREFUSED")
           | _ => None
           end.

(** The binding rejects the deletion of cart items. *)
Definition cart_deletion_down : faults :=
  λ X c w, match c with
           | MDeleteManyCartItems _ => Some (PersistenceError "request failed")
           | _ => None
           end.

(** The shop after Bob has deleted the sock that is in Ann's cart. *)
Definition shop_without_sock : world :=
  (run shopE (deleteItem sock_args bob_ctx) shop).2.

(** ** Facts about the interpreter *)

Section InterpreterFacts.
Context (E : collaborators).

Lemma run_bind {A B} (p : prog A) (f : A → prog B) (w : world) :
  run E (p ≫= f) w =
  match run E p w with
  | (inl e, w') => (inl e, w')
  | (inr a, w') => run E (f a) w'
  end.
Proof.
  revert w. induction p as [a|e|X c k IH]; intros w; simpl; try done.
  destruct (handle E c w) as [[e|x] w']; [done|]. apply IH.
Qed.

Lemma run_call {X} (c : eff X) (w : world) : run E (call c) w = handle E c w.
Proof. unfold call. simpl. by destruct (handle E c w) as [[?|?] ?]. Qed.

(** When no call rejects the request runs as [run] has it. *)
Lemma run_faulty_no_fault {A} (F : faults) (p : prog A) (w : world) :
  (∀ X (c : eff X) w0, F X c w0 = None) → run_faulty E F p w = run E p w.
Proof.
  intros HF. revert w. induction p as [a|e|X c k IH]; intros w; simpl; try done.
  unfold handle_faulty. rewrite HF.
  destruct (handle E c w) as [[e|x] w']; [done|]. apply IH.
Qed.

Lemma run_faulty_bind {A B} (F : faults) (p : prog A) (f : A → prog B) (w : world) :
  run_faulty E F (p ≫= f) w =
  match run_faulty E F p w with
  | (inl e, w') => (inl e, w')
  | (inr a, w') => run_faulty E F (f a) w'
  end.
Proof.
  revert w. induction p as [a|e|X c k IH]; intros w; simpl; try done.
  destruct (handle_faulty E F c w) as [[e|x] w']; [done|]. apply IH.
Qed.

(** Running alone is running among others that do nothing. *)
Lemma run_env_alone {A} (p : prog A) (n : nat) (w : world) :
  (run_env E (λ _ w, w) n p w).1 = run E p w.
Proof.
  revert n w. induction p as [a|e|X c k IH]; intros n w; simpl; try done.
  destruct (handle E c w) as [[e|x] w']; [done|].
  specialize (IH x (S n) w').
  destruct (run_env E (λ _ w0, w0) (S n) (k x) w') as [[r wf] h]. exact IH.
Qed.
End InterpreterFacts.

(** ** Facts about the store *)

Lemma cart_sum_cons (c : CartEntry) (cart : list CartEntry) :
  cart_sum (c :: cart) = line_total c + cart_sum cart.
Proof. reflexivity. Qed.

Lemma cart_magnitude_cons (c : CartEntry) (cart : list CartEntry) :
  cart_magnitude (c :: cart) = Z.abs (line_total c) + cart_magnitude cart.
Proof. reflexivity. Qed.

Lemma cart_magnitude_nonneg (cart : list CartEntry) : 0 ≤ cart_magnitude cart.
Proof.
  induction cart as [|c cart IH]; [done|]. rewrite cart_magnitude_cons. lia.
Qed.

(** An integer of magnitude at most 2^53 is a JS number: nothing is
    rounded. *)
Lemma js_round_exact (x : Z) : Z.abs x ≤ 2 ^ 53 → js_round x = x.
Proof.
  intros Hx. unfold js_round. cbv zeta.
  destruct (Z.abs x <? 2 ^ 53) eqn:Hlt; [done|].
  apply Z.ltb_ge in Hlt.
  assert (Ha : Z.abs x = 2 ^ 53) by lia. rewrite Ha.
  destruct (Z.abs_eq_or_opp x) as [Hx'|Hx']; rewrite Hx' in Ha.
  - subst x. reflexivity.
  - assert (x = - 2 ^ 53) as -> by lia. reflexivity.
Qed.

(** The reduction answers when, and only when, no entry's item is gone. *)
Lemma reduce_total_items (cart : list CartEntry) (total amount : Z) :
  reduce_total cart total = Some amount → Forall (λ c, is_Some (ce_item c)) cart.
Proof.
  revert total. induction cart as [|c cart IH]; intros total H; simpl in *.
  - constructor.
  - destruct (ce_item c) as [it|] eqn:Hit; [|discriminate].
    constructor; [rewrite Hit; eauto | by eapply IH].
Qed.

Lemma reduce_total_is_Some (cart : list CartEntry) (total : Z) :
  Forall (λ c, is_Some (ce_item c)) cart → is_Some (reduce_total cart total).
Proof.
  intros HF. revert total. induction HF as [|c cart [it Hit] _ IH]; intros total; simpl.
  - eauto.
  - rewrite Hit. apply IH.
Qed.

(** Within the exact range the reduction is the sum in the integers. *)
Lemma reduce_total_exact (cart : list CartEntry) (total amount : Z) :
  Z.abs total + cart_magnitude cart ≤ 2 ^ 53 →
  reduce_total cart total = Some amount →
  amount = total + cart_sum cart.
Proof.
  revert total. induction cart as [|c cart IH]; intros total Hb H; simpl in H.
  - injection H as <-. unfold cart_sum. simpl. lia.
  - rewrite cart_magnitude_cons in Hb.
    pose proof (cart_magnitude_nonneg cart) as Hm.
    assert (Hl : line_total c =
                 match ce_item c with
                 | Some it => item_price it * ce_quantity c
                 | None => 0
                 end) by reflexivity.
    destruct (ce_item c) as [it|] eqn:Hit; [|discriminate].
    unfold js_add, js_mul in H.
    rewrite (js_round_exact (item_price it * ce_quantity c)) in H by lia.
    rewrite js_round_exact in H by lia.
    apply IH in H; [|lia]. rewrite cart_sum_cons, Hl. lia.
Qed.

Lemma reduce_total_sum (cart : list CartEntry) (amount : Z) :
  sums_exactly cart → reduce_total cart 0 = Some amount → amount = cart_sum cart.
Proof.
  intros Hb H. apply reduce_total_exact in H; [lia|].
  unfold sums_exactly in Hb. simpl. lia.
Qed.

Lemma truthy_Some (o : option ID) :
  truthy o = true ↔ ∃ uid, o = Some uid ∧ uid ≠ "".
Proof.
  destruct o as [s|]; simpl.
  - rewrite negb_true_iff, bool_decide_eq_false. split.
    + intros Hs. by exists s.
    + intros (uid & Huid & Hne). by injection Huid as ->.
  - split; [discriminate|]. by intros (uid & Huid & _).
Qed.

Lemma elem_of_remove_where {A} (p : A → bool) (l : list A) (x : A) :
  x ∈ remove_where p l ↔ x ∈ l ∧ p x = false.
Proof.
  unfold remove_where. rewrite !list_elem_of_In, filter_In, negb_true_iff. done.
Qed.

(** ** Checkout *)

Section Checkout.
Context (E : collaborators).

Lemma createOrder_signed_in (args : obj) (ctx : Context) (uid : ID) :
  req_userId ctx = Some uid → uid ≠ "" →
  createOrder args ctx = checkout_body args uid.
Proof.
  intros Hu Hne. unfold createOrder, checkout_body, truthy. rewrite Hu.
  rewrite bool_decide_eq_false_2 by done. reflexivity.
Qed.

Lemma createOrder_anonymous (args : obj) (ctx : Context) :
  truthy (req_userId ctx) = false →
  createOrder args ctx = Throw NotAuthenticated.
Proof. intros Hu. unfold createOrder. rewrite Hu. reflexivity. Qed.

(** The four calls of a checkout, each made in the world the rest of the
    system has left: the cart query, the charge, the order creation and
    the deletion of the cart items. *)
Lemma checkout_body_run_env (env : nat → world → world) (args : obj) (uid : ID)
    (w : world) :
  run_env E env 0 (checkout_body args uid) w =
  let w0 := env 0%nat w in
  match query_user_cart (db w0) uid with
  | None => (inl TypeError, w0, [w0])
  | Some (user, cart) =>
      match reduce_total cart 0 with
      | None => (inl TypeError, w0, [w0])
      | Some amount =>
          let req := mkChargeReq amount "USD" (str_field "token" args) in
          let w1 := env 1%nat w0 in
          match stripe_charges_create E (charges w1) req with
          | inl reason => (inl (PaymentFailed reason), log_charge req w1, [w0; w1])
          | inr charge =>
              let data := mkOrderCreate (charge_amount charge) (charge_id charge)
                            (orderItem_of uid <$> cart) uid in
              let w2 := env 2%nat (log_charge req w1) in
              let created := db_createOrder data (db w2) in
              let w3 := env 3%nat (log_write (WCreateOrder data) (set_db w2 created.2)) in
              let ids := ce_id <$> cart in
              (inr created.1,
               log_write (WDeleteManyCartItems ids)
                 (set_db w3 (db_deleteManyCartItems ids (db w3)).2),
               [w0; w1; w2; w3])
          end
      end
  end.
Proof.
  unfold checkout_body. simpl.
  destruct (query_user_cart (db (env 0%nat w)) uid) as [[user cart]|]; [|done].
  destruct (reduce_total cart 0) as [amount|]; [|done]. simpl.
  destruct (stripe_charges_create E _ _) as [reason|charge]; done.
Qed.
End Checkout.

Section CheckoutClaims.
Context (E : collaborators).

Lemma createOrder_run_cases (args : obj) (ctx : Context) (w : world) :
  (truthy (req_userId ctx) = false ∧
   run E (createOrder args ctx) w = (inl NotAuthenticated, w)) ∨
  (∃ uid, req_userId ctx = Some uid ∧ uid ≠ "" ∧
     run E (createOrder args ctx) w =
     (run_env E (λ _ w, w) 0 (checkout_body args uid) w).1).
Proof.
  destruct (truthy (req_userId ctx)) eqn:Hu.
  - right. apply truthy_Some in Hu as (uid & Hu & Hne). exists uid.
    split_and!; [done..|].
    by rewrite (createOrder_signed_in args ctx uid), run_env_alone.
  - left. split; [done|]. by rewrite createOrder_anonymous.
Qed.

(** C1, amended: a checkout that succeeds has submitted to the gateway the
    amount the reduction over the caller's cart computed, in JS numbers;
    that amount is the sum over the cart entries of [item.price * quantity]
    in the integers whenever the cart sums exactly, that is, the line
    magnitudes add up to at most 2^53.  The order it persisted carries the
    gateway's confirmed amount as its [total] and the charge's identifier
    as its [charge]. *)
Theorem createOrder_total_and_charge (args : obj) (ctx : Context) (w w' : world)
    (order : Order) :
  run E (createOrder args ctx) w = (inr order, w') →
  ∃ uid user cart amount charge,
    req_userId ctx = Some uid ∧
    query_user_cart (db w) uid = Some (user, cart) ∧
    Forall (λ c, is_Some (ce_item c)) cart ∧
    reduce_total cart 0 = Some amount ∧
    (sums_exactly cart → amount = cart_sum cart) ∧
    charges w' =
      charges w ++ [mkChargeReq amount "USD" (str_field "token" args)] ∧
    stripe_charges_create E (charges w)
      (mkChargeReq amount "USD" (str_field "token" args)) = inr charge ∧
    order_total order = charge_amount charge ∧
    order_charge order = charge_id charge ∧
    order ∈ orders (db w').
Proof.
  intros H.
  destruct (createOrder_run_cases args ctx w) as [[_ Hr]|(uid & Hu & Hne & Hr)];
    rewrite Hr in H; [discriminate|].
  rewrite checkout_body_run_env in H. simpl in H.
  destruct (query_user_cart (db w) uid) as [[user cart]|] eqn:Hq; [|discriminate].
  destruct (reduce_total cart 0) as [amount|] eqn:Ha; [|discriminate].
  destruct (stripe_charges_create E _ _) as [reason|charge] eqn:Hc; [discriminate|].
  simpl in H. injection H as <- <-.
  exists uid, user, cart, amount, charge. split_and!; try done.
  - by eapply reduce_total_items.
  - intros Hb. by apply reduce_total_sum.
  - simpl. apply elem_of_app. right. apply list_elem_of_singleton. done.
Qed.

(** C2: when the gateway answers the charge with an error, the checkout
    fails with that error; no order (hence no order item) is created, no
    mutation is requested from persistence and every cart item is as it
    was. *)
Theorem createOrder_charge_error (args : obj) (ctx : Context) (w : world)
    (uid : ID) (user : User) (cart : list CartEntry) (amount : Z) (reason : string) :
  req_userId ctx = Some uid → uid ≠ "" →
  query_user_cart (db w) uid = Some (user, cart) →
  reduce_total cart 0 = Some amount →
  stripe_charges_create E (charges w)
    (mkChargeReq amount "USD" (str_field "token" args)) = inl reason →
  ∃ w', run E (createOrder args ctx) w = (inl (PaymentFailed reason), w') ∧
        orders (db w') = orders (db w) ∧
        cartItems (db w') = cartItems (db w) ∧
        db w' = db w ∧
        writes w' = writes w.
Proof.
  intros Hu Hne Hq Ha Hc.
  rewrite (createOrder_signed_in args ctx uid), <- run_env_alone with (n := 0%nat)
    by done.
  rewrite checkout_body_run_env. simpl. rewrite Hq, Ha, Hc. simpl.
  eexists. split_and!; reflexivity.
Qed.

(** C3: a checkout that succeeds, whatever the rest of the system does
    between its calls, deletes the cart items whose identifiers it fetched
    before the charge and no other: none of the fetched identifiers
    remains, and every cart item present when the deletion is requested
    whose identifier was not fetched (one created after the fetch) is still
    there, unchanged. *)
Theorem createOrder_clears_fetched_cart (env : nat → world → world) (args : obj)
    (ctx : Context) (w w' : world) (order : Order) (h : list world) :
  run_env E env 0 (createOrder args ctx) w = (inr order, w', h) →
  ∃ uid user cart w_fetch w_charge w_create w_delete,
    h = [w_fetch; w_charge; w_create; w_delete] ∧
    w_fetch = env 0%nat w ∧
    req_userId ctx = Some uid ∧
    query_user_cart (db w_fetch) uid = Some (user, cart) ∧
    ce_id <$> cart =
      ci_id <$> List.filter (λ c, bool_decide (ci_user c = uid)) (cartItems (db w_fetch)) ∧
    cartItems (db w') =
      List.filter (λ c, negb (bool_decide (ci_id c ∈ ce_id <$> cart)))
        (cartItems (db w_delete)) ∧
    (∀ c, c ∈ cartItems (db w') → ci_id c ∉ ce_id <$> cart) ∧
    (∀ c, c ∈ cartItems (db w_delete) → ci_id c ∉ ce_id <$> cart →
          c ∈ cartItems (db w')).
Proof.
  intros H.
  destruct (truthy (req_userId ctx)) eqn:Hu.
  2: { rewrite createOrder_anonymous in H by done. discriminate. }
  apply truthy_Some in Hu as (uid & Hu & Hne).
  rewrite (createOrder_signed_in args ctx uid), checkout_body_run_env in H by done.
  simpl in H.
  destruct (query_user_cart (db (env 0%nat w)) uid) as [[user cart]|] eqn:Hq;
    [|discriminate].
  destruct (reduce_total cart 0) as [amount|] eqn:Ha; [|discriminate].
  destruct (stripe_charges_create E _ _) as [reason|charge] eqn:Hc; [discriminate|].
  simpl in H. injection H as <- <- <-.
  eexists uid, user, cart, _, _, _, _. split_and!; try done.
  - unfold query_user_cart in Hq.
    destruct (find_user _ _); [|discriminate]. injection Hq as _ <-.
    unfold cart_of. rewrite <- list_fmap_compose. done.
  - simpl. intros c Hc'. apply elem_of_remove_where in Hc' as [_ Hc'].
    by apply bool_decide_eq_false in Hc'.
  - simpl. intros c Hin Hni. apply elem_of_remove_where. split; [done|].
    by apply bool_decide_eq_false.
Qed.

(** C7: a signed-in caller with an empty cart is not turned away: the
    computed total is 0 and a charge of amount 0 is submitted to the
    gateway, whose answer decides the outcome. *)
Theorem createOrder_empty_cart_charges_zero (args : obj) (ctx : Context) (w : world)
    (uid : ID) (user : User) :
  req_userId ctx = Some uid → uid ≠ "" →
  query_user_cart (db w) uid = Some (user, []) →
  reduce_total [] 0 = Some 0 ∧
  ∃ r w', run E (createOrder args ctx) w = (r, w') ∧
    charges w' = charges w ++ [mkChargeReq 0 "USD" (str_field "token" args)] ∧
    match stripe_charges_create E (charges w)
            (mkChargeReq 0 "USD" (str_field "token" args)) with
    | inl reason => r = inl (PaymentFailed reason)
    | inr charge =>
        ∃ order, r = inr order ∧ order_items order = [] ∧
                 order_total order = charge_amount charge ∧
                 order ∈ orders (db w')
    end.
Proof.
  intros Hu Hne Hq. split; [done|].
  rewrite (createOrder_signed_in args ctx uid), <- run_env_alone with (n := 0%nat)
    by done.
  rewrite checkout_body_run_env. simpl. rewrite Hq. simpl.
  destruct (stripe_charges_create E _ _) as [reason|charge] eqn:Hc; simpl.
  - eexists _, _. split_and!; done.
  - eexists _, _. split_and!; try done.
    eexists. split_and!; try done.
    simpl. apply elem_of_app. right. by apply list_elem_of_singleton.
Qed.
End CheckoutClaims.

(** ** Lists of nodes with unique identifiers *)

Section UniqueKeys.
Context {A : Type} (key : A → ID).

Lemma find_unique (l : list A) (c : A) :
  NoDup (key <$> l) → c ∈ l →
  List.find (λ x, bool_decide (key x = key c)) l = Some c.
Proof.
  induction l as [|x l IH]; intros Hnd Hin; [by apply elem_of_nil in Hin|].
  simpl in *. apply NoDup_cons in Hnd as [Hx Hnd].
  apply elem_of_cons in Hin as [->|Hin].
  - by rewrite bool_decide_eq_true_2.
  - rewrite bool_decide_eq_false_2; [by apply IH|].
    intros Heq. apply Hx. rewrite Heq. by apply list_elem_of_fmap_2.
Qed.

Lemma update_where_unique (g : A → A) (l : list A) (i : nat) (c : A) :
  NoDup (key <$> l) → l !! i = Some c →
  update_where (λ x, bool_decide (key x = key c)) g l = <[i := g c]> l.
Proof.
  revert i. induction l as [|x l IH]; intros i Hnd Hi; [done|].
  simpl in Hnd. apply NoDup_cons in Hnd as [Hx Hnd].
  unfold update_where in *. destruct i as [|i]; simpl in *.
  - injection Hi as ->. rewrite bool_decide_eq_true_2 by done. f_equal.
    clear IH. induction l as [|y l IH]; [done|]. simpl in *.
    apply not_elem_of_cons in Hx as [Hy Hx]. apply NoDup_cons in Hnd as [_ Hnd].
    rewrite bool_decide_eq_false_2 by done. f_equal. by apply IH.
  - rewrite bool_decide_eq_false_2; [f_equal; by apply IH|].
    intros Heq. apply Hx. rewrite Heq.
    apply list_elem_of_fmap_2. by eapply list_elem_of_lookup_2.
Qed.

Lemma update_where_absent (g : A → A) (l : list A) (k : ID) :
  k ∉ key <$> l → update_where (λ x, bool_decide (key x = k)) g l = l.
Proof.
  induction l as [|x l IH]; intros Hk; [done|]. unfold update_where in *. simpl in *.
  apply not_elem_of_cons in Hk as [Hx Hk].
  rewrite bool_decide_eq_false_2 by done. f_equal. by apply IH.
Qed.
End UniqueKeys.

Lemma filter_head_elem_of {A} (p : A → bool) (l : list A) (c : A) (rest : list A) :
  List.filter p l = c :: rest → c ∈ l ∧ p c = true.
Proof.
  intros H. assert (Hin : In c (List.filter p l)) by (rewrite H; by left).
  apply filter_In in Hin as [Hin Hp]. split; [by apply list_elem_of_In|done].
Qed.

Lemma filter_first {A} (p : A → bool) (l : list A) (i : nat) (c : A) :
  l !! i = Some c → p c = true →
  (∀ j c', (j < i)%nat → l !! j = Some c' → p c' = false) →
  ∃ rest, List.filter p l = c :: rest.
Proof.
  revert i. induction l as [|x l IH]; intros i Hi Hc Hfirst; [done|].
  destruct i as [|i]; simpl in *.
  - injection Hi as ->. rewrite Hc. by eexists.
  - rewrite (Hfirst 0%nat x) by (done || lia).
    apply (IH i); [done..|].
    intros j c' Hj Hc'. apply (Hfirst (S j)); [lia|done].
Qed.

Lemma filter_nil_forall {A} (p : A → bool) (l : list A) :
  (∀ x, x ∈ l → p x = false) → List.filter p l = [].
Proof.
  induction l as [|x l IH]; intros H; [done|]. simpl.
  rewrite (H x) by (by left). apply IH. intros y Hy. apply H. by right.
Qed.

Lemma cart_matches_true (uid iid : ID) (c : CartItem) :
  ci_user c = uid → ci_item c = iid → cart_matches uid iid c = true.
Proof. intros Hu Hi. unfold cart_matches. by rewrite !bool_decide_eq_true_2. Qed.

Lemma cart_matches_false (uid iid : ID) (c : CartItem) :
  ¬ (ci_user c = uid ∧ ci_item c = iid) → cart_matches uid iid c = false.
Proof.
  intros H. unfold cart_matches.
  destruct (decide (ci_user c = uid)) as [Hu|Hu].
  - rewrite bool_decide_eq_true_2 by done.
    rewrite bool_decide_eq_false_2; [done|]. intros Hi. by apply H.
  - by rewrite bool_decide_eq_false_2.
Qed.

Lemma filter_nil_app_singleton {A} (p : A → bool) (l : list A) (x : A) :
  List.filter p l = [] → p x = true → List.filter p (l ++ [x]) = [x].
Proof. intros Hl Hx. rewrite List.filter_app, Hl. simpl. by rewrite Hx. Qed.

Lemma mkid_inj (n m : N) : mkid n = mkid m → n = m.
Proof. unfold mkid. simpl. intros H. injection H as H. by apply (inj pretty). Qed.

(** ** The cart *)

Lemma apply_quantity_update (c : CartItem) (q : Z) :
  apply_cartItem_update {["quantity" := VNum q]} c =
  mkCartItem (ci_id c) q (ci_item c) (ci_user c).
Proof.
  unfold apply_cartItem_update, upd_str, upd_num.
  rewrite lookup_singleton_ne by done. by rewrite lookup_singleton_eq.
Qed.

Lemma cartItem_of_connects (id uid iid : ID) :
  cartItem_of_data id (<["item" := VConnect iid]> {["user" := VConnect uid]}) =
  mkCartItem id 1 iid uid.
Proof.
  unfold cartItem_of_data, connect_field.
  rewrite lookup_insert_ne, lookup_singleton_ne by done.
  rewrite lookup_insert_eq, lookup_insert_ne, lookup_singleton_eq by done.
  reflexivity.
Qed.

Lemma update_where_quantity_ids (p : CartItem → bool) (q : Z) (l : list CartItem) :
  ci_id <$> update_where p (apply_cartItem_update {["quantity" := VNum q]}) l =
  ci_id <$> l.
Proof.
  unfold update_where. induction l as [|x l IH]; [done|].
  rewrite !fmap_cons. f_equal; [|exact IH].
  destruct (p x); [by rewrite apply_quantity_update|done].
Qed.

Section Cart.
Context (E : collaborators).

Lemma addToCart_run (args : obj) (ctx : Context) (w : world) (uid : ID) :
  req_userId ctx = Some uid → uid ≠ "" →
  run E (addToCart args ctx) w =
  match query_cartItems (db w) uid (str_field "id" args) with
  | c :: _ =>
      @wrote CartItem
        (WUpdateCartItem (ci_id c) {["quantity" := VNum (js_add (ci_quantity c) 1)]})
        (db_updateCartItem (ci_id c) {["quantity" := VNum (js_add (ci_quantity c) 1)]} (db w)) w
  | [] =>
      let data := <["item" := VConnect (str_field "id" args)]>
                    {["user" := VConnect uid]} in
      @wrote CartItem (WCreateCartItem data) (inr (db_createCartItem data (db w))) w
  end.
Proof.
  intros Hu Hne. unfold addToCart, truthy. rewrite Hu.
  rewrite bool_decide_eq_false_2 by done. simpl.
  destruct (query_cartItems (db w) uid (str_field "id" args)) as [|c rest]; simpl.
  - done.
  - by destruct (@wrote CartItem _ _ _) as [[?|?] ?].
Qed.

Lemma addToCart_existing (args : obj) (ctx : Context) (w : world) (uid : ID)
    (c : CartItem) (rest : list CartItem) :
  req_userId ctx = Some uid → uid ≠ "" →
  NoDup (ci_id <$> cartItems (db w)) →
  query_cartItems (db w) uid (str_field "id" args) = c :: rest →
  run E (addToCart args ctx) w =
  (inr (incremented c),
   log_write (WUpdateCartItem (ci_id c) {["quantity" := VNum (js_add (ci_quantity c) 1)]})
     (set_db w (set_cartItems (db w)
        (update_where (λ x, bool_decide (ci_id x = ci_id c))
           (apply_cartItem_update {["quantity" := VNum (js_add (ci_quantity c) 1)]})
           (cartItems (db w)))))).
Proof.
  intros Hu Hne Hnd Hq. rewrite (addToCart_run args ctx w uid), Hq by done.
  apply filter_head_elem_of in Hq as [Hin _].
  unfold db_updateCartItem, find_cartItem.
  rewrite (find_unique ci_id) by done. simpl.
  by rewrite apply_quantity_update.
Qed.

Lemma addToCart_absent (args : obj) (ctx : Context) (w : world) (uid : ID) :
  req_userId ctx = Some uid → uid ≠ "" →
  query_cartItems (db w) uid (str_field "id" args) = [] →
  run E (addToCart args ctx) w =
  (inr (mkCartItem (mkid (next_id (db w))) 1 (str_field "id" args) uid),
   log_write (WCreateCartItem
                (<["item" := VConnect (str_field "id" args)]> {["user" := VConnect uid]}))
     (set_db w (bump 1 (set_cartItems (db w)
        (cartItems (db w) ++
           [mkCartItem (mkid (next_id (db w))) 1 (str_field "id" args) uid]))))).
Proof.
  intros Hu Hne Hq. rewrite (addToCart_run args ctx w uid), Hq by done. simpl.
  unfold db_createCartItem. by rewrite cartItem_of_connects.
Qed.

(** C4: a signed-in caller's add-to-cart, when the cart items hold a row
    of that user for that item, increments by exactly one the quantity of
    the first such row (the sum is a JS number: it is exact up to 2^53 in
    magnitude, which leaves room for every [Int] of the datamodel),
    changing no other row and adding none; when they hold no such row it
    adds one row, of that user for that item, with quantity 1.  Two calls
    in a row for a pair that had no row leave one row for the pair, with
    quantity 2. *)
Theorem addToCart_increments_or_creates (args : obj) (ctx : Context) (w : world)
    (uid : ID) :
  req_userId ctx = Some uid → uid ≠ "" →
  cart_ids_wf (db w) →
  (∀ i c, cartItems (db w) !! i = Some c →
     ci_user c = uid → ci_item c = str_field "id" args →
     (∀ j c', (j < i)%nat → cartItems (db w) !! j = Some c' →
        ¬ (ci_user c' = uid ∧ ci_item c' = str_field "id" args)) →
     ∃ r w', run E (addToCart args ctx) w = (inr r, w') ∧
       ci_id r = ci_id c ∧ ci_user r = uid ∧ ci_item r = str_field "id" args ∧
       ci_quantity r = js_add (ci_quantity c) 1 ∧
       (Z.abs (ci_quantity c + 1) ≤ 2 ^ 53 → ci_quantity r = ci_quantity c + 1) ∧
       cartItems (db w') = <[i := r]> (cartItems (db w)) ∧
       List.length (cartItems (db w')) = List.length (cartItems (db w))) ∧
  ((∀ c, c ∈ cartItems (db w) →
      ¬ (ci_user c = uid ∧ ci_item c = str_field "id" args)) →
     (∃ r w', run E (addToCart args ctx) w = (inr r, w') ∧
        ci_id r = mkid (next_id (db w)) ∧ (ci_id r ∉ ci_id <$> cartItems (db w)) ∧
        ci_user r = uid ∧ ci_item r = str_field "id" args ∧ ci_quantity r = 1 ∧
        cartItems (db w') = cartItems (db w) ++ [r]) ∧
     (∃ r1 w1 r2 w2, run E (addToCart args ctx) w = (inr r1, w1) ∧
        run E (addToCart args ctx) w1 = (inr r2, w2) ∧
        cartItems (db w2) = cartItems (db w) ++ [r2] ∧
        ci_user r2 = uid ∧ ci_item r2 = str_field "id" args ∧
        ci_quantity r2 = 2 ∧
        (∀ c, c ∈ cartItems (db w2) →
           ci_user c = uid → ci_item c = str_field "id" args → c = r2))).
Proof.
  intros Hu Hne [Hnd Hfresh]. split.
  - intros i c Hi Hcu Hci Hfirst.
    destruct (filter_first (cart_matches uid (str_field "id" args))
                (cartItems (db w)) i c) as [rest Hq]; [done|by apply cart_matches_true|..].
    { intros j c' Hj Hc'. apply cart_matches_false. by eapply Hfirst. }
    fold (query_cartItems (db w) uid (str_field "id" args)) in Hq.
    rewrite (addToCart_existing args ctx w uid c rest) by done.
    eexists (incremented c), _. split_and!; try done.
    + intros Hb. simpl. unfold js_add. by apply js_round_exact.
    + simpl. rewrite (update_where_unique ci_id _ _ i c) by done.
      by rewrite apply_quantity_update.
    + simpl. unfold update_where. by rewrite length_fmap.
  - intros Hnone.
    assert (Hq : query_cartItems (db w) uid (str_field "id" args) = []).
    { apply filter_nil_forall. intros c Hc. apply cart_matches_false. by apply Hnone. }
    pose proof (addToCart_absent args ctx w uid Hu Hne Hq) as Hrun.
    set (new := mkCartItem (mkid (next_id (db w))) 1 (str_field "id" args) uid) in *.
    assert (Hidn : ci_id new = mkid (next_id (db w))) by done.
    assert (Hqn : ci_quantity new = 1) by done.
    assert (Hun : ci_user new = uid) by done.
    assert (Hin : ci_item new = str_field "id" args) by done.
    assert (Hm : cart_matches uid (str_field "id" args) new = true)
      by (by apply cart_matches_true).
    clearbody new.
    assert (Hnew : ci_id new ∉ ci_id <$> cartItems (db w))
      by (rewrite Hidn; apply Hfresh; lia).
    split; [by eexists new, _|].
    assert (Hnd' : NoDup (ci_id <$> (cartItems (db w) ++ [new]))).
    { rewrite fmap_app. apply NoDup_app. split_and!; [done| |apply NoDup_singleton].
      intros x Hx Hx'. simpl in Hx'. apply list_elem_of_singleton in Hx' as ->. done. }
    assert (Hq' : query_cartItems
              (bump 1 (set_cartItems (db w) (cartItems (db w) ++ [new]))) uid
              (str_field "id" args) = [new])
      by (by apply filter_nil_app_singleton).
    eexists new, _, (incremented new), _. split; [exact Hrun|].
    rewrite (addToCart_existing args ctx _ uid new []) by done.
    assert (Hupd : update_where (λ x, bool_decide (ci_id x = ci_id new))
              (apply_cartItem_update {["quantity" := VNum (js_add (ci_quantity new) 1)]})
              (cartItems (db w) ++ [new]) = cartItems (db w) ++ [incremented new]).
    { unfold update_where. rewrite fmap_app. f_equal.
      - by apply (update_where_absent ci_id).
      - simpl. rewrite bool_decide_eq_true_2 by done.
        by rewrite apply_quantity_update. }
    split_and!; [done| |done|done|simpl; by rewrite Hqn|].
    + simpl. by rewrite Hupd.
    + simpl. rewrite Hupd. intros c Hc Hcu Hci.
      apply elem_of_app in Hc as [Hc|Hc]; [|by apply list_elem_of_singleton in Hc].
      by destruct (Hnone c Hc).
Qed.

(** The well-formedness of the cart item identifiers is kept by addToCart. *)
Lemma addToCart_keeps_cart_ids_wf (args : obj) (ctx : Context) (w w' : world)
    (uid : ID) (r : error + CartItem) :
  req_userId ctx = Some uid → uid ≠ "" →
  cart_ids_wf (db w) →
  run E (addToCart args ctx) w = (r, w') →
  cart_ids_wf (db w').
Proof.
  intros Hu Hne [Hnd Hfresh] Hrun.
  destruct (query_cartItems (db w) uid (str_field "id" args)) as [|c rest] eqn:Hq.
  - rewrite (addToCart_absent args ctx w uid) in Hrun by done.
    injection Hrun as _ <-. split; simpl.
    + rewrite fmap_app. apply NoDup_app. split_and!; [done| |apply NoDup_singleton].
      intros x Hx Hx'. simpl in Hx'. apply list_elem_of_singleton in Hx' as ->.
      revert Hx. apply Hfresh. lia.
    + intros n Hn. rewrite fmap_app, elem_of_app. intros [Hin|Hin].
      * revert Hin. apply Hfresh. lia.
      * simpl in Hin. apply list_elem_of_singleton, mkid_inj in Hin. lia.
  - rewrite (addToCart_existing args ctx w uid c rest) in Hrun by done.
    injection Hrun as _ <-. unfold cart_ids_wf. simpl.
    by rewrite update_where_quantity_ids.
Qed.
End Cart.

(** ** Guards come before writes *)

Section Guards.
Context (E : collaborators).

Lemma handle_reads_only {X} (c : eff X) (w : world) :
  reads_only c = true → ∃ x, handle E c w = (inr x, w).
Proof.
  destruct c; simpl; intros H; try discriminate; try (by eexists).
  case_match; by eexists.
Qed.

Lemma handle_no_guard {X} (c : eff X) (w w' : world) (e : error) :
  handle E c w = (inl e, w') → is_guard_failure e = false.
Proof.
  destruct c; simpl;
    unfold ok, wrote, db_updateItem, db_deleteItem, db_createUser, db_updateUser,
      db_updateCartItem, db_deleteCartItem;
    intros H; repeat case_match; simplify_eq; done.
Qed.

Lemma never_guard_run {A} (p : prog A) (w w' : world) (e : error) :
  never_guard p → run E p w = (inl e, w') → is_guard_failure e = false.
Proof.
  revert w. induction p as [a|e0|X c k IH]; simpl; intros w Hp H.
  - discriminate.
  - by injection H as <- _.
  - destruct (handle E c w) as [[e1|x] w1] eqn:Hh.
    + injection H as <- _. by eapply handle_no_guard.
    + by eapply IH.
Qed.

Lemma guards_first_run {A} (p : prog A) (w w' : world) (e : error) :
  guards_first p → run E p w = (inl e, w') → is_guard_failure e = true → w' = w.
Proof.
  revert w. induction p as [a|e0|X c k IH]; simpl; intros w Hp H He.
  - discriminate.
  - by injection H as _ <-.
  - destruct (reads_only c) eqn:Hc.
    + destruct (handle_reads_only c w Hc) as [x Hx]. rewrite Hx in H.
      by eapply IH.
    + destruct (handle E c w) as [[e1|x] w1] eqn:Hh.
      * injection H as <- _. apply handle_no_guard in Hh. congruence.
      * apply never_guard_run in H; [congruence|done].
Qed.
End Guards.

Ltac guards_step :=
  match goal with
  | |- _ => progress simpl
  | |- True => exact I
  | |- _ = _ => reflexivity
  | |- ∀ x : option (_ * _), _ => intros [[? ?]|]
  | |- ∀ x : option _, _ => intros [?|]
  | |- ∀ x : list _, _ => intros [|? ?]
  | |- ∀ x : bool, _ => intros []
  | |- ∀ x : _ * _, _ => intros [? ?]
  | |- ∀ _, _ => intro
  | |- context [when ?b _] =>
      lazymatch b with
      | true => fail
      | false => fail
      | _ => destruct b
      end
  | |- context [hasPermission ?u _] => unfold hasPermission; destruct u
  | |- context [@lookup string jsval obj _ ?k ?m] => destruct (m !! k) as [[]|]
  | |- context [existsb ?f ?l] => destruct (existsb f l)
  | |- context [reduce_total ?c ?t] => destruct (reduce_total c t)
  end.

Lemma createItem_guards_first (args : obj) (ctx : Context) :
  guards_first (createItem args ctx).
Proof. unfold createItem. repeat guards_step. Qed.

Lemma updateItem_guards_first (args : obj) (ctx : Context) :
  guards_first (updateItem args ctx).
Proof. unfold updateItem. repeat guards_step. Qed.

Lemma deleteItem_guards_first (args : obj) (ctx : Context) :
  guards_first (deleteItem args ctx).
Proof. unfold deleteItem. repeat guards_step. Qed.

Lemma signup_guards_first (args : obj) (ctx : Context) :
  guards_first (signup args ctx).
Proof. unfold signup. repeat guards_step. Qed.

Lemma signin_guards_first (args : obj) (ctx : Context) :
  guards_first (signin args ctx).
Proof. unfold signin. repeat guards_step. Qed.

Lemma signout_guards_first (args : obj) (ctx : Context) :
  guards_first (signout args ctx).
Proof. unfold signout. repeat guards_step. Qed.

Lemma requestReset_guards_first (E : collaborators) (args : obj) (ctx : Context) :
  guards_first (requestReset E args ctx).
Proof. unfold requestReset. repeat guards_step. Qed.

Lemma resetPassword_guards_first (args : obj) (ctx : Context) :
  guards_first (resetPassword args ctx).
Proof. unfold resetPassword. repeat guards_step. Qed.

Lemma updatePermissions_guards_first (args : obj) (ctx : Context) :
  guards_first (updatePermissions args ctx).
Proof. unfold updatePermissions. repeat guards_step. Qed.

Lemma addToCart_guards_first (args : obj) (ctx : Context) :
  guards_first (addToCart args ctx).
Proof. unfold addToCart. repeat guards_step. Qed.

Lemma removeFromCart_guards_first (args : obj) (ctx : Context) :
  guards_first (removeFromCart args ctx).
Proof. unfold removeFromCart. repeat guards_step. Qed.

Lemma createOrder_guards_first (args : obj) (ctx : Context) :
  guards_first (createOrder args ctx).
Proof. unfold createOrder. repeat guards_step. Qed.

Section GuardClaims.
Context (E : collaborators).

Lemma resolve_guards_first (m : mutation) (args : obj) (ctx : Context)
    (w w' : world) (e : error) :
  run E (resolve E m args ctx) w = (inl e, w') →
  is_guard_failure e = true → w' = w.
Proof.
  intros H He. destruct m; unfold resolve in H; rewrite run_bind in H.
  all: match type of H with
       | context [run _ ?p ?w1] => destruct (run E p w1) as [[e0|a] w0] eqn:Hp
       end; [|discriminate].
  all: injection H as -> ->; revert Hp He; apply guards_first_run.
  - apply createItem_guards_first.
  - apply updateItem_guards_first.
  - apply deleteItem_guards_first.
  - apply signup_guards_first.
  - apply signin_guards_first.
  - apply signout_guards_first.
  - apply requestReset_guards_first.
  - apply resetPassword_guards_first.
  - apply updatePermissions_guards_first.
  - apply addToCart_guards_first.
  - apply removeFromCart_guards_first.
  - apply createOrder_guards_first.
Qed.

(** C5: whichever mutation is requested, when it fails with a guard signal
    ([NotAuthenticated], [OwnershipDenied] or [PermissionDenied]) the world
    is the one it started in: the store is unchanged and no mutation was
    requested from persistence. *)
Theorem guard_failure_writes_nothing (m : mutation) (args : obj) (ctx : Context)
    (w w' : world) (e : error) :
  run E (resolve E m args ctx) w = (inl e, w') →
  is_guard_failure e = true →
  w' = w ∧ db w' = db w ∧ writes w' = writes w.
Proof.
  intros H He. assert (w' = w) as -> by by eapply resolve_guards_first. done.
Qed.

Lemma updateItem_anonymous (args : obj) (ctx : Context) (w : world) :
  req_userId ctx = None →
  run E (updateItem args ctx) w =
  match find_item (db w) (str_field "id" args) with
  | Some _ => (inl OwnershipDenied, w)
  | None => (inl TypeError, w)
  end.
Proof.
  intros Hu. unfold updateItem. simpl. destruct (find_item _ _); [|done].
  rewrite Hu. reflexivity.
Qed.

Lemma deleteItem_anonymous (args : obj) (ctx : Context) (w : world) :
  req_userId ctx = None →
  run E (deleteItem args ctx) w =
  match find_item (db w) (str_field "id" args) with
  | Some _ => (inl OwnershipDenied, w)
  | None => (inl TypeError, w)
  end.
Proof.
  intros Hu. unfold deleteItem. simpl. destruct (find_item _ _); [|done].
  rewrite Hu. reflexivity.
Qed.

(** C6, as amended: with no caller identity, updateItem and deleteItem on
    an existing item fail with [OwnershipDenied] and leave the world as it
    was, whatever user the request carries: the ownership check is their
    first guard and comes before the permission check; they make no
    authentication check of their own. *)
Theorem anonymous_item_mutation_is_OwnershipDenied (args : obj) (ctx : Context)
    (w : world) (item : Item) :
  req_userId ctx = None →
  find_item (db w) (str_field "id" args) = Some item →
  run E (updateItem args ctx) w = (inl OwnershipDenied, w) ∧
  run E (deleteItem args ctx) w = (inl OwnershipDenied, w).
Proof.
  intros Hu Hi. by rewrite updateItem_anonymous, deleteItem_anonymous, Hi.
Qed.
End GuardClaims.

(** ** Updating an item *)

Lemma find_item_id (s : store) (id : ID) (it : Item) :
  find_item s id = Some it → item_id it = id ∧ it ∈ items s.
Proof.
  unfold find_item. intros H. apply find_some in H as [Hin Hid].
  split; [by apply bool_decide_eq_true in Hid | by apply list_elem_of_In].
Qed.

Lemma apply_item_update_id (data : obj) (it : Item) :
  data !! "id" = None → item_id (apply_item_update data it) = item_id it.
Proof. intros H. unfold apply_item_update, upd_str. simpl. by rewrite H. Qed.

Lemma update_where_item_ids (p : Item → bool) (data : obj) (l : list Item) :
  data !! "id" = None →
  item_id <$> update_where p (apply_item_update data) l = item_id <$> l.
Proof.
  intros H. unfold update_where. induction l as [|x l IH]; [done|].
  rewrite !fmap_cons. f_equal; [|exact IH].
  destruct (p x); [by apply apply_item_update_id|done].
Qed.

Lemma hasPermission_granted (u : User) (needed : list string) (p : string) :
  p ∈ user_permissions u → p ∈ needed → hasPermission (Some u) needed = Ret tt.
Proof.
  intros Hp Hn. unfold hasPermission.
  assert (existsb (λ q, bool_decide (q ∈ needed)) (user_permissions u) = true) as ->;
    [|done].
  apply existsb_exists. exists p. split; [by apply list_elem_of_In|].
  by apply bool_decide_eq_true.
Qed.

Section UpdateItem.
Context (E : collaborators).

(** C10: an updateItem that passes its guards requests from persistence
    the update whose [data] is the arguments with [id] removed and nothing
    else changed; the identifier is not among the updated fields, and the
    updated item (like every item of the store) keeps its identifier. *)
Theorem updateItem_payload_excludes_id (args : obj) (ctx : Context) (w : world)
    (item : Item) (u : User) :
  find_item (db w) (str_field "id" args) = Some item →
  req_userId ctx = Some (item_user item) →
  req_user ctx = Some u →
  "ITEMUPDATE" ∈ user_permissions u →
  ∃ updated w',
    run E (updateItem args ctx) w = (inr updated, w') ∧
    writes w' = writes w ++ [WUpdateItem (delete "id" args) (str_field "id" args)] ∧
    delete "id" args !! "id" = None ∧
    (∀ k, k ≠ "id" → delete "id" args !! k = args !! k) ∧
    updated = apply_item_update (delete "id" args) item ∧
    item_id updated = item_id item ∧
    item_id <$> items (db w') = item_id <$> items (db w).
Proof.
  intros Hi Hu Hru Hp. unfold updateItem.
  rewrite run_bind, run_call. cbn [handle]. unfold ok. rewrite Hi, Hu.
  rewrite bool_decide_eq_true_2 by done. cbn [negb when].
  rewrite Hru, (hasPermission_granted u _ "ITEMUPDATE") by (done || by left).
  simpl. unfold db_updateItem. rewrite Hi. simpl.
  assert (Hid : delete "id" args !! "id" = None) by apply lookup_delete_eq.
  eexists _, _. split_and!; try done.
  - intros k Hk. by apply lookup_delete_ne.
  - by apply apply_item_update_id.
  - simpl. by apply update_where_item_ids.
Qed.
End UpdateItem.

(** ** Password reset and accounts *)

Section Accounts.
Context (E : collaborators).

(** A token is refused exactly when no user holds it with an expiry of at
    least one hour before now. *)
Lemma resetPassword_refused (args : obj) (ctx : Context) (w : world) :
  str_field "password" args = str_field "confirmPassword" args →
  query_users_reset (db w) (str_field "resetToken" args) (clock w - 3600000) = [] →
  run E (resetPassword args ctx) w = (inl InvalidOrExpiredToken, w).
Proof.
  intros Hpw Hq. unfold resetPassword. rewrite bool_decide_eq_true_2 by done.
  simpl. by rewrite Hq.
Qed.

(** signup stores the email as the runtime lowercases it. *)
Lemma signup_stores_lowercase_email (args : obj) (ctx : Context) (w w' : world)
    (u : User) :
  run E (signup args ctx) w = (inr u, w') →
  ∃ email, args !! "email" = Some (VStr email) ∧
    user_email u = String_toLowerCase E email ∧ u ∈ users (db w').
Proof.
  unfold signup. simpl.
  destruct (args !! "email") as [[email| | | |]|] eqn:He; simpl; try discriminate.
  unfold db_createUser.
  destruct (find_user _ _); simpl; [discriminate|].
  destruct (selected_id _ _); simpl; intros H; injection H as <- <-;
    (exists email; split_and!; [done| |simpl; apply elem_of_app; right; by left]);
    unfold user_of_data, str_field; simpl;
    by rewrite lookup_insert_ne, lookup_insert_ne, lookup_insert_eq by done.
Qed.

(** signin looks the user up under the email exactly as supplied. *)
Lemma signin_unknown_email (args : obj) (ctx : Context) (w : world) :
  find_user (db w) (ByEmail (str_field "email" args)) = None →
  run E (signin args ctx) w =
  (inl (JsError ("No such user found for email " +:+ str_field "email" args)), w).
Proof. intros H. unfold signin. simpl. by rewrite H. Qed.
End Accounts.

(** ** The claims on the shop *)

Lemma shop_cart_ids_wf : cart_ids_wf (db shop).
Proof.
  split.
  - simpl. repeat (apply NoDup_cons; split;
      [rewrite ?not_elem_of_cons; split_and?; (discriminate || apply not_elem_of_nil)|]).
    apply NoDup_nil_2.
  - intros n _ Hin. simpl in Hin. unfold mkid in Hin. simpl in Hin.
    rewrite !elem_of_cons in Hin.
    destruct Hin as [H|[H|[H|H]]]; try discriminate. by apply elem_of_nil in H.
Qed.

(** C1, as stated, fails: at the checkout of a cart holding 2147483647
    items of price 2147483647 the sum in the integers is
    4611686014132420609; the reduction, in JS numbers, yields
    4611686014132420608, and that is the amount submitted to the gateway
    and stored as the order's total. *)
Lemma createOrder_submits_rounded_amount :
  ∃ order w',
    run shopE (createOrder token_args ann_ctx) marina = (inr order, w') ∧
    query_user_cart (db marina) "u1" = Some (ann, yacht_cart) ∧
    cart_sum yacht_cart = 4611686014132420609 ∧
    reduce_total yacht_cart 0 = Some 4611686014132420608 ∧
    charges w' = [mkChargeReq 4611686014132420608 "USD" "tok_visa"] ∧
    order_total order = 4611686014132420608 ∧
    cr_amount <$> charges w' ≠ [cart_sum yacht_cart].
Proof.
  eexists _, _. split_and!; [vm_compute; reflexivity|reflexivity..|discriminate].
Qed.

Lemma createOrder_total_and_charge_witness :
  run shopE (createOrder token_args ann_ctx) shop = (inr ann_order, ann_checkout.2) ∧
  sums_exactly ann_cart ∧
  ∃ amount charge,
    reduce_total ann_cart 0 = Some amount ∧
    amount = cart_sum ann_cart ∧
    charges ann_checkout.2 =
      charges shop ++ [mkChargeReq amount "USD" (str_field "token" token_args)] ∧
    stripe_charges_create shopE (charges shop)
      (mkChargeReq amount "USD" (str_field "token" token_args)) = inr charge ∧
    order_total ann_order = charge_amount charge ∧
    order_charge ann_order = charge_id charge ∧
    ann_order ∈ orders (db ann_checkout.2).
Proof.
  assert (H : run shopE (createOrder token_args ann_ctx) shop =
              (inr ann_order, ann_checkout.2)) by (vm_compute; reflexivity).
  assert (Hb : sums_exactly ann_cart) by (vm_compute; discriminate).
  split_and!; [exact H|exact Hb|].
  destruct (createOrder_total_and_charge shopE token_args ann_ctx shop _ ann_order H)
    as (uid & user & cart & amount & charge & Hu & Hq & _ & Ha & Hsum & Hc & Hg & Ht & Hi & Ho).
  injection Hu as <-.
  assert (Hcart : cart = ann_cart)
    by (vm_compute in Hq; injection Hq as _ <-; reflexivity).
  rewrite Hcart in Ha, Hsum.
  exists amount, charge.
  split_and!; [exact Ha|exact (Hsum Hb)|exact Hc|exact Hg|exact Ht|exact Hi|exact Ho].
Defined.

Lemma createOrder_charge_error_witness :
  req_userId ann_ctx = Some "u1" ∧ "u1" ≠ "" ∧
  query_user_cart (db shop) "u1" = Some (ann, ann_cart) ∧
  reduce_total ann_cart 0 = Some 1300 ∧
  stripe_charges_create declinedE (charges shop)
    (mkChargeReq 1300 "USD" (str_field "token" token_args)) = inl "card_declined" ∧
  ∃ w', run declinedE (createOrder token_args ann_ctx) shop =
          (inl (PaymentFailed "card_declined"), w') ∧
        orders (db w') = orders (db shop) ∧
        cartItems (db w') = cartItems (db shop) ∧
        db w' = db shop ∧
        writes w' = writes shop.
Proof.
  assert (H1 : req_userId ann_ctx = Some "u1") by reflexivity.
  assert (H2 : "u1" ≠ "") by discriminate.
  assert (H3 : query_user_cart (db shop) "u1" = Some (ann, ann_cart)) by reflexivity.
  assert (H4 : reduce_total ann_cart 0 = Some 1300) by reflexivity.
  assert (H5 : stripe_charges_create declinedE (charges shop)
                 (mkChargeReq 1300 "USD" (str_field "token" token_args)) =
               inl "card_declined") by reflexivity.
  split_and!; [exact H1|exact H2|exact H3|exact H4|exact H5|].
  exact (createOrder_charge_error declinedE token_args ann_ctx shop "u1" ann ann_cart
           1300 "card_declined" H1 H2 H3 H4 H5).
Defined.

Lemma createOrder_clears_fetched_cart_witness :
  run_env shopE scarf_added 0 (createOrder token_args ann_ctx) shop =
    (inr ann_order_after_scarf, ann_checkout_interleaved.1.2, ann_checkout_interleaved.2) ∧
  mkCartItem "c10" 1 "i3" "u1" ∈ cartItems (db ann_checkout_interleaved.1.2) ∧
  ∃ uid user cart w_fetch w_charge w_create w_delete,
    ann_checkout_interleaved.2 = [w_fetch; w_charge; w_create; w_delete] ∧
    w_fetch = scarf_added 0%nat shop ∧
    req_userId ann_ctx = Some uid ∧
    query_user_cart (db w_fetch) uid = Some (user, cart) ∧
    ce_id <$> cart =
      ci_id <$> List.filter (λ c, bool_decide (ci_user c = uid)) (cartItems (db w_fetch)) ∧
    cartItems (db ann_checkout_interleaved.1.2) =
      List.filter (λ c, negb (bool_decide (ci_id c ∈ ce_id <$> cart)))
        (cartItems (db w_delete)) ∧
    (∀ c, c ∈ cartItems (db ann_checkout_interleaved.1.2) → ci_id c ∉ ce_id <$> cart) ∧
    (∀ c, c ∈ cartItems (db w_delete) → ci_id c ∉ ce_id <$> cart →
          c ∈ cartItems (db ann_checkout_interleaved.1.2)).
Proof.
  assert (H : run_env shopE scarf_added 0 (createOrder token_args ann_ctx) shop =
              (inr ann_order_after_scarf, ann_checkout_interleaved.1.2,
               ann_checkout_interleaved.2)) by (vm_compute; reflexivity).
  split_and!; [exact H| |].
  - apply list_elem_of_In. vm_compute. tauto.
  - exact (createOrder_clears_fetched_cart shopE scarf_added token_args ann_ctx shop
             _ ann_order_after_scarf _ H).
Defined.

Lemma addToCart_increments_or_creates_witness :
  req_userId ann_ctx = Some "u1" ∧ "u1" ≠ "" ∧ cart_ids_wf (db shop) ∧
  cartItems (db shop) !! 0%nat = Some (mkCartItem "k1" 2 "i1" "u1") ∧
  (∀ c, c ∈ cartItems (db shop) → ¬ (ci_user c = "u1" ∧ ci_item c = "i3")) ∧
  (∃ r w', run shopE (addToCart hat_args ann_ctx) shop = (inr r, w') ∧
     ci_id r = "k1" ∧ ci_quantity r = 3 ∧
     cartItems (db w') = <[0%nat := r]> (cartItems (db shop))) ∧
  (∃ r1 w1 r2 w2,
     run shopE (addToCart scarf_args ann_ctx) shop = (inr r1, w1) ∧
     run shopE (addToCart scarf_args ann_ctx) w1 = (inr r2, w2) ∧
     cartItems (db w2) = cartItems (db shop) ++ [r2] ∧
     ci_item r2 = "i3" ∧ ci_quantity r2 = 2).
Proof.
  assert (H1 : req_userId ann_ctx = Some "u1") by reflexivity.
  assert (H2 : "u1" ≠ "") by discriminate.
  assert (H3 : cartItems (db shop) !! 0%nat = Some (mkCartItem "k1" 2 "i1" "u1"))
    by reflexivity.
  assert (H4 : ∀ c, c ∈ cartItems (db shop) →
                 ¬ (ci_user c = "u1" ∧ ci_item c = str_field "id" scarf_args)).
  { intros c Hc [_ Hi]. simpl in Hc. rewrite !elem_of_cons in Hc.
    destruct Hc as [->|[->|[->|Hc]]]; [discriminate..|by apply elem_of_nil in Hc]. }
  split_and!; [exact H1|exact H2|exact shop_cart_ids_wf|exact H3|exact H4|..];
    destruct (addToCart_increments_or_creates shopE scarf_args ann_ctx shop "u1"
                H1 H2 shop_cart_ids_wf) as [_ Hnew];
    destruct (addToCart_increments_or_creates shopE hat_args ann_ctx shop "u1"
                H1 H2 shop_cart_ids_wf) as [Hold _].
  - destruct (Hold 0%nat _ H3 eq_refl eq_refl)
      as (r & w' & Hr & Hid & _ & _ & _ & Hq & Hc & _).
    { intros j c' Hj. lia. }
    exists r, w'. split_and!; [exact Hr|exact Hid|apply Hq; simpl; lia|exact Hc].
  - destruct (Hnew H4) as [_ (r1 & w1 & r2 & w2 & Hr1 & Hr2 & Hc & _ & Hi & Hq & _)].
    exists r1, w1, r2, w2. split_and!; [exact Hr1|exact Hr2|exact Hc|exact Hi|exact Hq].
Defined.

(** The owner of the hat lacks [ITEMDELETE]: the delete is refused and the
    hat is still there. *)
Lemma guard_failure_writes_nothing_witness :
  run shopE (resolve shopE DeleteItem hat_args ann_ctx) shop =
    (inl PermissionDenied, (run shopE (resolve shopE DeleteItem hat_args ann_ctx) shop).2) ∧
  is_guard_failure PermissionDenied = true ∧
  (run shopE (resolve shopE DeleteItem hat_args ann_ctx) shop).2 = shop ∧
  db (run shopE (resolve shopE DeleteItem hat_args ann_ctx) shop).2 = db shop ∧
  writes (run shopE (resolve shopE DeleteItem hat_args ann_ctx) shop).2 = writes shop.
Proof.
  assert (H : run shopE (resolve shopE DeleteItem hat_args ann_ctx) shop =
              (inl PermissionDenied,
               (run shopE (resolve shopE DeleteItem hat_args ann_ctx) shop).2))
    by (vm_compute; reflexivity).
  split; [exact H|]. split; [reflexivity|].
  exact (guard_failure_writes_nothing shopE DeleteItem hat_args ann_ctx shop _
           PermissionDenied H eq_refl).
Defined.

(** C6, as stated, fails: an anonymous updateItem or deleteItem of the hat
    is answered with [OwnershipDenied], not with [NotAuthenticated]. *)
Lemma anonymous_item_mutation_not_NotAuthenticated :
  req_userId anonymous = None ∧
  (run shopE (updateItem hat_args anonymous) shop).1 = inl OwnershipDenied ∧
  (run shopE (deleteItem hat_args anonymous) shop).1 = inl OwnershipDenied ∧
  (run shopE (updateItem hat_args anonymous) shop).1 ≠ inl NotAuthenticated ∧
  (run shopE (deleteItem hat_args anonymous) shop).1 ≠ inl NotAuthenticated.
Proof. split_and!; [reflexivity|reflexivity|reflexivity|discriminate|discriminate]. Qed.

Lemma anonymous_item_mutation_is_OwnershipDenied_witness :
  req_userId anonymous = None ∧
  find_item (db shop) (str_field "id" hat_args) = Some hat ∧
  run shopE (updateItem hat_args anonymous) shop = (inl OwnershipDenied, shop) ∧
  run shopE (deleteItem hat_args anonymous) shop = (inl OwnershipDenied, shop).
Proof.
  assert (H1 : req_userId anonymous = None) by reflexivity.
  assert (H2 : find_item (db shop) (str_field "id" hat_args) = Some hat) by reflexivity.
  split_and!; [exact H1|exact H2|..];
    apply (anonymous_item_mutation_is_OwnershipDenied shopE hat_args anonymous shop hat
             H1 H2).
Defined.

Lemma createOrder_empty_cart_charges_zero_witness :
  req_userId cat_ctx = Some "u3" ∧ "u3" ≠ "" ∧
  query_user_cart (db shop) "u3" = Some (cat, []) ∧
  ∃ r w', run shopE (createOrder token_args cat_ctx) shop = (r, w') ∧
          charges w' = charges shop ++ [mkChargeReq 0 "USD" "tok_visa"].
Proof.
  assert (H1 : req_userId cat_ctx = Some "u3") by reflexivity.
  assert (H2 : "u3" ≠ "") by discriminate.
  assert (H3 : query_user_cart (db shop) "u3" = Some (cat, [])) by reflexivity.
  split_and!; [exact H1|exact H2|exact H3|].
  destruct (createOrder_empty_cart_charges_zero shopE token_args cat_ctx shop "u3" cat
              H1 H2 H3) as [_ (r & w' & Hr & Hc & _)].
  exists r, w'. split; [exact Hr|exact Hc].
Defined.

Lemma updateItem_payload_excludes_id_witness :
  find_item (db shop) (str_field "id" cap_args) = Some hat ∧
  req_userId ann_ctx = Some (item_user hat) ∧
  req_user ann_ctx = Some ann ∧
  "ITEMUPDATE" ∈ user_permissions ann ∧
  ∃ updated w',
    run shopE (updateItem cap_args ann_ctx) shop = (inr updated, w') ∧
    writes w' = writes shop ++ [WUpdateItem (delete "id" cap_args) "i1"] ∧
    item_title updated = "Cap" ∧
    item_id updated = "i1".
Proof.
  assert (H1 : find_item (db shop) (str_field "id" cap_args) = Some hat) by reflexivity.
  assert (H2 : req_userId ann_ctx = Some (item_user hat)) by reflexivity.
  assert (H3 : req_user ann_ctx = Some ann) by reflexivity.
  assert (H4 : "ITEMUPDATE" ∈ user_permissions ann)
    by (apply list_elem_of_In; vm_compute; tauto).
  split_and!; [exact H1|exact H2|exact H3|exact H4|].
  destruct (updateItem_payload_excludes_id shopE cap_args ann_ctx shop hat ann
              H1 H2 H3 H4) as (updated & w' & Hr & Hw & _ & _ & Hup & Hid & _).
  exists updated, w'. split_and!; [exact Hr|exact Hw| |exact Hid].
  rewrite Hup. reflexivity.
Defined.

(** C8 on the code: Bob's token expired one millisecond ago (its expiry is
    9999999, the clock shows 10000000), yet resetPassword accepts it and
    replaces his password: the query asks for an expiry of at least one hour
    before now. *)
Theorem resetPassword_accepts_expired_token :
  user_resetToken bob = Some "tok" ∧
  user_resetTokenExpiry bob = Some 9999999 ∧
  9999999 < clock shop ∧
  find_user (db shop) (ById "u2") = Some bob ∧
  ∃ updated w',
    run shopE (resetPassword reset_args anonymous) shop = (inr updated, w') ∧
    find_user (db w') (ById "u2") = Some updated ∧
    user_password bob = "$2a$10$pw2" ∧
    user_password updated = "$2a$10$fresh" ∧
    user_resetToken updated = None ∧
    user_resetTokenExpiry updated = None.
Proof.
  split_and!; try reflexivity.
  eexists _, _. split_and!; [vm_compute; reflexivity|reflexivity..].
Qed.

(** C9 on the code: Dora signs up as [Dora@Shop.org]; the account is stored
    under [dora@shop.org]; signing in with the email as she typed it finds
    no user, signing in with the lowercase form does. *)
Theorem signin_email_is_case_sensitive :
  ∃ w',
    run shopE (signup (dora_args "Dora@Shop.org") anonymous) shop = (inr dora, w') ∧
    user_email dora = toLowerCase "Dora@Shop.org" ∧
    find_user (db w') (ByEmail "dora@shop.org") = Some dora ∧
    (run shopE (signin (dora_args "Dora@Shop.org") anonymous) w').1 =
      inl (JsError "No such user found for email Dora@Shop.org") ∧
    (run shopE (signin (dora_args "dora@shop.org") anonymous) w').1 = inr dora.
Proof.
  eexists. split_and!; [vm_compute; reflexivity|reflexivity..].
Qed.

(** * The resolvers at large *)

(** ** Lookups in the payloads *)

Lemma lookup_spread_user (args : obj) (v : jsval) (k : string) :
  k ≠ "user" → (args ∪ {["user" := v]}) !! k = args !! k.
Proof.
  intros Hk. rewrite lookup_union, lookup_singleton_ne by done.
  by destruct (args !! k).
Qed.

Lemma lookup_spread_user_absent (args : obj) (v : jsval) :
  args !! "user" = None → (args ∪ {["user" := v]}) !! "user" = Some v.
Proof. intros H. by rewrite lookup_union, H, lookup_singleton_eq. Qed.

Lemma find_remove_where {A} (p : A → bool) (l : list A) :
  List.find p (remove_where p l) = None.
Proof.
  unfold remove_where. induction l as [|x l IH]; [done|]. simpl.
  destruct (p x) eqn:Hp; simpl; [done|]. by rewrite Hp.
Qed.

Lemma hasPermission_refused (u : User) (needed : list string) :
  (∀ p, p ∈ user_permissions u → p ∉ needed) →
  hasPermission (Some u) needed = Throw PermissionDenied.
Proof.
  intros Hno. unfold hasPermission.
  destruct (existsb _ _) eqn:Hex; [|done].
  apply existsb_exists in Hex as (p & Hin & Hp).
  apply bool_decide_eq_true in Hp. apply list_elem_of_In in Hin.
  by destruct (Hno p Hin).
Qed.

(** ** Removing from the cart *)

Section RemoveFromCart.
Context (E : collaborators).

Lemma removeFromCart_run (args : obj) (ctx : Context) (w : world) :
  run E (removeFromCart args ctx) w =
  match find_cartItem (db w) (str_field "id" args) with
  | None => (inl (JsError "No cart item found"), w)
  | Some c =>
      if bool_decide (Some (ci_user c) = req_userId ctx)
      then @wrote CartItem (WDeleteCartItem (str_field "id" args))
             (db_deleteCartItem (str_field "id" args) (db w)) w
      else (inl OwnershipDenied, w)
  end.
Proof.
  unfold removeFromCart. simpl.
  destruct (find_cartItem (db w) (str_field "id" args)) as [c|]; [|done].
  destruct (bool_decide (Some (ci_user c) = req_userId ctx)); simpl; [|done].
  by destruct (@wrote CartItem _ _ _) as [[?|?] ?].
Qed.

(** X1: removeFromCart deletes nothing unless the cart item exists and is
    the caller's: an unknown identifier is answered with 'No cart item
    found', another user's cart item (and any cart item, for an anonymous
    caller) with [OwnershipDenied]; the world is left as it was. *)
Theorem removeFromCart_refuses_foreign_rows (args : obj) (ctx : Context) (w : world) :
  (∀ c, find_cartItem (db w) (str_field "id" args) = Some c →
        req_userId ctx ≠ Some (ci_user c)) →
  run E (removeFromCart args ctx) w =
  (inl (match find_cartItem (db w) (str_field "id" args) with
        | None => JsError "No cart item found"
        | Some _ => OwnershipDenied
        end), w).
Proof.
  intros Hown. rewrite removeFromCart_run.
  destruct (find_cartItem (db w) (str_field "id" args)) as [c|]; [|done].
  rewrite bool_decide_eq_false_2; [done|]. intros Heq. by apply (Hown c).
Qed.

(** X2: removeFromCart by the owner of the cart item answers with that cart
    item and removes it: the identifier is no longer found, every cart item
    with another identifier stays as it is, and items, users and orders are
    untouched; the one mutation requested is the deletion. *)
Theorem removeFromCart_removes_own_row (args : obj) (ctx : Context) (w : world)
    (c : CartItem) :
  find_cartItem (db w) (str_field "id" args) = Some c →
  req_userId ctx = Some (ci_user c) →
  ∃ w', run E (removeFromCart args ctx) w = (inr c, w') ∧
        find_cartItem (db w') (str_field "id" args) = None ∧
        (∀ c', c' ∈ cartItems (db w') ↔
               c' ∈ cartItems (db w) ∧ ci_id c' ≠ str_field "id" args) ∧
        items (db w') = items (db w) ∧
        users (db w') = users (db w) ∧
        orders (db w') = orders (db w) ∧
        writes w' = writes w ++ [WDeleteCartItem (str_field "id" args)].
Proof.
  intros Hc Hu. rewrite removeFromCart_run, Hc.
  rewrite bool_decide_eq_true_2 by done.
  unfold db_deleteCartItem. rewrite Hc. simpl.
  eexists. split_and!; try done.
  - unfold find_cartItem. simpl. apply find_remove_where.
  - intros c'. simpl. rewrite elem_of_remove_where.
    by rewrite bool_decide_eq_false.
Qed.
End RemoveFromCart.

(** ** Creating, updating and deleting items *)

Section Items.
Context (E : collaborators).

(** X3: createItem by a signed-in caller holding [ITEMCREATE] stores one new
    item, with the title, description, images and price of the arguments,
    and connects it to the caller (the arguments carrying no [user] of
    their own); the items there were are kept.  The new item's identifier
    is the next the store generates: where the items' identifiers were
    generated by the store it is the identifier of no item there was, and
    the items' identifiers are again generated by the store. *)
Theorem createItem_owned_by_caller (args : obj) (ctx : Context) (w : world)
    (uid : ID) (u : User) :
  req_userId ctx = Some uid → uid ≠ "" →
  req_user ctx = Some u →
  "ITEMCREATE" ∈ user_permissions u →
  args !! "user" = None →
  ∃ item w',
    run E (createItem args ctx) w = (inr item, w') ∧
    item = mkItem (mkid (next_id (db w))) (str_field "title" args)
             (str_field "description" args) (str_field "image" args)
             (str_field "largeImage" args) (num_field "price" args) uid ∧
    items (db w') = items (db w) ++ [item] ∧
    next_id (db w') = (next_id (db w) + 1)%N ∧
    writes w' = writes w ++ [WCreateItem (args ∪ {["user" := VConnect uid]})] ∧
    (item_ids_generated (db w) →
       (item_id item ∉ item_id <$> items (db w)) ∧
       (∀ i, i ∈ items (db w') → item_id i = item_id item → i = item) ∧
       item_ids_generated (db w')).
Proof.
  intros Hu Hne Hru Hp Hargs. unfold createItem, truthy. rewrite Hu, Hru.
  rewrite bool_decide_eq_false_2 by done. cbn [negb when].
  rewrite (hasPermission_granted u _ "ITEMCREATE") by (done || by left).
  simpl. eexists _, _. split_and!; try done.
  - unfold item_of_data, str_field, num_field, connect_field.
    rewrite !lookup_spread_user by done.
    by rewrite lookup_spread_user_absent.
  - intros Hgen.
    assert (Hfresh : mkid (next_id (db w)) ∉ item_id <$> items (db w))
      by (apply Hgen; lia).
    split_and!.
    + exact Hfresh.
    + intros i Hi Hid. apply elem_of_app in Hi as [Hi|Hi].
      * destruct Hfresh. simpl in Hid. rewrite <- Hid. by apply list_elem_of_fmap_2.
      * by apply list_elem_of_singleton in Hi.
    + intros n Hn. simpl in Hn. simpl. rewrite fmap_app, elem_of_app. intros [Hin|Hin].
      * revert Hin. apply Hgen. lia.
      * simpl in Hin. apply list_elem_of_singleton, mkid_inj in Hin. lia.
Qed.

(** X4: deleteItem by the item's owner holding [ITEMDELETE] answers with the
    item and removes it: it is no longer found, every item with another
    identifier stays, and the cart items (also those that refer to the
    deleted item), users and orders are untouched. *)
Theorem deleteItem_removes_item (args : obj) (ctx : Context) (w : world)
    (item : Item) (u : User) :
  find_item (db w) (str_field "id" args) = Some item →
  req_userId ctx = Some (item_user item) →
  req_user ctx = Some u →
  "ITEMDELETE" ∈ user_permissions u →
  ∃ w', run E (deleteItem args ctx) w = (inr item, w') ∧
        find_item (db w') (str_field "id" args) = None ∧
        (∀ i, i ∈ items (db w') ↔ i ∈ items (db w) ∧ item_id i ≠ str_field "id" args) ∧
        cartItems (db w') = cartItems (db w) ∧
        users (db w') = users (db w) ∧
        orders (db w') = orders (db w) ∧
        writes w' = writes w ++ [WDeleteItem (str_field "id" args)].
Proof.
  intros Hi Hu Hru Hp. unfold deleteItem.
  rewrite run_bind, run_call. cbn [handle]. unfold ok. rewrite Hi, Hu.
  rewrite bool_decide_eq_true_2 by done. cbn [negb when].
  rewrite Hru, (hasPermission_granted u _ "ITEMDELETE") by (done || by left).
  simpl. unfold db_deleteItem. rewrite Hi. simpl.
  eexists. split_and!; try done.
  - unfold find_item. simpl. apply find_remove_where.
  - intros i. simpl. rewrite elem_of_remove_where. by rewrite bool_decide_eq_false.
Qed.

Lemma updateItem_run_head (args : obj) (ctx : Context) (w : world) :
  find_item (db w) (str_field "id" args) = None →
  run E (updateItem args ctx) w = (inl TypeError, w).
Proof. intros Hi. unfold updateItem. simpl. by rewrite Hi. Qed.

Lemma deleteItem_run_head (args : obj) (ctx : Context) (w : world) :
  find_item (db w) (str_field "id" args) = None →
  run E (deleteItem args ctx) w = (inl TypeError, w).
Proof. intros Hi. unfold deleteItem. simpl. by rewrite Hi. Qed.

(** X5: updateItem and deleteItem let nobody but the owner through,
    whatever permissions the request's user holds ([ADMIN] included): for an
    existing item and a caller who is not its owner both fail with
    [OwnershipDenied] and leave the world as it was. *)
Theorem item_mutation_needs_owner (args : obj) (ctx : Context) (w : world)
    (item : Item) :
  find_item (db w) (str_field "id" args) = Some item →
  req_userId ctx ≠ Some (item_user item) →
  run E (updateItem args ctx) w = (inl OwnershipDenied, w) ∧
  run E (deleteItem args ctx) w = (inl OwnershipDenied, w).
Proof.
  intros Hi Hu. unfold updateItem, deleteItem. simpl. rewrite Hi.
  rewrite bool_decide_eq_false_2 by (intros Heq; by apply Hu). done.
Qed.

(** X6: owning the item is not enough: an owner whose permissions hold
    neither [ITEMUPDATE] (for updateItem) nor [ITEMDELETE] (for deleteItem)
    is refused with [PermissionDenied], and the item is left as it was. *)
Theorem item_mutation_needs_permission (args : obj) (ctx : Context) (w : world)
    (item : Item) (u : User) :
  find_item (db w) (str_field "id" args) = Some item →
  req_userId ctx = Some (item_user item) →
  req_user ctx = Some u →
  "ITEMUPDATE" ∉ user_permissions u →
  "ITEMDELETE" ∉ user_permissions u →
  run E (updateItem args ctx) w = (inl PermissionDenied, w) ∧
  run E (deleteItem args ctx) w = (inl PermissionDenied, w).
Proof.
  intros Hi Hu Hru Hup Hdel. unfold updateItem, deleteItem.
  rewrite !run_bind, !run_call. cbn [handle]. unfold ok. rewrite Hi, Hu.
  rewrite bool_decide_eq_true_2 by done. cbn [negb when].
  rewrite Hru, !hasPermission_refused; [done| |].
  - intros p Hp Hin. apply list_elem_of_singleton in Hin as ->. done.
  - intros p Hp Hin. apply list_elem_of_singleton in Hin as ->. done.
Qed.

(** X7: an identifier that names no item makes updateItem and deleteItem
    fail with a [TypeError] (the owner is read off a [null] item), for
    every caller, before any guard is consulted and with nothing written. *)
Theorem item_mutation_of_missing_item (args : obj) (ctx : Context) (w : world) :
  find_item (db w) (str_field "id" args) = None →
  run E (updateItem args ctx) w = (inl TypeError, w) ∧
  run E (deleteItem args ctx) w = (inl TypeError, w).
Proof. intros Hi. by rewrite updateItem_run_head, deleteItem_run_head. Qed.
End Items.

(** ** Accounts and sessions *)

Lemma find_user_email (s : store) (e : string) (u : User) :
  find_user s (ByEmail e) = Some u → user_email u = e ∧ u ∈ users s.
Proof.
  unfold find_user. intros H. apply find_some in H as [Hin He].
  split; [by apply bool_decide_eq_true in He | by apply list_elem_of_In].
Qed.

Lemma find_user_id (s : store) (i : ID) (u : User) :
  find_user s (ById i) = Some u → user_id u = i ∧ u ∈ users s.
Proof.
  unfold find_user. intros H. apply find_some in H as [Hin He].
  split; [by apply bool_decide_eq_true in He | by apply list_elem_of_In].
Qed.

Lemma apply_reset_fields (u : User) (tok : string) (expiry : Z) :
  apply_user_update (<["resetTokenExpiry" := VNum expiry]> {["resetToken" := VStr tok]}) u =
  mkUser (user_id u) (user_name u) (user_email u) (user_password u)
    (user_permissions u) (Some tok) (Some expiry).
Proof.
  unfold apply_user_update, upd_str, upd_set, upd_opt_str, upd_opt_num.
  rewrite !(lookup_insert_ne _ "resetTokenExpiry") by done.
  rewrite !lookup_singleton_ne by done.
  by rewrite lookup_insert_eq, lookup_singleton_eq.
Qed.

Lemma apply_new_password (u : User) (password : string) :
  apply_user_update
    (<["resetTokenExpiry" := VNull]>
       (<["resetToken" := VNull]> {["password" := VStr password]})) u =
  mkUser (user_id u) (user_name u) (user_email u) password
    (user_permissions u) None None.
Proof.
  unfold apply_user_update, upd_str, upd_set, upd_opt_str, upd_opt_num.
  rewrite !(lookup_insert_ne _ "resetTokenExpiry") by done.
  rewrite lookup_insert_eq.
  rewrite !(lookup_insert_ne _ "resetToken") by done.
  rewrite lookup_insert_eq.
  rewrite !lookup_singleton_ne by done.
  by rewrite lookup_singleton_eq.
Qed.

Lemma apply_permissions (u : User) (l : list string) :
  apply_user_update {["permissions" := VSet l]} u =
  mkUser (user_id u) (user_name u) (user_email u) (user_password u) l
    (user_resetToken u) (user_resetTokenExpiry u).
Proof.
  unfold apply_user_update, upd_str, upd_set, upd_opt_str, upd_opt_num.
  rewrite !lookup_singleton_ne by done.
  by rewrite lookup_singleton_eq.
Qed.

Lemma find_update_where {A} (p : A → bool) (f : A → A) (l : list A) (u : A) :
  (∀ x, p (f x) = p x) →
  List.find p l = Some u →
  List.find p (update_where p f l) = Some (f u).
Proof.
  intros Hp. unfold update_where. induction l as [|x l IH]; [done|]. simpl.
  destruct (p x) eqn:Hx.
  - intros [= ->]. by rewrite Hp, Hx.
  - intros H. rewrite Hx. by apply IH.
Qed.

Lemma find_filter_head {A} (p : A → bool) (l : list A) (u : A) :
  List.find p l = Some u → ∃ rest, List.filter p l = u :: rest.
Proof.
  induction l as [|x l IH]; [done|]. simpl. destruct (p x) eqn:Hx.
  - intros [= ->]. by eexists.
  - apply IH.
Qed.

Section Sessions.
Context (E : collaborators).

(** X8: signin with the email of a stored user checks the password against
    the stored hash: a password bcrypt rejects is answered with 'Invalid
    password!' and changes nothing; one it accepts answers with the user and
    sets one cookie, the token signed for that user's identifier.  The store
    is never written. *)
Theorem signin_checks_password (args : obj) (ctx : Context) (w : world) (u : User) :
  find_user (db w) (ByEmail (str_field "email" args)) = Some u →
  if bcrypt_compare E (str_field "password" args) (user_password u)
  then ∃ w', run E (signin args ctx) w = (inr u, w') ∧
             cookies w' = cookies w ++ [Some (jwt_sign E (user_id u))] ∧
             db w' = db w ∧ writes w' = writes w
  else run E (signin args ctx) w = (inl (JsError "Invalid password!"), w).
Proof.
  intros Hu. unfold signin. simpl. rewrite Hu. simpl.
  destruct (bcrypt_compare E _ _); simpl; [|done].
  eexists. split_and!; done.
Qed.

(** X9: the account a successful signup creates, from a name, an email and
    a password that are strings, has the next identifier the store
    generates, the name of the arguments, the email as the runtime's
    [toLowerCase] returns it, the bcrypt hash of the password (not the
    password), no reset token, and exactly the permissions USER, ITEMCREATE,
    ITEMUPDATE and ITEMDELETE, whatever [permissions] the arguments carry.
    No user there was has its email; where the users' identifiers were
    generated by the store, none has its identifier, and the users'
    identifiers are again generated by the store.  One cookie is set: the
    token signed for the new identifier when the client selected [id],
    the token signed for no identifier otherwise. *)
Theorem signup_creates_account (args : obj) (ctx : Context) (w w' : world) (u : User)
    (name password : string) :
  args !! "name" = Some (VStr name) →
  args !! "password" = Some (VStr password) →
  run E (signup args ctx) w = (inr u, w') →
  ∃ email,
    args !! "email" = Some (VStr email) ∧
    u = mkUser (mkid (next_id (db w))) name (String_toLowerCase E email)
          (bcrypt_hash E password)
          ["USER"; "ITEMCREATE"; "ITEMUPDATE"; "ITEMDELETE"] None None ∧
    users (db w') = users (db w) ++ [u] ∧
    (∀ v, v ∈ users (db w) → user_email v ≠ String_toLowerCase E email) ∧
    (user_ids_generated (db w) →
       (user_id u ∉ user_id <$> users (db w)) ∧ user_ids_generated (db w')) ∧
    cookies w' =
      cookies w ++ [Some (if bool_decide ("id" ∈ info ctx) then jwt_sign E (user_id u)
                          else jwt_sign_undefined E)].
Proof.
  intros Hname Hpw. unfold signup. simpl.
  destruct (args !! "email") as [[email| | | |]|] eqn:He; simpl; try discriminate.
  unfold db_createUser.
  destruct (find_user _ _) eqn:Hfind; simpl; [discriminate|].
  assert (Hu : user_of_data (mkid (next_id (db w)))
                 (<["permissions" := VSet ["USER"; "ITEMCREATE"; "ITEMUPDATE"; "ITEMDELETE"]]>
                    (<["password" := VStr (bcrypt_hash E (str_field "password" args))]>
                       (<["email" := VStr (String_toLowerCase E email)]> args))) =
               mkUser (mkid (next_id (db w))) name (String_toLowerCase E email)
                 (bcrypt_hash E password)
                 ["USER"; "ITEMCREATE"; "ITEMUPDATE"; "ITEMDELETE"] None None).
  { unfold user_of_data, str_field, set_field.
    rewrite lookup_insert_eq.
    rewrite !(lookup_insert_ne _ "permissions") by done.
    rewrite lookup_insert_eq.
    rewrite !(lookup_insert_ne _ "password") by done.
    rewrite lookup_insert_eq.
    rewrite !(lookup_insert_ne _ "email") by done.
    by rewrite Hname, Hpw. }
  rewrite Hu in *. clear Hu.
  assert (Hmail : ∀ v, v ∈ users (db w) → user_email v ≠ String_toLowerCase E email).
  { intros v Hv Hmail. unfold find_user in Hfind. simpl in Hfind.
    apply find_none with (x := v) in Hfind; [|by apply list_elem_of_In].
    simpl in Hfind. by rewrite bool_decide_eq_true_2 in Hfind. }
  assert (Hgen : user_ids_generated (db w) →
            (mkid (next_id (db w)) ∉ user_id <$> users (db w)) ∧
            user_ids_generated
              (bump 1 (set_users (db w)
                 (users (db w) ++
                    [mkUser (mkid (next_id (db w))) name (String_toLowerCase E email)
                       (bcrypt_hash E password)
                       ["USER"; "ITEMCREATE"; "ITEMUPDATE"; "ITEMDELETE"] None None])))).
  { intros Hgen. split; [apply Hgen; lia|].
    intros n Hn. simpl in Hn. simpl. rewrite fmap_app, elem_of_app. intros [Hin|Hin].
    - revert Hin. apply Hgen. lia.
    - simpl in Hin. apply list_elem_of_singleton, mkid_inj in Hin. lia. }
  unfold selected_id. simpl.
  destruct (bool_decide ("id" ∈ info ctx)); simpl; intros H; injection H as <- <-;
    exists email; split_and!; done.
Qed.
End Sessions.

(** ** Password reset *)

Lemma elem_of_update_where {A} (p : A → bool) (f : A → A) (l : list A) (x : A) :
  x ∈ update_where p f l ↔ ∃ y, y ∈ l ∧ x = if p y then f y else y.
Proof.
  unfold update_where. rewrite list_elem_of_fmap. split.
  - intros (y & -> & Hy). by exists y.
  - intros (y & Hy & ->). by exists y.
Qed.

Lemma filter_update_where_fresh {A} (p q : A → bool) (f : A → A) (l : list A) :
  (∀ x, x ∈ l → q x = false) → (∀ x, q (f x) = true) →
  List.filter q (update_where p f l) = f <$> List.filter p l.
Proof.
  intros Hl Hf. unfold update_where. induction l as [|x l IH]; [done|].
  rewrite fmap_cons. simpl. destruct (p x) eqn:Hx.
  - rewrite Hf, fmap_cons. f_equal. apply IH. intros y Hy. apply Hl. by right.
  - rewrite (Hl x) by by left. apply IH. intros y Hy. apply Hl. by right.
Qed.

Lemma reset_matches_later (tok : string) (b b' : Z) (u : User) :
  b ≤ b' → reset_matches tok b u = false → reset_matches tok b' u = false.
Proof.
  unfold reset_matches. intros Hb.
  destruct (bool_decide (user_resetToken u = Some tok)); [|done]. simpl.
  destruct (user_resetTokenExpiry u) as [e|]; [|done].
  rewrite !Z.leb_gt. lia.
Qed.

Lemma reset_matches_other_token (tok : string) (b : Z) (u : User) :
  user_resetToken u ≠ Some tok → reset_matches tok b u = false.
Proof. intros H. unfold reset_matches. by rewrite bool_decide_eq_false_2. Qed.

Lemma user_matches_email_update (e : string) (data : obj) (u : User) :
  data !! "email" = None →
  user_matches (ByEmail e) (apply_user_update data u) = user_matches (ByEmail e) u.
Proof. intros H. unfold user_matches, apply_user_update, upd_str. simpl. by rewrite H. Qed.

Section PasswordReset.
Context (E : collaborators).

(** X10: an email that no stored user has, exactly as supplied, makes both
    signin and requestReset fail with 'No such user found for email ...';
    nothing is written, no token is drawn, no mail is sent and no cookie is
    set. *)
Theorem unknown_email_is_refused (args : obj) (ctx : Context) (w : world) :
  find_user (db w) (ByEmail (str_field "email" args)) = None →
  run E (signin args ctx) w =
    (inl (JsError ("No such user found for email " +:+ str_field "email" args)), w) ∧
  run E (requestReset E args ctx) w =
    (inl (JsError ("No such user found for email " +:+ str_field "email" args)), w).
Proof.
  intros H. split; [by apply signin_unknown_email|].
  unfold requestReset. simpl. by rewrite H.
Qed.

Lemma requestReset_run (args : obj) (ctx : Context) (w : world) (u : User) :
  find_user (db w) (ByEmail (str_field "email" args)) = Some u →
  ∃ w1, run E (requestReset E args ctx) w = (inr "Success!", w1) ∧
    users (db w1) =
      update_where (user_matches (ByEmail (str_field "email" args)))
        (apply_user_update
           (<["resetTokenExpiry" := VNum (clock w + 3600000)]>
              {["resetToken" := VStr (randomBytes_hex E (entropy w) 20)]}))
        (users (db w)) ∧
    items (db w1) = items (db w) ∧ cartItems (db w1) = cartItems (db w) ∧
    orders (db w1) = orders (db w) ∧
    outbox w1 = outbox w ++
      [mkMail "help@hoodify.com" (user_email u) "Your Password Reset Token"
         (makeANiceEmail E
            (reset_mail_text (FRONTEND_URL E) (randomBytes_hex E (entropy w) 20)))] ∧
    cookies w1 = cookies w ∧ charges w1 = charges w ∧
    clock w1 = clock w ∧ entropy w1 = S (entropy w).
Proof.
  intros Hu. unfold requestReset. simpl. rewrite Hu. simpl.
  unfold db_updateUser. simpl. rewrite Hu. simpl.
  eexists. split_and!; done.
Qed.

(** X11: requestReset for the email of a stored user, any of its calls
    being allowed to reject.  When none rejects, the request succeeds.
    When it succeeds, it has drawn a token, stored it on that user together
    with an expiry of one hour from now, and sent one mail, to the user's
    stored address, whose text holds the reset link of the frontend with
    that token; the user's identifier, name, email, password and
    permissions, the users with another email, and the cookies are left as
    they were.  When it fails, no mail has been sent, and either the users
    are as they were or the token is stored and it is the mail transport
    that rejected. *)
Theorem requestReset_issues_token (F : faults) (args : obj) (ctx : Context) (w : world)
    (u : User) :
  find_user (db w) (ByEmail (str_field "email" args)) = Some u →
  ((∀ X (c : eff X) w0, F X c w0 = None) →
     ∃ w1, run_faulty E F (requestReset E args ctx) w = (inr "Success!", w1)) ∧
  (∀ answer w1,
     run_faulty E F (requestReset E args ctx) w = (inr answer, w1) →
     answer = "Success!" ∧
     find_user (db w1) (ByEmail (str_field "email" args)) =
       Some (mkUser (user_id u) (user_name u) (user_email u) (user_password u)
               (user_permissions u) (Some (randomBytes_hex E (entropy w) 20))
               (Some (clock w + 3600000))) ∧
     (∀ x, x ∈ users (db w) → user_email x ≠ str_field "email" args →
           x ∈ users (db w1)) ∧
     (∃ pre post,
        outbox w1 = outbox w ++
          [mkMail "help@hoodify.com" (user_email u) "Your Password Reset Token"
             (makeANiceEmail E
                (pre +:+ FRONTEND_URL E +:+ "/reset?resetToken=" +:+
                 randomBytes_hex E (entropy w) 20 +:+ post))]) ∧
     cookies w1 = cookies w) ∧
  (∀ e w1,
     run_faulty E F (requestReset E args ctx) w = (inl e, w1) →
     outbox w1 = outbox w ∧ cookies w1 = cookies w ∧
     (users (db w1) = users (db w) ∨
      find_user (db w1) (ByEmail (str_field "email" args)) =
        Some (mkUser (user_id u) (user_name u) (user_email u) (user_password u)
                (user_permissions u) (Some (randomBytes_hex E (entropy w) 20))
                (Some (clock w + 3600000))) ∧
      ∃ m, F _ (SendMail m) w1 = Some e)).
Proof.
  intros Hu.
  assert (Hstored : find_user
            (set_users (db w)
               (update_where (user_matches (ByEmail (str_field "email" args)))
                  (apply_user_update
                     (<["resetTokenExpiry" := VNum (clock w + 3600000)]>
                        {["resetToken" := VStr (randomBytes_hex E (entropy w) 20)]}))
                  (users (db w))))
            (ByEmail (str_field "email" args)) =
          Some (mkUser (user_id u) (user_name u) (user_email u) (user_password u)
                  (user_permissions u) (Some (randomBytes_hex E (entropy w) 20))
                  (Some (clock w + 3600000)))).
  { unfold find_user. simpl.
    rewrite (find_update_where _ _ _ u); [by rewrite apply_reset_fields| |done].
    intros x. by apply user_matches_email_update. }
  split_and!.
  - intros HF. rewrite run_faulty_no_fault by done.
    destruct (requestReset_run args ctx w u Hu) as (w1 & Hrun & _). by exists w1.
  - intros answer w1 H. unfold requestReset in H. simpl in H.
    unfold handle_faulty in H.
    destruct (F _ (QUser _) w); [discriminate|]. simpl in H. rewrite Hu in H.
    simpl in H. unfold handle_faulty in H.
    destruct (F _ (RandomHex _) w); [discriminate|]. simpl in H.
    unfold handle_faulty in H.
    destruct (F _ DateNow _); [discriminate|]. simpl in H.
    unfold handle_faulty in H.
    destruct (F _ (MUpdateUser _ _) _); [discriminate|]. simpl in H.
    unfold db_updateUser in H. simpl in H. rewrite Hu in H. simpl in H.
    unfold handle_faulty in H.
    destruct (F _ (SendMail _) _); [discriminate|]. simpl in H.
    injection H as <- <-. simpl. split_and!; [done|exact Hstored| |..|done].
    + intros x Hx Hne. apply elem_of_update_where.
      exists x. split; [done|]. simpl. by rewrite bool_decide_eq_false_2.
    + exists ("Your Password Reset Token is here! " +:+ newline +:+ newline +:+
              " <a href=" +:+ dquote), (dquote +:+ ">Click Here to Reset</a>").
      reflexivity.
  - intros e w1 H. unfold requestReset in H. simpl in H.
    unfold handle_faulty in H.
    destruct (F _ (QUser _) w).
    { injection H as <- <-. split_and!; [done..|by left]. }
    simpl in H. rewrite Hu in H. simpl in H. unfold handle_faulty in H.
    destruct (F _ (RandomHex _) w).
    { injection H as <- <-. split_and!; [done..|by left]. }
    simpl in H. unfold handle_faulty in H.
    destruct (F _ DateNow _).
    { injection H as <- <-. split_and!; [done..|by left]. }
    simpl in H. unfold handle_faulty in H.
    destruct (F _ (MUpdateUser _ _) _).
    { injection H as <- <-. split_and!; [done..|by left]. }
    simpl in H. unfold db_updateUser in H. simpl in H. rewrite Hu in H. simpl in H.
    unfold handle_faulty in H.
    destruct (F _ (SendMail _) _) eqn:Hmail; [|discriminate].
    injection H as <- <-. split_and!; [done..|]. right. split; [exact Hstored|].
    by eexists.
Qed.

Lemma resetPassword_accepts (args : obj) (ctx : Context) (w : world)
    (u u0 : User) (rest : list User) :
  str_field "password" args = str_field "confirmPassword" args →
  query_users_reset (db w) (str_field "resetToken" args) (clock w - 3600000) = u :: rest →
  bcrypt_compare E (str_field "oldPassword" args) (user_password u) = true →
  find_user (db w) (ByEmail (user_email u)) = Some u0 →
  ∃ w', run E (resetPassword args ctx) w =
          (inr (mkUser (user_id u0) (user_name u0) (user_email u0)
                  (bcrypt_hash E (str_field "password" args))
                  (user_permissions u0) None None), w') ∧
    users (db w') =
      update_where (user_matches (ByEmail (user_email u)))
        (apply_user_update
           (<["resetTokenExpiry" := VNull]>
              (<["resetToken" := VNull]>
                 {["password" := VStr (bcrypt_hash E (str_field "password" args))]})))
        (users (db w)) ∧
    cookies w' = cookies w ++ [Some (jwt_sign E (user_id u0))] ∧
    clock w' = clock w.
Proof.
  intros Hpw Hq Hcmp Hu0. unfold resetPassword.
  rewrite bool_decide_eq_true_2 by done. simpl. rewrite Hq. simpl.
  rewrite Hcmp. simpl. unfold db_updateUser. rewrite Hu0. simpl.
  rewrite apply_new_password. eexists. split_and!; done.
Qed.
End PasswordReset.

Section ResetRoundTrip.
Context (E : collaborators).

(** X12: a token issued by requestReset at time [t] opens resetPassword
    (given matching new passwords and the right current password) at every
    time up to [t] plus two hours, and at no later time: the expiry stored
    is [t] plus one hour and the check allows one more hour.  A reset that
    goes through stores the bcrypt hash of the new password and clears the
    token. *)
Theorem reset_token_window (args rargs : obj) (ctx ctx' : Context) (w : world)
    (u : User) (t' : Z) :
  find_user (db w) (ByEmail (str_field "email" args)) = Some u →
  (∀ x, x ∈ users (db w) →
        user_resetToken x ≠ Some (randomBytes_hex E (entropy w) 20)) →
  str_field "resetToken" rargs = randomBytes_hex E (entropy w) 20 →
  str_field "password" rargs = str_field "confirmPassword" rargs →
  bcrypt_compare E (str_field "oldPassword" rargs) (user_password u) = true →
  ∃ w1, run E (requestReset E args ctx) w = (inr "Success!", w1) ∧
    (t' ≤ clock w + 7200000 →
       ∃ w2, run E (resetPassword rargs ctx') (set_clock w1 t') =
               (inr (mkUser (user_id u) (user_name u) (user_email u)
                       (bcrypt_hash E (str_field "password" rargs))
                       (user_permissions u) None None), w2)) ∧
    (clock w + 7200000 < t' →
       run E (resetPassword rargs ctx') (set_clock w1 t') =
         (inl InvalidOrExpiredToken, set_clock w1 t')).
Proof.
  intros Hu Hfresh Htok Hpw Hcmp.
  destruct (requestReset_run E args ctx w u Hu)
    as (w1 & Hrun & Husers & _ & _ & _ & _ & _ & _ & _ & _).
  exists w1. split; [done|].
  set (tok := randomBytes_hex E (entropy w) 20) in *.
  set (p := user_matches (ByEmail (str_field "email" args))) in *.
  set (f := apply_user_update
              (<["resetTokenExpiry" := VNum (clock w + 3600000)]>
                 {["resetToken" := VStr tok]})) in *.
  assert (Hf : ∀ x, f x = mkUser (user_id x) (user_name x) (user_email x)
                           (user_password x) (user_permissions x) (Some tok)
                           (Some (clock w + 3600000)))
    by (intros x; apply apply_reset_fields).
  assert (Hold : ∀ b x, x ∈ users (db w) → reset_matches tok b x = false)
    by (intros b x Hx; by apply reset_matches_other_token, Hfresh).
  destruct (find_user_email _ _ _ Hu) as [Hemail _].
  split.
  - intros Ht.
    destruct (find_filter_head _ _ _ Hu) as [rest Hrest]. fold p in Hrest.
    assert (Hq : query_users_reset (db (set_clock w1 t')) (str_field "resetToken" rargs)
                   (clock (set_clock w1 t') - 3600000) = f u :: (f <$> rest)).
    { unfold query_users_reset. simpl. rewrite Husers, Htok.
      rewrite (filter_update_where_fresh p _ f); [by rewrite Hrest| by apply Hold |].
      intros x. rewrite Hf. unfold reset_matches. simpl.
      rewrite bool_decide_eq_true_2 by done. simpl. apply Z.leb_le. lia. }
    assert (Hfind : find_user (db (set_clock w1 t')) (ByEmail (user_email (f u))) =
                    Some (f u)).
    { assert (He : user_email (f u) = str_field "email" args) by by rewrite Hf.
      rewrite He. unfold find_user. simpl. rewrite Husers.
      apply find_update_where; [|done].
      intros x. by apply user_matches_email_update. }
    destruct (resetPassword_accepts E rargs ctx' (set_clock w1 t') (f u) (f u)
                (f <$> rest) Hpw Hq) as (w2 & Hrun2 & _); [by rewrite Hf|done|].
    exists w2. rewrite Hrun2. by rewrite Hf.
  - intros Ht. apply resetPassword_refused; [done|].
    unfold query_users_reset. simpl. rewrite Husers, Htok.
    apply filter_nil_forall. intros x Hx.
    apply elem_of_update_where in Hx as (y & Hy & ->).
    destruct (p y); [|by apply Hold].
    rewrite Hf. unfold reset_matches. simpl.
    rewrite bool_decide_eq_true_2 by done. simpl. apply Z.leb_gt. lia.
Qed.

(** X13: a reset token works once: after a resetPassword that went through
    for the one user holding the token, the same arguments are refused with
    [InvalidOrExpiredToken] at any later time, the reset having cleared the
    token. *)
Theorem reset_token_single_use (args : obj) (ctx ctx' : Context) (w w' : world)
    (u u' : User) (t' : Z) :
  query_users_reset (db w) (str_field "resetToken" args) (clock w - 3600000) = [u] →
  run E (resetPassword args ctx) w = (inr u', w') →
  clock w ≤ t' →
  run E (resetPassword args ctx') (set_clock w' t') =
    (inl InvalidOrExpiredToken, set_clock w' t').
Proof.
  intros Hq Hrun Ht.
  assert (Hpw : str_field "password" args = str_field "confirmPassword" args).
  { destruct (decide (str_field "password" args = str_field "confirmPassword" args))
      as [|Hne]; [done|].
    unfold resetPassword in Hrun. rewrite bool_decide_eq_false_2 in Hrun by done.
    discriminate. }
  assert (Hcmp : bcrypt_compare E (str_field "oldPassword" args) (user_password u) = true).
  { destruct (bcrypt_compare E _ _) eqn:Hc; [done|].
    unfold resetPassword in Hrun. rewrite bool_decide_eq_true_2 in Hrun by done.
    simpl in Hrun. rewrite Hq in Hrun. simpl in Hrun. rewrite Hc in Hrun.
    discriminate. }
  assert (Hin : u ∈ users (db w) ∧
                reset_matches (str_field "resetToken" args) (clock w - 3600000) u = true).
  { apply (filter_head_elem_of _ _ _ []). exact Hq. }
  destruct Hin as [Hin Hm].
  destruct (find_user (db w) (ByEmail (user_email u))) as [u0|] eqn:Hu0.
  2: { unfold resetPassword in Hrun. rewrite bool_decide_eq_true_2 in Hrun by done.
       simpl in Hrun. rewrite Hq in Hrun. simpl in Hrun. rewrite Hcmp in Hrun.
       simpl in Hrun. unfold db_updateUser in Hrun. rewrite Hu0 in Hrun.
       discriminate. }
  destruct (resetPassword_accepts E args ctx w u u0 [] Hpw Hq Hcmp Hu0)
    as (w2 & Hrun2 & Husers & _ & _).
  rewrite Hrun in Hrun2. injection Hrun2 as _ <-.
  apply resetPassword_refused; [done|].
  unfold query_users_reset. simpl. rewrite Husers.
  apply filter_nil_forall. intros x Hx.
  apply elem_of_update_where in Hx as (y & Hy & ->).
  destruct (user_matches (ByEmail (user_email u)) y) eqn:Hy'.
  - rewrite apply_new_password. done.
  - apply (reset_matches_later _ (clock w - 3600000)); [lia|].
    destruct (reset_matches _ _ y) eqn:Hmy; [|done].
    assert (Hyq : y ∈ query_users_reset (db w) (str_field "resetToken" args)
                        (clock w - 3600000)).
    { unfold query_users_reset. apply list_elem_of_In, filter_In.
      split; [by apply list_elem_of_In|done]. }
    rewrite Hq in Hyq. apply list_elem_of_singleton in Hyq as ->.
    simpl in Hy'. by rewrite bool_decide_eq_true_2 in Hy'.
Qed.

(** X14: a second requestReset for the same email supersedes the first: once
    it has stored its own (different) token, the first token is refused by
    resetPassword with [InvalidOrExpiredToken], at any time. *)
Theorem reset_token_superseded (args rargs : obj) (ctx ctx' : Context) (w : world)
    (u : User) (t' : Z) :
  find_user (db w) (ByEmail (str_field "email" args)) = Some u →
  (∀ x, x ∈ users (db w) →
        user_resetToken x ≠ Some (randomBytes_hex E (entropy w) 20)) →
  randomBytes_hex E (S (entropy w)) 20 ≠ randomBytes_hex E (entropy w) 20 →
  str_field "resetToken" rargs = randomBytes_hex E (entropy w) 20 →
  str_field "password" rargs = str_field "confirmPassword" rargs →
  ∃ w1 w2,
    run E (requestReset E args ctx) w = (inr "Success!", w1) ∧
    run E (requestReset E args ctx) w1 = (inr "Success!", w2) ∧
    run E (resetPassword rargs ctx') (set_clock w2 t') =
      (inl InvalidOrExpiredToken, set_clock w2 t').
Proof.
  intros Hu Hfresh Hdiff Htok Hpw.
  destruct (requestReset_run E args ctx w u Hu)
    as (w1 & Hrun1 & Husers1 & _ & _ & _ & _ & _ & _ & Hclock1 & Hent1).
  assert (Hu1 : find_user (db w1) (ByEmail (str_field "email" args)) =
                Some (apply_user_update
                        (<["resetTokenExpiry" := VNum (clock w + 3600000)]>
                           {["resetToken" := VStr (randomBytes_hex E (entropy w) 20)]}) u)).
  { unfold find_user. rewrite Husers1. apply find_update_where; [|done].
    intros x. by apply user_matches_email_update. }
  destruct (requestReset_run E args ctx w1 _ Hu1)
    as (w2 & Hrun2 & Husers2 & _).
  exists w1, w2. split_and!; [done..|].
  apply resetPassword_refused; [done|].
  unfold query_users_reset. simpl. rewrite Husers2, Htok.
  apply filter_nil_forall. intros x Hx.
  apply elem_of_update_where in Hx as (y & Hy & ->).
  apply reset_matches_other_token.
  destruct (user_matches (ByEmail (str_field "email" args)) y) eqn:Hpy.
  - rewrite apply_reset_fields. simpl. rewrite Hent1. congruence.
  - rewrite Husers1 in Hy. apply elem_of_update_where in Hy as (z & Hz & ->).
    destruct (user_matches (ByEmail (str_field "email" args)) z) eqn:Hpz.
    + rewrite user_matches_email_update in Hpy by done. congruence.
    + by apply Hfresh.
Qed.

(** X15: resetPassword compares the two new passwords before it looks at
    the token, and the current password before it writes: new passwords that
    differ are refused with 'Passwords do not match' whatever the token; a
    valid token with a current password bcrypt rejects is refused with
    'Invalid current password'; in both cases nothing is changed. *)
Theorem resetPassword_checks_passwords (args : obj) (ctx : Context) (w : world) :
  (str_field "password" args ≠ str_field "confirmPassword" args →
     run E (resetPassword args ctx) w = (inl PasswordMismatch, w)) ∧
  (∀ u rest,
     str_field "password" args = str_field "confirmPassword" args →
     query_users_reset (db w) (str_field "resetToken" args) (clock w - 3600000) =
       u :: rest →
     bcrypt_compare E (str_field "oldPassword" args) (user_password u) = false →
     run E (resetPassword args ctx) w = (inl (JsError "Invalid current password"), w)).
Proof.
  split.
  - intros Hne. unfold resetPassword. by rewrite bool_decide_eq_false_2.
  - intros u rest Hpw Hq Hcmp. unfold resetPassword.
    rewrite bool_decide_eq_true_2 by done. simpl. rewrite Hq. simpl.
    by rewrite Hcmp.
Qed.
End ResetRoundTrip.

(** ** Granting permissions *)

Lemma user_matches_id_update (i : ID) (data : obj) (u : User) :
  data !! "id" = None →
  user_matches (ById i) (apply_user_update data u) = user_matches (ById i) u.
Proof. intros H. unfold user_matches, apply_user_update, upd_str. simpl. by rewrite H. Qed.

Section Permissions.
Context (E : collaborators).

Lemma updatePermissions_run (args : obj) (ctx : Context) (w : world) (uid : ID) :
  req_userId ctx = Some uid → uid ≠ "" →
  run E (updatePermissions args ctx) w =
  run E (_ ← hasPermission (selected (info ctx) <$> find_user (db w) (ById uid))
               ["ADMIN"; "PERMISSIONUPDATE"];
         call (MUpdateUser (ById (str_field "userId" args))
                 {["permissions" := VSet (set_field "permissions" args)]})) w.
Proof.
  intros Hu Hne. unfold updatePermissions, truthy. rewrite Hu.
  rewrite bool_decide_eq_false_2 by done. reflexivity.
Qed.

Lemma selected_permissions (fields : list string) (u : User) (p : string) :
  p ∈ user_permissions (selected fields u) → p ∈ user_permissions u.
Proof.
  unfold selected. destruct (bool_decide _); [done|]. simpl.
  intros H. by apply elem_of_nil in H.
Qed.

Lemma selected_all (fields : list string) (u : User) :
  "permissions" ∈ fields → selected fields u = u.
Proof. intros H. unfold selected. by rewrite bool_decide_eq_true_2. Qed.

(** X16: updatePermissions, for a signed-in caller whose stored permissions
    hold ADMIN or PERMISSIONUPDATE and a request that selects the
    [permissions] of its answer (the caller is queried under that
    selection), replaces the target user's permissions by the list of the
    arguments (nothing of the old list is kept) and changes nothing else of
    that user, nor any other user. *)
Theorem updatePermissions_replaces (args : obj) (ctx : Context) (w : world)
    (uid : ID) (caller target : User) :
  req_userId ctx = Some uid → uid ≠ "" →
  "permissions" ∈ info ctx →
  find_user (db w) (ById uid) = Some caller →
  "ADMIN" ∈ user_permissions caller ∨ "PERMISSIONUPDATE" ∈ user_permissions caller →
  find_user (db w) (ById (str_field "userId" args)) = Some target →
  ∃ w',
    run E (updatePermissions args ctx) w =
      (inr (mkUser (user_id target) (user_name target) (user_email target)
              (user_password target) (set_field "permissions" args)
              (user_resetToken target) (user_resetTokenExpiry target)), w') ∧
    find_user (db w') (ById (str_field "userId" args)) =
      Some (mkUser (user_id target) (user_name target) (user_email target)
              (user_password target) (set_field "permissions" args)
              (user_resetToken target) (user_resetTokenExpiry target)) ∧
    (∀ x, x ∈ users (db w) → user_id x ≠ str_field "userId" args → x ∈ users (db w')).
Proof.
  intros Hu Hne Hsel Hc Hp Ht.
  rewrite (updatePermissions_run args ctx w uid), Hc by done.
  cbn [fmap option_fmap option_map]. rewrite selected_all by done.
  assert (Hgrant : hasPermission (Some caller) ["ADMIN"; "PERMISSIONUPDATE"] = Ret tt).
  { destruct Hp as [Hp|Hp].
    - apply (hasPermission_granted caller _ "ADMIN"); [done|by left].
    - apply (hasPermission_granted caller _ "PERMISSIONUPDATE"); [done|].
      right. by left. }
  rewrite Hgrant. simpl. unfold db_updateUser. rewrite Ht. simpl.
  rewrite apply_permissions. eexists. split_and!; [done| |].
  - unfold find_user. simpl.
    rewrite (find_update_where _ _ _ target); [by rewrite apply_permissions| |done].
    intros x. by apply user_matches_id_update.
  - intros x Hx Hne'. simpl. apply elem_of_update_where.
    exists x. split; [done|]. simpl. by rewrite bool_decide_eq_false_2.
Qed.

(** X17: updatePermissions judges the caller by the permissions stored for
    the caller's identifier, not by the user the request carries: a caller
    whose stored permissions hold neither ADMIN nor PERMISSIONUPDATE is
    refused with [PermissionDenied] and nothing is changed, whatever the
    request's user claims. *)
Theorem updatePermissions_uses_stored_permissions (args : obj) (ctx : Context)
    (w : world) (uid : ID) (caller : User) :
  req_userId ctx = Some uid → uid ≠ "" →
  find_user (db w) (ById uid) = Some caller →
  "ADMIN" ∉ user_permissions caller →
  "PERMISSIONUPDATE" ∉ user_permissions caller →
  run E (updatePermissions args ctx) w = (inl PermissionDenied, w).
Proof.
  intros Hu Hne Hc Ha Hpu. rewrite (updatePermissions_run args ctx w uid), Hc by done.
  cbn [fmap option_fmap option_map].
  rewrite hasPermission_refused; [done|].
  intros p Hp Hin. apply selected_permissions in Hp. rewrite !elem_of_cons in Hin.
  destruct Hin as [->|[->|Hin]]; [done..|]. by apply elem_of_nil in Hin.
Qed.
End Permissions.

(** ** Checkout: the order's items, dangling cart entries, overlapping checkouts *)

Lemma orderItem_snapshot (id uid : ID) (c : CartEntry) (it : Item) :
  ce_item c = Some it →
  orderItem_of_data id (orderItem_of uid c) =
  mkOrderItem id (item_title it) (item_description it) (item_image it)
    (item_largeImage it) (item_price it) (ce_quantity c) uid.
Proof.
  intros Hit. unfold orderItem_of. rewrite Hit. destruct it, c. reflexivity.
Qed.

Lemma orderItems_snapshot (uid : ID) (n : N) (cart : list CartEntry) :
  Forall (λ c, is_Some (ce_item c)) cart →
  Forall2 (snapshot_of uid) (orderItems_of_data n (orderItem_of uid <$> cart)) cart.
Proof.
  intros HF. revert n. induction HF as [|c cart [it Hit] _ IH]; intros n.
  - constructor.
  - rewrite fmap_cons. simpl. constructor; [|apply IH].
    exists it. split; [done|]. by rewrite (orderItem_snapshot _ _ _ it).
Qed.

Lemma orderItem_payload_of (uid : ID) (c : CartEntry) (it : Item) :
  ce_item c = Some it →
  orderItem_of uid c = orderItem_payload uid it (ce_quantity c) ∧
  orderItem_of uid c !! "id" = None.
Proof.
  intros Hit. split; [|apply lookup_delete_eq].
  unfold orderItem_of, orderItem_payload, spread_item. rewrite Hit. cbv zeta.
  rewrite !(delete_insert_ne _ "id") by done.
  rewrite delete_insert_eq, !(delete_insert_ne _ "id") by done.
  by rewrite delete_singleton_ne by done.
Qed.

Lemma orderItems_payload (uid : ID) (cart : list CartEntry) :
  Forall (λ c, is_Some (ce_item c)) cart →
  Forall2 (payload_of uid) (orderItem_of uid <$> cart) cart.
Proof.
  induction 1 as [|c cart [it Hit] _ IH]; [constructor|].
  rewrite fmap_cons. constructor; [|exact IH].
  exists it. split; [done|]. by apply orderItem_payload_of.
Qed.

Lemma snapshot_sum (uid : ID) (ois : list OrderItem) (cart : list CartEntry) :
  Forall2 (snapshot_of uid) ois cart →
  foldr Z.add 0 ((λ oi, oi_price oi * oi_quantity oi) <$> ois) = cart_sum cart.
Proof.
  induction 1 as [|oi c ois cart (it & Hit & Hoi) _ IH]; [done|].
  rewrite fmap_cons, cart_sum_cons. simpl. rewrite IH.
  unfold line_total. rewrite Hit, Hoi. simpl. done.
Qed.

Lemma reduce_total_dangling (cart : list CartEntry) (total : Z) (c : CartEntry) :
  c ∈ cart → ce_item c = None → reduce_total cart total = None.
Proof.
  intros Hin Hc. revert total. induction cart as [|x cart IH]; intros total.
  - by apply elem_of_nil in Hin.
  - simpl. apply elem_of_cons in Hin as [<-|Hin]; [by rewrite Hc|].
    destruct (ce_item x); [by apply IH|done].
Qed.

Section CheckoutAtLarge.
Context (E : collaborators).

(** X18: the items a successful checkout hands to the order creation are
    made from the fetched cart, entry by entry: each payload holds the
    title, description, images and price of the entry's item, the entry's
    quantity and the connection to the caller, and no [id]; the items of
    the persisted order are those copies.  Their [price * quantity] sum, in
    the integers, is the sum over the cart; where the cart sums exactly
    that is the amount that was submitted to the gateway, and the order's
    [total], which is the gateway's confirmed amount, agrees with it
    exactly when the gateway confirms the amount it was asked for. *)
Theorem createOrder_items_are_cart_snapshot (args : obj) (ctx : Context)
    (w w' : world) (order : Order) :
  run E (createOrder args ctx) w = (inr order, w') →
  ∃ uid user cart amount charge payloads,
    req_userId ctx = Some uid ∧
    query_user_cart (db w) uid = Some (user, cart) ∧
    reduce_total cart 0 = Some amount ∧
    stripe_charges_create E (charges w)
      (mkChargeReq amount "USD" (str_field "token" args)) = inr charge ∧
    writes w' = writes w ++
      [WCreateOrder (mkOrderCreate (charge_amount charge) (charge_id charge) payloads uid);
       WDeleteManyCartItems (ce_id <$> cart)] ∧
    Forall2 (payload_of uid) payloads cart ∧
    Forall2 (snapshot_of uid) (order_items order) cart ∧
    order_items_sum order = cart_sum cart ∧
    (sums_exactly cart →
       amount = order_items_sum order ∧
       (order_total order = order_items_sum order ↔ charge_amount charge = amount)).
Proof.
  intros H.
  destruct (createOrder_run_cases E args ctx w) as [[_ Hr]|(uid & Hu & Hne & Hr)];
    rewrite Hr in H; [discriminate|].
  rewrite checkout_body_run_env in H. simpl in H.
  destruct (query_user_cart (db w) uid) as [[user cart]|] eqn:Hq; [|discriminate].
  destruct (reduce_total cart 0) as [amount|] eqn:Ha; [|discriminate].
  pose proof (reduce_total_items _ _ _ Ha) as HF.
  destruct (stripe_charges_create E _ _) as [reason|charge] eqn:Hc; [discriminate|].
  simpl in H. injection H as <- <-.
  pose proof (orderItems_snapshot uid (N.succ (next_id (db w))) cart HF) as Hsnap.
  assert (Hsum : foldr Z.add 0
            ((λ oi, oi_price oi * oi_quantity oi) <$>
               orderItems_of_data (N.succ (next_id (db w))) (orderItem_of uid <$> cart)) =
            cart_sum cart) by (by apply (snapshot_sum uid)).
  exists uid, user, cart, amount, charge, (orderItem_of uid <$> cart).
  split_and!; try done.
  - simpl. by rewrite <- app_assoc.
  - by apply orderItems_payload.
  - intros Hb. apply reduce_total_sum in Ha; [|done]. subst amount.
    unfold order_items_sum. simpl. by rewrite Hsum.
Qed.

(** X19: a cart entry whose item no longer exists stops the checkout at
    the computation of the total, with a [TypeError] (the price is read off
    a [null] item): no charge is submitted and nothing is written. *)
Theorem createOrder_dangling_cart_entry (args : obj) (ctx : Context) (w : world)
    (uid : ID) (user : User) (cart : list CartEntry) (c : CartEntry) :
  req_userId ctx = Some uid → uid ≠ "" →
  query_user_cart (db w) uid = Some (user, cart) →
  c ∈ cart → ce_item c = None →
  run E (createOrder args ctx) w = (inl TypeError, w).
Proof.
  intros Hu Hne Hq Hin Hc.
  rewrite (createOrder_signed_in args ctx uid), <- run_env_alone with (n := 0%nat)
    by done.
  rewrite checkout_body_run_env. simpl. rewrite Hq.
  by rewrite (reduce_total_dangling cart 0 c).
Qed.

(** X20: nothing keeps two checkouts of one caller apart.  When a second
    checkout of the same cart runs between the first one's cart query and
    its charge, and the gateway accepts both charges, the cart is charged
    twice, for the amount the reduction over the one cart computed, and two
    orders are persisted, the items of each being copies of the entries of
    that cart. *)
Theorem overlapping_checkouts_charge_twice (args : obj) (ctx : Context) (w : world)
    (uid : ID) (user : User) (cart : list CartEntry) (amount : Z) (ch1 ch2 : Charge) :
  req_userId ctx = Some uid → uid ≠ "" →
  query_user_cart (db w) uid = Some (user, cart) →
  reduce_total cart 0 = Some amount →
  stripe_charges_create E (charges w)
    (mkChargeReq amount "USD" (str_field "token" args)) = inr ch1 →
  stripe_charges_create E
    (charges w ++ [mkChargeReq amount "USD" (str_field "token" args)])
    (mkChargeReq amount "USD" (str_field "token" args)) = inr ch2 →
  ∃ o1 o2 w' h,
    run_env E (overlapped E (createOrder args ctx)) 0 (createOrder args ctx) w =
      (inr o2, w', h) ∧
    charges w' = charges w ++
      [mkChargeReq amount "USD" (str_field "token" args);
       mkChargeReq amount "USD" (str_field "token" args)] ∧
    orders (db w') = orders (db w) ++ [o1; o2] ∧
    order_id o1 ≠ order_id o2 ∧
    order_total o1 = charge_amount ch1 ∧ order_total o2 = charge_amount ch2 ∧
    order_charge o1 = charge_id ch1 ∧ order_charge o2 = charge_id ch2 ∧
    Forall2 (snapshot_of uid) (order_items o1) cart ∧
    Forall2 (snapshot_of uid) (order_items o2) cart.
Proof.
  intros Hu Hne Hq Ha Hc1 Hc2.
  pose proof (reduce_total_items _ _ _ Ha) as HF.
  assert (Hother : run E (createOrder args ctx) w =
            (run_env E (λ _ w, w) 0 (checkout_body args uid) w).1)
    by (by rewrite (createOrder_signed_in args ctx uid), run_env_alone).
  rewrite checkout_body_run_env in Hother. simpl in Hother.
  rewrite Hq, Ha, Hc1 in Hother. simpl in Hother.
  set (env := overlapped E (createOrder args ctx)).
  rewrite (createOrder_signed_in args ctx uid) by done.
  rewrite checkout_body_run_env. subst env. cbv zeta. unfold overlapped.
  rewrite (bool_decide_eq_false_2 (0 = 1)%nat), (bool_decide_eq_true_2 (1 = 1)%nat),
    (bool_decide_eq_false_2 (2 = 1)%nat), (bool_decide_eq_false_2 (3 = 1)%nat) by lia.
  rewrite Hq, Ha, !Hother. simpl. rewrite Hc2. simpl.
  eexists _, _, _, _. split_and!.
  - done.
  - simpl. by rewrite <- app_assoc.
  - simpl. by rewrite <- app_assoc.
  - simpl. intros Hid. apply mkid_inj in Hid. lia.
  - done.
  - done.
  - done.
  - done.
  - simpl. by apply orderItems_snapshot.
  - simpl. by apply orderItems_snapshot.
Qed.
End CheckoutAtLarge.

(** ** Overlapping add-to-cart requests *)

Section CartAtLarge.
Context (E : collaborators).

(** X21: add-to-cart decides on what it has read: when another add-to-cart
    of the same caller for the same item runs between the query that found
    no row and the write, both create a row, and the pair ends up with two
    rows of quantity 1 instead of one row of quantity 2. *)
Theorem overlapping_addToCart_duplicates (args : obj) (ctx : Context) (w : world)
    (uid : ID) :
  req_userId ctx = Some uid → uid ≠ "" →
  query_cartItems (db w) uid (str_field "id" args) = [] →
  ∃ w' h,
    run_env E (overlapped_add E (addToCart args ctx)) 0 (addToCart args ctx) w =
      (inr (mkCartItem (mkid (next_id (db w) + 1)) 1 (str_field "id" args) uid), w', h) ∧
    cartItems (db w') = cartItems (db w) ++
      [mkCartItem (mkid (next_id (db w))) 1 (str_field "id" args) uid;
       mkCartItem (mkid (next_id (db w) + 1)) 1 (str_field "id" args) uid] ∧
    query_cartItems (db w') uid (str_field "id" args) =
      [mkCartItem (mkid (next_id (db w))) 1 (str_field "id" args) uid;
       mkCartItem (mkid (next_id (db w) + 1)) 1 (str_field "id" args) uid].
Proof.
  intros Hu Hne Hq.
  pose proof (addToCart_absent E args ctx w uid Hu Hne Hq) as Hother.
  set (env := overlapped_add E (addToCart args ctx)).
  unfold addToCart, truthy. rewrite Hu.
  rewrite bool_decide_eq_false_2 by done. simpl.
  subst env. unfold overlapped_add.
  rewrite (bool_decide_eq_false_2 (0 = 1)%nat) by lia.
  rewrite Hq. simpl.
  rewrite ?(bool_decide_eq_true_2 (1 = 1)%nat) by lia.
  rewrite Hother. simpl. unfold db_createCartItem. simpl.
  rewrite cartItem_of_connects.
  eexists _, _. split_and!.
  - done.
  - simpl. by rewrite <- app_assoc.
  - unfold query_cartItems in *. simpl. rewrite <- app_assoc.
    rewrite List.filter_app, Hq. simpl. unfold cart_matches. simpl.
    by rewrite !bool_decide_eq_true_2.
Qed.
End CartAtLarge.

(** ** What a mutation leaves alone *)

Section Frames.
Context (E : collaborators).

Lemma calls_none_run {A B} (proj : world → B) (bad : ∀ X, eff X → bool) :
  (∀ X (c : eff X) w r w', bad X c = false → handle E c w = (r, w') → proj w' = proj w) →
  ∀ (p : prog A) w r w', calls_none bad p → run E p w = (r, w') → proj w' = proj w.
Proof.
  intros Hh p. induction p as [a|e|X c k IH]; simpl; intros w r w' Hp H.
  - by injection H as _ <-.
  - by injection H as _ <-.
  - destruct Hp as [Hc Hk]. destruct (handle E c w) as [[e|x] w1] eqn:Hhc.
    + injection H as _ <-. by eapply Hh.
    + transitivity (proj w1); [by eapply IH | by eapply Hh].
Qed.

Lemma calls_none_run_faulty {A B} (F : faults) (proj : world → B)
    (bad : ∀ X, eff X → bool) :
  (∀ X (c : eff X) w r w', bad X c = false → handle E c w = (r, w') → proj w' = proj w) →
  ∀ (p : prog A) w r w',
    calls_none bad p → run_faulty E F p w = (r, w') → proj w' = proj w.
Proof.
  intros Hh p. induction p as [a|e|X c k IH]; simpl; intros w r w' Hp H.
  - by injection H as _ <-.
  - by injection H as _ <-.
  - destruct Hp as [Hc Hk]. unfold handle_faulty in H.
    destruct (F X c w) as [e|]; [by injection H as _ <-|].
    destruct (handle E c w) as [[e|x] w1] eqn:Hhc.
    + injection H as _ <-. by eapply Hh.
    + transitivity (proj w1); [by eapply IH | by eapply Hh].
Qed.

Lemma calls_none_world {A B} (proj : world → B) (bad : ∀ X, eff X → bool) :
  (∀ X (c : eff X) w r w', bad X c = false → handle E c w = (r, w') → proj w' = proj w) →
  ∀ (p : prog A) w, calls_none bad p → proj (run E p w).2 = proj w.
Proof.
  intros Hh p w Hp. destruct (run E p w) as [r w'] eqn:Hrun.
  by apply (calls_none_run proj bad Hh p w r w').
Qed.

Lemma handle_keeps_charges {X} (c : eff X) (w w' : world) (r : error + X) :
  is_charge c = false → handle E c w = (r, w') → charges w' = charges w.
Proof.
  destruct c; simpl; try discriminate; intros _; unfold ok, wrote;
    intros H; repeat case_match; simplify_eq; done.
Qed.

Lemma handle_keeps_orders {X} (c : eff X) (w w' : world) (r : error + X) :
  creates_order c = false → handle E c w = (r, w') → orders (db w') = orders (db w).
Proof.
  destruct c; simpl; try discriminate; intros _;
    unfold ok, wrote, db_updateItem, db_deleteItem, db_createUser, db_updateUser,
      db_updateCartItem, db_deleteCartItem;
    intros H; repeat case_match; simplify_eq; done.
Qed.

Lemma handle_keeps_items {X} (c : eff X) (w w' : world) (r : error + X) :
  writes_items c = false → handle E c w = (r, w') → items (db w') = items (db w).
Proof.
  destruct c; simpl; try discriminate; intros _;
    unfold ok, wrote, db_updateItem, db_deleteItem, db_createUser, db_updateUser,
      db_updateCartItem, db_deleteCartItem;
    intros H; repeat case_match; simplify_eq; done.
Qed.

Lemma handle_keeps_users {X} (c : eff X) (w w' : world) (r : error + X) :
  writes_users c = false → handle E c w = (r, w') → users (db w') = users (db w).
Proof.
  destruct c; simpl; try discriminate; intros _;
    unfold ok, wrote, db_updateItem, db_deleteItem, db_createUser, db_updateUser,
      db_updateCartItem, db_deleteCartItem;
    intros H; repeat case_match; simplify_eq; done.
Qed.

Lemma handle_keeps_cart {X} (c : eff X) (w w' : world) (r : error + X) :
  writes_cart c = false → handle E c w = (r, w') → cartItems (db w') = cartItems (db w).
Proof.
  destruct c; simpl; try discriminate; intros _;
    unfold ok, wrote, db_updateItem, db_deleteItem, db_createUser, db_updateUser,
      db_updateCartItem, db_deleteCartItem;
    intros H; repeat case_match; simplify_eq; done.
Qed.

Lemma handle_keeps_outbox {X} (c : eff X) (w w' : world) (r : error + X) :
  sends_mail c = false → handle E c w = (r, w') → outbox w' = outbox w.
Proof.
  destruct c; simpl; try discriminate; intros _; unfold ok, wrote;
    intros H; repeat case_match; simplify_eq; done.
Qed.
End Frames.

Ltac calls_step := first [guards_step | split].

Ltac resolver_calls :=
  unfold resolve, createItem, updateItem, deleteItem, signup, signin, signout,
    requestReset, resetPassword, updatePermissions, addToCart, removeFromCart,
    createOrder;
  repeat calls_step.

Section Footprints.
Context (E : collaborators).

Lemma resolve_createOrder_world (args : obj) (ctx : Context) (w : world) :
  (run E (resolve E CreateOrder args ctx) w).2 = (run E (createOrder args ctx) w).2 ∧
  (run E (resolve E CreateOrder args ctx) w).1 =
    match (run E (createOrder args ctx) w).1 with
    | inl e => inl e
    | inr o => inr (ROrder o)
    end.
Proof.
  unfold resolve. rewrite run_bind.
  by destruct (run E (createOrder args ctx) w) as [[e|o] w1].
Qed.

Lemma createOrder_outcomes (args : obj) (ctx : Context) (w : world) :
  (∃ e, run E (createOrder args ctx) w = (inl e, w)) ∨
  (∃ e amount, run E (createOrder args ctx) w =
     (inl e, log_charge (mkChargeReq amount "USD" (str_field "token" args)) w)) ∨
  (∃ o amount w', run E (createOrder args ctx) w = (inr o, w') ∧
     charges w' = charges w ++ [mkChargeReq amount "USD" (str_field "token" args)] ∧
     orders (db w') = orders (db w) ++ [o]).
Proof.
  destruct (createOrder_run_cases E args ctx w) as [[_ Hr]|(uid & Hu & Hne & Hr)];
    rewrite Hr; [left; by eexists|].
  rewrite checkout_body_run_env. simpl.
  destruct (query_user_cart (db w) uid) as [[user cart]|]; [|left; by eexists].
  destruct (reduce_total cart 0) as [amount|]; [|left; by eexists].
  destruct (stripe_charges_create E _ _) as [reason|charge]; simpl.
  - right. left. by eexists _, _.
  - right. right. eexists _, amount, _. split_and!; done.
Qed.

(** X22: the payment gateway is contacted by createOrder alone, and at most
    once per request: every other mutation leaves the gateway's ledger as it
    is, and a createOrder adds no request or exactly one, in USD and with
    the token of the arguments as source. *)
Theorem payment_gateway_contact (m : mutation) (args : obj) (ctx : Context) (w : world) :
  match m with
  | CreateOrder =>
      charges (run E (resolve E m args ctx) w).2 = charges w ∨
      ∃ amount, charges (run E (resolve E m args ctx) w).2 =
                charges w ++ [mkChargeReq amount "USD" (str_field "token" args)]
  | _ => charges (run E (resolve E m args ctx) w).2 = charges w
  end.
Proof.
  destruct m.
  all: try solve [apply (calls_none_world E charges (@is_charge));
                  [intros X c ? ? ?; apply handle_keeps_charges | resolver_calls]].
  destruct (resolve_createOrder_world args ctx w) as [-> _].
  destruct (createOrder_outcomes args ctx w)
    as [[e ->]|[(e & amount & ->)|(o & amount & w' & -> & Hc & _)]]; simpl.
  - by left.
  - right. by exists amount.
  - right. by exists amount.
Qed.

(** X23: orders are only ever added, by createOrder, at most one per
    request, any call being allowed to reject: every other mutation leaves
    the orders as they are, and a createOrder either leaves them or appends
    one order.  The order it appends is the one it answers with, unless the
    deletion of the cart items rejected: then the order is stored and the
    request fails with that rejection. *)
Theorem orders_append_only (F : faults) (m : mutation) (args : obj) (ctx : Context)
    (w w' : world) (r : error + response) :
  run_faulty E F (resolve E m args ctx) w = (r, w') →
  orders (db w') = orders (db w) ∨
  (m = CreateOrder ∧
   ∃ o, orders (db w') = orders (db w) ++ [o] ∧
        (r = inr (ROrder o) ∨
         ∃ e ids, r = inl e ∧ F _ (MDeleteManyCartItems ids) w' = Some e)).
Proof.
  destruct m.
  all: try solve [intros H; left;
                  match type of H with
                  | run_faulty _ _ ?request _ = _ =>
                      apply (calls_none_run_faulty E F (λ w, orders (db w))
                               (@creates_order)) with (p := request) (r := r)
                  end;
                  [intros X c ? ? ?; apply handle_keeps_orders | resolver_calls | exact H]].
  unfold resolve, createOrder. intros H.
  destruct (truthy (req_userId ctx)); simpl in H.
  2: { injection H as <- <-. by left. }
  unfold handle_faulty in H.
  destruct (F _ (QUserCart _) w); [injection H as <- <-; by left|].
  simpl in H.
  destruct (query_user_cart _ _) as [[user cart]|]; simpl in H;
    [|injection H as <- <-; by left].
  destruct (reduce_total cart 0) as [amount|]; simpl in H;
    [|injection H as <- <-; by left].
  unfold handle_faulty in H.
  destruct (F _ (StripeCharge _) w); [injection H as <- <-; by left|].
  simpl in H.
  destruct (stripe_charges_create E _ _) as [reason|charge]; simpl in H;
    [injection H as <- <-; by left|].
  unfold handle_faulty in H.
  destruct (F _ (MCreateOrder _) _); [injection H as <- <-; by left|].
  simpl in H. unfold handle_faulty in H.
  destruct (F _ (MDeleteManyCartItems _) _) eqn:Hdel.
  - injection H as <- <-. right. split; [done|]. eexists. split; [done|].
    right. by eexists _, _.
  - simpl in H. injection H as <- <-. right. split; [done|]. eexists.
    split; [done|]. by left.
Qed.

(** X24: each mutation writes its own tables only.  Items are written by
    createItem, updateItem and deleteItem alone; users by signup,
    requestReset, resetPassword and updatePermissions alone; cart items by
    addToCart, removeFromCart and createOrder alone; and mail is sent by
    requestReset alone. *)
Theorem mutation_footprint (m : mutation) (args : obj) (ctx : Context) (w : world) :
  (if may_write_items m then True
   else items (db (run E (resolve E m args ctx) w).2) = items (db w)) ∧
  (if may_write_users m then True
   else users (db (run E (resolve E m args ctx) w).2) = users (db w)) ∧
  (if may_write_cart m then True
   else cartItems (db (run E (resolve E m args ctx) w).2) = cartItems (db w)) ∧
  (if may_send_mail m then True
   else outbox (run E (resolve E m args ctx) w).2 = outbox w).
Proof.
  split_and!; destruct m;
    cbn [may_write_items may_write_users may_write_cart may_send_mail]; try exact I.
  all: first
    [ solve [apply (calls_none_world E (λ w, items (db w)) (@writes_items));
             [intros X c ? ? ?; apply handle_keeps_items | resolver_calls]]
    | solve [apply (calls_none_world E (λ w, users (db w)) (@writes_users));
             [intros X c ? ? ?; apply handle_keeps_users | resolver_calls]]
    | solve [apply (calls_none_world E (λ w, cartItems (db w)) (@writes_cart));
             [intros X c ? ? ?; apply handle_keeps_cart | resolver_calls]]
    | solve [apply (calls_none_world E outbox (@sends_mail));
             [intros X c ? ? ?; apply handle_keeps_outbox | resolver_calls]] ].
Qed.
End Footprints.

(** ** The resolvers at large, on the shop *)

Lemma removeFromCart_refuses_foreign_rows_witness :
  (∀ c, find_cartItem (db shop) (str_field "id" k1_args) = Some c →
        req_userId bob_ctx ≠ Some (ci_user c)) ∧
  run shopE (removeFromCart k1_args bob_ctx) shop = (inl OwnershipDenied, shop).
Proof.
  assert (H : ∀ c, find_cartItem (db shop) (str_field "id" k1_args) = Some c →
                   req_userId bob_ctx ≠ Some (ci_user c)).
  { intros c Hc. vm_compute in Hc. injection Hc as <-. discriminate. }
  split; [exact H|].
  exact (removeFromCart_refuses_foreign_rows shopE k1_args bob_ctx shop H).
Defined.

Lemma removeFromCart_removes_own_row_witness :
  find_cartItem (db shop) (str_field "id" k1_args) = Some (mkCartItem "k1" 2 "i1" "u1") ∧
  req_userId ann_ctx = Some (ci_user (mkCartItem "k1" 2 "i1" "u1")) ∧
  ∃ w', run shopE (removeFromCart k1_args ann_ctx) shop =
          (inr (mkCartItem "k1" 2 "i1" "u1"), w') ∧
        find_cartItem (db w') (str_field "id" k1_args) = None.
Proof.
  assert (H1 : find_cartItem (db shop) (str_field "id" k1_args) =
               Some (mkCartItem "k1" 2 "i1" "u1")) by reflexivity.
  assert (H2 : req_userId ann_ctx = Some (ci_user (mkCartItem "k1" 2 "i1" "u1")))
    by reflexivity.
  split_and!; [exact H1|exact H2|].
  destruct (removeFromCart_removes_own_row shopE k1_args ann_ctx shop _ H1 H2)
    as (w' & Hr & Hf & _).
  exists w'. split; [exact Hr|exact Hf].
Defined.

Lemma createItem_owned_by_caller_witness :
  req_userId ann_ctx = Some "u1" ∧ "u1" ≠ "" ∧ req_user ann_ctx = Some ann ∧
  "ITEMCREATE" ∈ user_permissions ann ∧ glove_args !! "user" = None ∧
  item_ids_generated (db shop) ∧
  ∃ w', run shopE (createItem glove_args ann_ctx) shop =
          (inr (mkItem "c10" "Glove" "A glove" "glove.png" "glove-l.png" 450 "u1"), w') ∧
        items (db w') = items (db shop) ++
          [mkItem "c10" "Glove" "A glove" "glove.png" "glove-l.png" 450 "u1"] ∧
        ("c10" ∉ item_id <$> items (db shop)) ∧
        item_ids_generated (db w').
Proof.
  assert (H1 : req_userId ann_ctx = Some "u1") by reflexivity.
  assert (H2 : "u1" ≠ "") by discriminate.
  assert (H3 : req_user ann_ctx = Some ann) by reflexivity.
  assert (H4 : "ITEMCREATE" ∈ user_permissions ann)
    by (apply list_elem_of_In; vm_compute; tauto).
  assert (H5 : glove_args !! "user" = None) by reflexivity.
  assert (H6 : item_ids_generated (db shop)).
  { intros n _ Hin. simpl in Hin. unfold mkid in Hin. simpl in Hin.
    rewrite !elem_of_cons in Hin.
    destruct Hin as [H|[H|[H|H]]]; try discriminate. by apply elem_of_nil in H. }
  split_and!; [exact H1|exact H2|exact H3|exact H4|exact H5|exact H6|].
  destruct (createItem_owned_by_caller shopE glove_args ann_ctx shop "u1" ann
              H1 H2 H3 H4 H5) as (item & w' & Hr & Hitem & Hitems & _ & _ & Hgen).
  destruct (Hgen H6) as (Hfresh & _ & Hgen').
  exists w'. rewrite Hr, Hitems. rewrite Hitem in Hfresh |- *.
  split_and!; [reflexivity|reflexivity|exact Hfresh|exact Hgen'].
Defined.

Lemma deleteItem_removes_item_witness :
  find_item (db shop) (str_field "id" sock_args) = Some sock ∧
  req_userId bob_ctx = Some (item_user sock) ∧
  req_user bob_ctx = Some bob ∧
  "ITEMDELETE" ∈ user_permissions bob ∧
  ∃ w', run shopE (deleteItem sock_args bob_ctx) shop = (inr sock, w') ∧
        find_item (db w') (str_field "id" sock_args) = None ∧
        cartItems (db w') = cartItems (db shop).
Proof.
  assert (H1 : find_item (db shop) (str_field "id" sock_args) = Some sock) by reflexivity.
  assert (H2 : req_userId bob_ctx = Some (item_user sock)) by reflexivity.
  assert (H3 : req_user bob_ctx = Some bob) by reflexivity.
  assert (H4 : "ITEMDELETE" ∈ user_permissions bob)
    by (apply list_elem_of_In; vm_compute; tauto).
  split_and!; [exact H1|exact H2|exact H3|exact H4|].
  destruct (deleteItem_removes_item shopE sock_args bob_ctx shop sock bob H1 H2 H3 H4)
    as (w' & Hr & Hf & _ & Hc & _).
  exists w'. split_and!; [exact Hr|exact Hf|exact Hc].
Defined.

Lemma item_mutation_needs_owner_witness :
  find_item (db shop) (str_field "id" hat_args) = Some hat ∧
  req_userId bob_ctx ≠ Some (item_user hat) ∧
  run shopE (updateItem hat_args bob_ctx) shop = (inl OwnershipDenied, shop) ∧
  run shopE (deleteItem hat_args bob_ctx) shop = (inl OwnershipDenied, shop).
Proof.
  assert (H1 : find_item (db shop) (str_field "id" hat_args) = Some hat) by reflexivity.
  assert (H2 : req_userId bob_ctx ≠ Some (item_user hat)) by discriminate.
  split_and!; [exact H1|exact H2|..];
    apply (item_mutation_needs_owner shopE hat_args bob_ctx shop hat H1 H2).
Defined.

Lemma item_mutation_needs_permission_witness :
  find_item (db shop_with_mug) (str_field "id" mug_args) = Some mug ∧
  req_userId cat_ctx = Some (item_user mug) ∧
  req_user cat_ctx = Some cat ∧
  ("ITEMUPDATE" ∉ user_permissions cat) ∧
  ("ITEMDELETE" ∉ user_permissions cat) ∧
  run shopE (updateItem mug_args cat_ctx) shop_with_mug =
    (inl PermissionDenied, shop_with_mug) ∧
  run shopE (deleteItem mug_args cat_ctx) shop_with_mug =
    (inl PermissionDenied, shop_with_mug).
Proof.
  assert (H1 : find_item (db shop_with_mug) (str_field "id" mug_args) = Some mug)
    by reflexivity.
  assert (H2 : req_userId cat_ctx = Some (item_user mug)) by reflexivity.
  assert (H3 : req_user cat_ctx = Some cat) by reflexivity.
  assert (H4 : "ITEMUPDATE" ∉ user_permissions cat).
  { intros Hin. apply list_elem_of_singleton in Hin. discriminate. }
  assert (H5 : "ITEMDELETE" ∉ user_permissions cat).
  { intros Hin. apply list_elem_of_singleton in Hin. discriminate. }
  split_and!; [exact H1|exact H2|exact H3|exact H4|exact H5|..];
    apply (item_mutation_needs_permission shopE mug_args cat_ctx shop_with_mug mug cat
             H1 H2 H3 H4 H5).
Defined.

Lemma item_mutation_of_missing_item_witness :
  find_item (db shop) (str_field "id" missing_args) = None ∧
  run shopE (updateItem missing_args ann_ctx) shop = (inl TypeError, shop) ∧
  run shopE (deleteItem missing_args ann_ctx) shop = (inl TypeError, shop).
Proof.
  assert (H1 : find_item (db shop) (str_field "id" missing_args) = None) by reflexivity.
  split; [exact H1|].
  exact (item_mutation_of_missing_item shopE missing_args ann_ctx shop H1).
Defined.

Lemma signin_checks_password_witness :
  find_user (db shop) (ByEmail (str_field "email" ann_signin_args)) = Some ann ∧
  bcrypt_compare shopE (str_field "password" ann_signin_args) (user_password ann) = true ∧
  if bcrypt_compare shopE (str_field "password" ann_signin_args) (user_password ann)
  then ∃ w', run shopE (signin ann_signin_args anonymous) shop = (inr ann, w') ∧
             cookies w' = cookies shop ++ [Some (jwt_sign shopE (user_id ann))] ∧
             db w' = db shop ∧ writes w' = writes shop
  else run shopE (signin ann_signin_args anonymous) shop =
         (inl (JsError "Invalid password!"), shop).
Proof.
  assert (H1 : find_user (db shop) (ByEmail (str_field "email" ann_signin_args)) =
               Some ann) by reflexivity.
  split; [exact H1|]. split; [reflexivity|].
  exact (signin_checks_password shopE ann_signin_args anonymous shop ann H1).
Defined.

Lemma signup_creates_account_witness :
  dora_args "Dora@Shop.org" !! "name" = Some (VStr "Dora") ∧
  dora_args "Dora@Shop.org" !! "password" = Some (VStr "pw4") ∧
  run shopE (signup (dora_args "Dora@Shop.org") anonymous) shop =
    (inr dora, (run shopE (signup (dora_args "Dora@Shop.org") anonymous) shop).2) ∧
  ∃ email,
    dora_args "Dora@Shop.org" !! "email" = Some (VStr email) ∧
    user_email dora = String_toLowerCase shopE email ∧
    users (db (run shopE (signup (dora_args "Dora@Shop.org") anonymous) shop).2) =
      users (db shop) ++ [dora] ∧
    cookies (run shopE (signup (dora_args "Dora@Shop.org") anonymous) shop).2 =
      cookies shop ++ [Some "jwt.c10"].
Proof.
  assert (H1 : dora_args "Dora@Shop.org" !! "name" = Some (VStr "Dora")) by reflexivity.
  assert (H2 : dora_args "Dora@Shop.org" !! "password" = Some (VStr "pw4"))
    by reflexivity.
  assert (H : run shopE (signup (dora_args "Dora@Shop.org") anonymous) shop =
              (inr dora, (run shopE (signup (dora_args "Dora@Shop.org") anonymous) shop).2))
    by (vm_compute; reflexivity).
  split_and!; [exact H1|exact H2|exact H|].
  destruct (signup_creates_account shopE (dora_args "Dora@Shop.org") anonymous shop
              _ dora "Dora" "pw4" H1 H2 H) as (email & He & Hd & Hu & _ & _ & Hc).
  exists email. split_and!; [exact He|rewrite Hd; reflexivity|exact Hu|exact Hc].
Defined.

Lemma unknown_email_is_refused_witness :
  find_user (db shop) (ByEmail (str_field "email" nobody_args)) = None ∧
  run shopE (signin nobody_args anonymous) shop =
    (inl (JsError ("No such user found for email " +:+ str_field "email" nobody_args)),
     shop) ∧
  run shopE (requestReset shopE nobody_args anonymous) shop =
    (inl (JsError ("No such user found for email " +:+ str_field "email" nobody_args)),
     shop).
Proof.
  assert (H1 : find_user (db shop) (ByEmail (str_field "email" nobody_args)) = None)
    by reflexivity.
  split; [exact H1|].
  exact (unknown_email_is_refused shopE nobody_args anonymous shop H1).
Defined.

Lemma shop_no_user_holds_token_0 :
  ∀ x, x ∈ users (db shop) → user_resetToken x ≠ Some (randomBytes_hex shopE 0 20).
Proof.
  intros x Hx. simpl in Hx. rewrite !elem_of_cons in Hx.
  destruct Hx as [->|[->|[->|Hx]]]; [discriminate|..|by apply elem_of_nil in Hx].
  - intros Heq. vm_compute in Heq. discriminate.
  - discriminate.
Qed.

Lemma requestReset_issues_token_witness :
  find_user (db shop) (ByEmail (str_field "email" ann_signin_args)) = Some ann ∧
  (∃ w1, run_faulty shopE no_fault (requestReset shopE ann_signin_args anonymous) shop =
           (inr "Success!", w1) ∧
         find_user (db w1) (ByEmail "ann@shop.org") =
           Some (mkUser "u1" "Ann" "ann@shop.org" "$2a$10$pw1"
                   ["USER"; "ITEMCREATE"; "ITEMUPDATE"] (Some "0") (Some 13600000))) ∧
  (∃ w1, run_faulty shopE mail_down (requestReset shopE ann_signin_args anonymous) shop =
           (inl (JsError "connect ECONNREFUSED"), w1) ∧
         outbox w1 = outbox shop ∧
         users (db w1) ≠ users (db shop) ∧
         find_user (db w1) (ByEmail "ann@shop.org") =
           Some (mkUser "u1" "Ann" "ann@shop.org" "$2a$10$pw1"
                   ["USER"; "ITEMCREATE"; "ITEMUPDATE"] (Some "0") (Some 13600000))).
Proof.
  assert (H1 : find_user (db shop) (ByEmail (str_field "email" ann_signin_args)) =
               Some ann) by reflexivity.
  split_and!; [exact H1|..].
  - destruct (requestReset_issues_token shopE no_fault ann_signin_args anonymous shop ann
                H1) as (Hruns & Hok & _).
    destruct (Hruns (λ _ _ _, eq_refl)) as (w1 & Hr).
    exists w1. split; [exact Hr|].
    destruct (Hok _ _ Hr) as (_ & Hf & _). exact Hf.
  - destruct (requestReset_issues_token shopE mail_down ann_signin_args anonymous shop ann
                H1) as (_ & _ & Hfails).
    eexists. split; [vm_compute; reflexivity|].
    destruct (Hfails (JsError "connect ECONNREFUSED") _ eq_refl)
      as (Ho & _ & [Hsame|[Hf _]]).
    + vm_compute in Hsame. discriminate.
    + split_and!; [exact Ho|vm_compute; discriminate|exact Hf].
Defined.

Lemma reset_token_window_witness :
  find_user (db shop) (ByEmail (str_field "email" ann_signin_args)) = Some ann ∧
  str_field "resetToken" ann_reset_args = randomBytes_hex shopE (entropy shop) 20 ∧
  str_field "password" ann_reset_args = str_field "confirmPassword" ann_reset_args ∧
  bcrypt_compare shopE (str_field "oldPassword" ann_reset_args) (user_password ann) = true ∧
  ∃ w1, run shopE (requestReset shopE ann_signin_args anonymous) shop =
          (inr "Success!", w1) ∧
    (∃ w2, run shopE (resetPassword ann_reset_args anonymous)
             (set_clock w1 (clock shop + 7200000)) =
           (inr (mkUser "u1" "Ann" "ann@shop.org" "$2a$10$fresh"
                   ["USER"; "ITEMCREATE"; "ITEMUPDATE"] None None), w2)).
Proof.
  assert (H1 : find_user (db shop) (ByEmail (str_field "email" ann_signin_args)) =
               Some ann) by reflexivity.
  assert (H2 : str_field "resetToken" ann_reset_args =
               randomBytes_hex shopE (entropy shop) 20) by reflexivity.
  assert (H3 : str_field "password" ann_reset_args =
               str_field "confirmPassword" ann_reset_args) by reflexivity.
  assert (H4 : bcrypt_compare shopE (str_field "oldPassword" ann_reset_args)
                 (user_password ann) = true) by reflexivity.
  split_and!; [exact H1|exact H2|exact H3|exact H4|].
  destruct (reset_token_window shopE ann_signin_args ann_reset_args anonymous anonymous
              shop ann (clock shop + 7200000) H1 shop_no_user_holds_token_0 H2 H3 H4)
    as (w1 & Hr & Hin & _).
  exists w1. split; [exact Hr|]. apply Hin. reflexivity.
Defined.

Lemma reset_token_single_use_witness :
  query_users_reset (db shop) (str_field "resetToken" reset_args)
    (clock shop - 3600000) = [bob] ∧
  clock shop ≤ clock shop + 1 ∧
  ∃ u' w', run shopE (resetPassword reset_args anonymous) shop = (inr u', w') ∧
    run shopE (resetPassword reset_args anonymous) (set_clock w' (clock shop + 1)) =
      (inl InvalidOrExpiredToken, set_clock w' (clock shop + 1)).
Proof.
  assert (H1 : query_users_reset (db shop) (str_field "resetToken" reset_args)
                 (clock shop - 3600000) = [bob]) by reflexivity.
  assert (H2 : clock shop ≤ clock shop + 1) by lia.
  split_and!; [exact H1|exact H2|].
  destruct (run shopE (resetPassword reset_args anonymous) shop) as [[e|u'] w'] eqn:Hr;
    [vm_compute in Hr; discriminate|].
  exists u', w'. split; [reflexivity|].
  exact (reset_token_single_use shopE reset_args anonymous anonymous shop w' bob u'
           (clock shop + 1) H1 Hr H2).
Defined.

Lemma reset_token_superseded_witness :
  find_user (db shop) (ByEmail (str_field "email" ann_signin_args)) = Some ann ∧
  randomBytes_hex shopE (S (entropy shop)) 20 ≠ randomBytes_hex shopE (entropy shop) 20 ∧
  ∃ w1 w2,
    run shopE (requestReset shopE ann_signin_args anonymous) shop = (inr "Success!", w1) ∧
    run shopE (requestReset shopE ann_signin_args anonymous) w1 = (inr "Success!", w2) ∧
    run shopE (resetPassword ann_reset_args anonymous) (set_clock w2 (clock shop)) =
      (inl InvalidOrExpiredToken, set_clock w2 (clock shop)).
Proof.
  assert (H1 : find_user (db shop) (ByEmail (str_field "email" ann_signin_args)) =
               Some ann) by reflexivity.
  assert (H2 : randomBytes_hex shopE (S (entropy shop)) 20 ≠
               randomBytes_hex shopE (entropy shop) 20).
  { intros Heq. vm_compute in Heq. discriminate. }
  split_and!; [exact H1|exact H2|].
  exact (reset_token_superseded shopE ann_signin_args ann_reset_args anonymous anonymous
           shop ann (clock shop) H1 shop_no_user_holds_token_0 H2 eq_refl eq_refl).
Defined.

Lemma resetPassword_checks_passwords_witness :
  str_field "password" mismatch_args ≠ str_field "confirmPassword" mismatch_args ∧
  run shopE (resetPassword mismatch_args anonymous) shop = (inl PasswordMismatch, shop) ∧
  query_users_reset (db shop) (str_field "resetToken" wrong_old_args)
    (clock shop - 3600000) = [bob] ∧
  bcrypt_compare shopE (str_field "oldPassword" wrong_old_args) (user_password bob) = false ∧
  run shopE (resetPassword wrong_old_args anonymous) shop =
    (inl (JsError "Invalid current password"), shop).
Proof.
  assert (H1 : str_field "password" mismatch_args ≠
               str_field "confirmPassword" mismatch_args).
  { intros Heq. vm_compute in Heq. discriminate. }
  assert (H2 : query_users_reset (db shop) (str_field "resetToken" wrong_old_args)
                 (clock shop - 3600000) = [bob]) by reflexivity.
  assert (H3 : bcrypt_compare shopE (str_field "oldPassword" wrong_old_args)
                 (user_password bob) = false) by reflexivity.
  split_and!; [exact H1| |exact H2|exact H3|].
  - exact (proj1 (resetPassword_checks_passwords shopE mismatch_args anonymous shop) H1).
  - exact (proj2 (resetPassword_checks_passwords shopE wrong_old_args anonymous shop)
             bob [] eq_refl H2 H3).
Defined.

Lemma updatePermissions_replaces_witness :
  req_userId eve_ctx = Some "u9" ∧ "u9" ≠ "" ∧
  "permissions" ∈ info eve_ctx ∧
  find_user (db shop_with_admin) (ById "u9") = Some eve ∧
  ("ADMIN" ∈ user_permissions eve ∨ "PERMISSIONUPDATE" ∈ user_permissions eve) ∧
  find_user (db shop_with_admin) (ById (str_field "userId" grant_args)) = Some cat ∧
  ∃ w', run shopE (updatePermissions grant_args eve_ctx) shop_with_admin =
          (inr (mkUser "u3" "Cat" "cat@shop.org" "$2a$10$pw3" ["USER"; "ITEMCREATE"]
                  None None), w').
Proof.
  assert (H1 : req_userId eve_ctx = Some "u9") by reflexivity.
  assert (H2 : "u9" ≠ "") by discriminate.
  assert (Hs : "permissions" ∈ info eve_ctx)
    by (apply list_elem_of_In; vm_compute; tauto).
  assert (H3 : find_user (db shop_with_admin) (ById "u9") = Some eve) by reflexivity.
  assert (H4 : "ADMIN" ∈ user_permissions eve ∨ "PERMISSIONUPDATE" ∈ user_permissions eve)
    by (left; apply list_elem_of_In; vm_compute; tauto).
  assert (H5 : find_user (db shop_with_admin) (ById (str_field "userId" grant_args)) =
               Some cat) by reflexivity.
  split_and!; [exact H1|exact H2|exact Hs|exact H3|exact H4|exact H5|].
  destruct (updatePermissions_replaces shopE grant_args eve_ctx shop_with_admin "u9"
              eve cat H1 H2 Hs H3 H4 H5) as (w' & Hr & _).
  exists w'. exact Hr.
Defined.

Lemma updatePermissions_uses_stored_permissions_witness :
  req_userId forged_ctx = Some "u1" ∧ "u1" ≠ "" ∧
  req_user forged_ctx = Some eve ∧
  find_user (db shop) (ById "u1") = Some ann ∧
  ("ADMIN" ∉ user_permissions ann) ∧
  ("PERMISSIONUPDATE" ∉ user_permissions ann) ∧
  run shopE (updatePermissions grant_args forged_ctx) shop = (inl PermissionDenied, shop).
Proof.
  assert (H1 : req_userId forged_ctx = Some "u1") by reflexivity.
  assert (H2 : "u1" ≠ "") by discriminate.
  assert (H3 : find_user (db shop) (ById "u1") = Some ann) by reflexivity.
  assert (H4 : "ADMIN" ∉ user_permissions ann).
  { intros Hin. simpl in Hin. rewrite !elem_of_cons in Hin.
    destruct Hin as [H|[H|[H|H]]]; try discriminate. by apply elem_of_nil in H. }
  assert (H5 : "PERMISSIONUPDATE" ∉ user_permissions ann).
  { intros Hin. simpl in Hin. rewrite !elem_of_cons in Hin.
    destruct Hin as [H|[H|[H|H]]]; try discriminate. by apply elem_of_nil in H. }
  split_and!; [exact H1|exact H2|reflexivity|exact H3|exact H4|exact H5|].
  exact (updatePermissions_uses_stored_permissions shopE grant_args forged_ctx shop "u1"
           ann H1 H2 H3 H4 H5).
Defined.

Lemma createOrder_items_are_cart_snapshot_witness :
  run shopE (createOrder token_args ann_ctx) shop = (inr ann_order, ann_checkout.2) ∧
  order_items_sum ann_order = 1300 ∧
  ∃ uid user cart amount charge payloads,
    req_userId ann_ctx = Some uid ∧
    query_user_cart (db shop) uid = Some (user, cart) ∧
    reduce_total cart 0 = Some amount ∧
    stripe_charges_create shopE (charges shop)
      (mkChargeReq amount "USD" (str_field "token" token_args)) = inr charge ∧
    writes ann_checkout.2 = writes shop ++
      [WCreateOrder (mkOrderCreate (charge_amount charge) (charge_id charge) payloads uid);
       WDeleteManyCartItems (ce_id <$> cart)] ∧
    Forall2 (payload_of uid) payloads cart ∧
    Forall2 (snapshot_of uid) (order_items ann_order) cart ∧
    order_items_sum ann_order = cart_sum cart ∧
    (sums_exactly cart →
       amount = order_items_sum ann_order ∧
       (order_total ann_order = order_items_sum ann_order ↔
        charge_amount charge = amount)).
Proof.
  assert (H : run shopE (createOrder token_args ann_ctx) shop =
              (inr ann_order, ann_checkout.2)) by (vm_compute; reflexivity).
  split_and!; [exact H|reflexivity|].
  exact (createOrder_items_are_cart_snapshot shopE token_args ann_ctx shop _ ann_order H).
Defined.

Lemma createOrder_dangling_cart_entry_witness :
  req_userId ann_ctx = Some "u1" ∧ "u1" ≠ "" ∧
  query_user_cart (db shop_without_sock) "u1" =
    Some (ann, [mkCartEntry "k1" 2 (Some hat); mkCartEntry "k2" 1 None]) ∧
  run shopE (createOrder token_args ann_ctx) shop_without_sock =
    (inl TypeError, shop_without_sock).
Proof.
  assert (H1 : req_userId ann_ctx = Some "u1") by reflexivity.
  assert (H2 : "u1" ≠ "") by discriminate.
  assert (H3 : query_user_cart (db shop_without_sock) "u1" =
               Some (ann, [mkCartEntry "k1" 2 (Some hat); mkCartEntry "k2" 1 None]))
    by (vm_compute; reflexivity).
  assert (H4 : mkCartEntry "k2" 1 None ∈
               [mkCartEntry "k1" 2 (Some hat); mkCartEntry "k2" 1 None])
    by (right; left).
  split_and!; [exact H1|exact H2|exact H3|].
  exact (createOrder_dangling_cart_entry shopE token_args ann_ctx shop_without_sock "u1"
           ann _ (mkCartEntry "k2" 1 None) H1 H2 H3 H4 eq_refl).
Defined.

Lemma overlapping_checkouts_charge_twice_witness :
  req_userId ann_ctx = Some "u1" ∧ "u1" ≠ "" ∧
  query_user_cart (db shop) "u1" = Some (ann, ann_cart) ∧
  reduce_total ann_cart 0 = Some 1300 ∧
  ∃ o1 o2 w' h,
    run_env shopE (overlapped shopE (createOrder token_args ann_ctx)) 0
      (createOrder token_args ann_ctx) shop = (inr o2, w', h) ∧
    charges w' = charges shop ++
      [mkChargeReq 1300 "USD" (str_field "token" token_args);
       mkChargeReq 1300 "USD" (str_field "token" token_args)] ∧
    orders (db w') = orders (db shop) ++ [o1; o2] ∧
    order_id o1 ≠ order_id o2.
Proof.
  assert (H1 : req_userId ann_ctx = Some "u1") by reflexivity.
  assert (H2 : "u1" ≠ "") by discriminate.
  assert (H3 : query_user_cart (db shop) "u1" = Some (ann, ann_cart)) by reflexivity.
  assert (H4 : reduce_total ann_cart 0 = Some 1300) by reflexivity.
  split_and!; [exact H1|exact H2|exact H3|exact H4|].
  destruct (overlapping_checkouts_charge_twice shopE token_args ann_ctx shop "u1" ann
              ann_cart 1300 (mkCharge "ch_0" 1300) (mkCharge "ch_1" 1300)
              H1 H2 H3 H4 eq_refl eq_refl)
    as (o1 & o2 & w' & h & Hr & Hc & Ho & Hid & _).
  exists o1, o2, w', h. split_and!; [exact Hr|exact Hc|exact Ho|exact Hid].
Defined.

Lemma overlapping_addToCart_duplicates_witness :
  req_userId ann_ctx = Some "u1" ∧ "u1" ≠ "" ∧
  query_cartItems (db shop) "u1" (str_field "id" scarf_args) = [] ∧
  ∃ w' h,
    run_env shopE (overlapped_add shopE (addToCart scarf_args ann_ctx)) 0
      (addToCart scarf_args ann_ctx) shop =
      (inr (mkCartItem "c11" 1 "i3" "u1"), w', h) ∧
    query_cartItems (db w') "u1" "i3" =
      [mkCartItem "c10" 1 "i3" "u1"; mkCartItem "c11" 1 "i3" "u1"].
Proof.
  assert (H1 : req_userId ann_ctx = Some "u1") by reflexivity.
  assert (H2 : "u1" ≠ "") by discriminate.
  assert (H3 : query_cartItems (db shop) "u1" (str_field "id" scarf_args) = [])
    by reflexivity.
  split_and!; [exact H1|exact H2|exact H3|].
  destruct (overlapping_addToCart_duplicates shopE scarf_args ann_ctx shop "u1" H1 H2 H3)
    as (w' & h & Hr & _ & Hq).
  exists w', h. split; [exact Hr|exact Hq].
Defined.

(** The binding rejects the deletion of Ann's cart items: her order is
    stored, her checkout fails and her cart is as it was. *)
Lemma orders_append_only_witness :
  ∃ w' o,
    run_faulty shopE cart_deletion_down (resolve shopE CreateOrder token_args ann_ctx) shop =
      (inl (PersistenceError "request failed"), w') ∧
    orders (db w') = orders (db shop) ++ [o] ∧
    order_total o = 1300 ∧
    cartItems (db w') = cartItems (db shop) ∧
    (orders (db w') = orders (db shop) ∨
     (CreateOrder = CreateOrder ∧
      ∃ o, orders (db w') = orders (db shop) ++ [o] ∧
           (inl (PersistenceError "request failed") = inr (ROrder o) ∨
            ∃ e ids, inl (PersistenceError "request failed") = @inl error response e ∧
                     cart_deletion_down _ (MDeleteManyCartItems ids) w' = Some e))).
Proof.
  eexists _, _.
  assert (H : run_faulty shopE cart_deletion_down
                (resolve shopE CreateOrder token_args ann_ctx) shop =
              (inl (PersistenceError "request failed"),
               (run_faulty shopE cart_deletion_down
                  (resolve shopE CreateOrder token_args ann_ctx) shop).2))
    by (vm_compute; reflexivity).
  split_and!; [exact H|vm_compute; reflexivity|reflexivity|reflexivity|].
  exact (orders_append_only shopE cart_deletion_down CreateOrder token_args ann_ctx shop _ _ H).
Defined.
